(** * Plugin handlers of cordova-android: install and uninstall of plugin
      directives ([lib/pluginHandlers.js])

    The development embeds the handlers table and its helper functions
    ([copyFile], [copyNewFile], [symlinkFileOrDirTree], [removeFileF],
    [deleteJava], [removeFileAndParents], [generateAttributeError],
    [getInstallDestination]) over

    - a model of the POSIX flavour of Node's [path] module (module [Path]),
    - a model of the part of Node's [fs] module the handlers call (module
      [Fs]): a tree of regular files, directories and symbolic links, kept
      as a finite map from physical paths to nodes,
    - an error-and-state monad [M] for code that throws and mutates. *)

From Stdlib Require Ascii.
From stdpp Require Import gmap strings list fin_maps.

(** ** JavaScript strings

    Strings are sequences of bytes (UTF-8).  The separators and the
    extensions the handlers look for are ASCII, and no byte of a multi-byte
    UTF-8 sequence is an ASCII byte, so searching them in the bytes agrees
    with searching them in the UTF-16 code units JavaScript sees. *)

Module Str.

(** The characters ['/'] and ['.']. *)
Definition slash : Ascii.ascii := Ascii.ascii_of_nat 47.
Definition dot : Ascii.ascii := Ascii.ascii_of_nat 46.

Definition is_slash (c : Ascii.ascii) : bool := Ascii.eqb c slash.
Definition is_dot (c : Ascii.ascii) : bool := Ascii.eqb c dot.

(** [s.length === 0] *)
Definition is_empty (s : string) : bool :=
  match s with "" => true | _ => false end.

(** [s.startsWith(pre)] *)
Fixpoint startsWith (pre s : string) : bool :=
  match pre with
  | "" => true
  | String a pre' =>
      match s with
      | "" => false
      | String b s' => Ascii.eqb a b && startsWith pre' s'
      end
  end.

(** [s.slice(n)] for [0 <= n] *)
Fixpoint drop (n : nat) (s : string) : string :=
  match n with
  | 0 => s
  | S n' => match s with "" => "" | String _ s' => drop n' s' end
  end.

(** [s.endsWith(suf)]: [s] is [suf], or [s] without its first character
    ends with [suf]. *)
Fixpoint endsWith (suf s : string) : bool :=
  String.eqb suf s ||
  match s with
  | "" => false
  | String _ s' => endsWith suf s'
  end.

(** [s.split('/')]: never empty, [''.split('/')] is [['']]. *)
Fixpoint split (s : string) : list string :=
  match s with
  | "" => [""]
  | String c s' =>
      if is_slash c then "" :: split s'
      else match split s' with
           | [] => [String c ""]
           | w :: ws => String c w :: ws
           end
  end.

(** [l.join('/')] *)
Fixpoint join (l : list string) : string :=
  match l with
  | [] => ""
  | [w] => w
  | w :: ws => w +:+ "/" +:+ join ws
  end.

(** The characters of [s] contain no separator. *)
Fixpoint no_slash (s : string) : bool :=
  match s with
  | "" => true
  | String c s' => negb (is_slash c) && no_slash s'
  end.

(** Index of the last ['.'] of [s], if any. *)
Fixpoint lastDot (s : string) : option nat :=
  match s with
  | "" => None
  | String c s' =>
      match lastDot s' with
      | Some i => Some (S i)
      | None => if is_dot c then Some 0 else None
      end
  end.

(** [s.slice(0, n)] *)
Fixpoint take (n : nat) (s : string) : string :=
  match n with
  | 0 => ""
  | S n' => match s with "" => "" | String c s' => String c (take n' s') end
  end.

End Str.

(** ** Node's [path] module, POSIX flavour *)

Module Path.

(** A segment that [normalizeString] keeps as it is. *)
Definition normal_seg (s : string) : bool :=
  negb (String.eqb s "") && negb (String.eqb s ".") && negb (String.eqb s "..")
  && Str.no_slash s.

(** One segment of [normalizeString]: empty segments and ['.'] are
    dropped, ['..'] removes the last segment kept so far unless there is
    none or it is itself ['..'], in which case ['..'] is kept when
    [allowAboveRoot].  The stack holds the kept segments, last first. *)
Definition norm_step (allowAboveRoot : bool) (stack : list string) (seg : string)
  : list string :=
  if String.eqb seg "" || String.eqb seg "." then stack
  else if String.eqb seg ".." then
    match stack with
    | [] => if allowAboveRoot then [".."] else []
    | top :: rest =>
        if String.eqb top ".." then (if allowAboveRoot then ".." :: stack else stack)
        else rest
    end
  else seg :: stack.

Definition norm_segs (allowAboveRoot : bool) (segs : list string) : list string :=
  rev (fold_left (norm_step allowAboveRoot) segs []).

Definition normalizeString (path : string) (allowAboveRoot : bool) : string :=
  Str.join (norm_segs allowAboveRoot (Str.split path)).

Definition isAbsolute (path : string) : bool := Str.startsWith "/" path.

Definition trailingSeparator (path : string) : bool := Str.endsWith "/" path.

(** [path.normalize] *)
Definition normalize (path : string) : string :=
  if Str.is_empty path then "."
  else
    let p := normalizeString path (negb (isAbsolute path)) in
    if Str.is_empty p then
      (if isAbsolute path then "/"
       else if trailingSeparator path then "./" else ".")
    else
      let p := if trailingSeparator path then p +:+ "/" else p in
      if isAbsolute path then "/" +:+ p else p.

(** [path.join(...args)] *)
Definition join (args : list string) : string :=
  match filter (λ a, Str.is_empty a = false) args with
  | [] => "."
  | parts => normalize (Str.join parts)
  end.

(** The loop of [path.resolve], from the last argument to the first and
    then the working directory, until an absolute path is met. *)
Fixpoint resolve_loop (cwd : string) (rargs : list string) (resolvedPath : string)
  : string * bool :=
  match rargs with
  | [] =>
      if Str.is_empty cwd then (resolvedPath, false)
      else (cwd +:+ "/" +:+ resolvedPath, isAbsolute cwd)
  | p :: rest =>
      if Str.is_empty p then resolve_loop cwd rest resolvedPath
      else if isAbsolute p then (p +:+ "/" +:+ resolvedPath, true)
      else resolve_loop cwd rest (p +:+ "/" +:+ resolvedPath)
  end.

(** [path.resolve(...args)], with [cwd] the value of [process.cwd()]. *)
Definition resolve (cwd : string) (args : list string) : string :=
  let '(resolvedPath, resolvedAbsolute) := resolve_loop cwd (rev args) "" in
  let p := normalizeString resolvedPath (negb resolvedAbsolute) in
  if resolvedAbsolute then "/" +:+ p
  else if Str.is_empty p then "." else p.

(** The segments of a path without the empty ones its trailing
    separators give. *)
Fixpoint drop_empty (l : list string) : list string :=
  match l with
  | [] => []
  | w :: ws => if Str.is_empty w then drop_empty ws else l
  end.

Definition strip_trailing (l : list string) : list string :=
  rev (drop_empty (rev l)).

(** [path.basename(path)]: the last portion of the path, trailing
    separators ignored. *)
Definition basename (path : string) : string :=
  match rev (strip_trailing (Str.split path)) with
  | [] => ""
  | w :: _ => w
  end.

(** [path.extname(path)]: from the last ['.'] of the last portion to its
    end; empty when there is no ['.'], when the only one is the first
    character of the portion, and for ['..']. *)
Definition extname (path : string) : string :=
  let b := basename path in
  match Str.lastDot b with
  | None => ""
  | Some 0 => ""
  | Some i => if String.eqb b ".." then "" else Str.drop i b
  end.

(** [path.basename(path, suffix)]: the last portion without [suffix] when
    it ends in it and is not equal to it. *)
Definition basename_ext (path suffix : string) : string :=
  if Str.is_empty suffix || Nat.ltb (String.length path) (String.length suffix) then basename path
  else if String.eqb suffix path then ""
  else
    let b := basename path in
    if Str.endsWith suffix b && negb (String.eqb suffix b)
    then Str.take (String.length b - String.length suffix) b
    else b.

(** [path.dirname(path)]: the path up to the separator before its last
    portion; the first character is never taken for that separator. *)
Definition dirname (path : string) : string :=
  if Str.is_empty path then "."
  else
    match rev (strip_trailing (Str.split (Str.drop 1 path))) with
    | [] | [_] => if isAbsolute path then "/" else "."
    | _ :: rinit =>
        if isAbsolute path && bool_decide (rinit = [""]) then "//"
        else Str.take 1 path +:+ Str.join (rev rinit)
    end.

(** The names of a resolved path. *)
Definition segments (path : string) : list string :=
  filter (λ s, s ≠ "") (Str.split path).

Fixpoint strip_common (a b : list string) : list string * list string :=
  match a, b with
  | x :: a', y :: b' => if String.eqb x y then strip_common a' b' else (a, b)
  | _, _ => (a, b)
  end.

(** [path.relative(from, to)]: both are resolved, their common leading
    names dropped, then one ['..'] for each name left of [from] and the
    names left of [to]. *)
Definition relative (cwd from to : string) : string :=
  if String.eqb from to then ""
  else
    let from := resolve cwd [from] in
    let to := resolve cwd [to] in
    if String.eqb from to then ""
    else
      let '(up, down) := strip_common (segments from) (segments to) in
      Str.join (((λ _, "..") <$> up) ++ down).

End Path.

(** ** Errors

    What a call throws: the [CordovaError] of cordova-common with its
    message, the [TypeError] Node raises when a [path] function or a string
    method gets [undefined] where it needs a string, the system error of a
    failed [fs] call with its code, and the [RangeError] of a recursion that
    exhausts the call stack. *)

Inductive error :=
| CordovaError (message : string)
| TypeError (message : string)
| SystemError (code : string)
| RangeError (message : string).

Inductive res (A : Type) :=
| Ok (a : A)
| Err (e : error).
Arguments Ok {A} a.
Arguments Err {A} e.

(** ** Node's [fs] module over a tree of files, directories and links *)

Module Fs.

Inductive node :=
| File (content : string)
| Dir
| Symlink (target : string).

#[global] Instance node_eq_dec : EqDecision node.
Proof. solve_decision. Defined.

(** A tree maps the physical path of an entry, its list of names from the
    root, to its node.  The root directory is always there and is not
    stored. *)
Abbreviation tree := (gmap (list string) node).

Definition node_at (t : tree) (p : list string) : option node :=
  match p with
  | [] => Some Dir
  | _ => t !! p
  end.

Definition parent (p : list string) : list string := take (length p - 1) p.

(** The absolute path string of a physical path. *)
Definition render (p : list string) : string := "/" +:+ Str.join p.

(** The names a path string asks the kernel to walk: empty names and
    ['.'] stay where they are. *)
Definition comps (path : string) : list string :=
  filter (λ s, s ≠ "" ∧ s ≠ ".") (Str.split path).

(** The names of the entries of the directory at [q]. *)
Definition children (t : tree) (q : list string) : list string :=
  omap (λ kn : list string * node,
          if decide (q `prefix_of` kn.1 ∧ length kn.1 = S (length q))
          then last kn.1 else None)
       (map_to_list t).

(** The tree without the entry at [q] and everything below it. *)
Definition remove_subtree (t : tree) (q : list string) : tree :=
  filter (λ kn : list string * node, ¬ q `prefix_of` kn.1) t.

(** Where the walk of a path ends. *)
Inductive located :=
| Found (p : list string) (n : node)
| Missing (p : list string)
| Failed (code : string).

(** The kernel gives up with [ELOOP] after this many links. *)
Definition MAXSYMLINKS : nat := 40.

(** The walk of the names [names] from the directory at [cur].  A link
    that is not the last name, or is the last and [follow] is set, is
    replaced by the names of its target.  [Missing p] is a last name absent
    from an existing directory. *)
Fixpoint walk (links : nat) (t : tree) (follow : bool)
  : list string → list string → located :=
  fix go (cur names : list string) {struct names} : located :=
    match names with
    | [] =>
        match node_at t cur with
        | Some n => Found cur n
        | None => Failed "ENOENT"
        end
    | c :: rest =>
        if String.eqb c ".." then go (parent cur) rest
        else
          match t !! (cur ++ [c]) with
          | None =>
              match rest with
              | [] => Missing (cur ++ [c])
              | _ => Failed "ENOENT"
              end
          | Some Dir => go (cur ++ [c]) rest
          | Some (File x) =>
              match rest with
              | [] => Found (cur ++ [c]) (File x)
              | _ => Failed "ENOTDIR"
              end
          | Some (Symlink target) =>
              if bool_decide (rest = []) && negb follow
              then Found (cur ++ [c]) (Symlink target)
              else if Str.is_empty target then Failed "ENOENT"
              else
                match links with
                | 0 => Failed "ELOOP"
                | S links' =>
                    walk links' t follow
                      (if Path.isAbsolute target then [] else cur)
                      (comps target ++ rest)
                end
          end
    end.

Section with_cwd.
(** [process.cwd()], where relative paths start. *)
Variable cwd : string.

Definition locate (t : tree) (follow : bool) (path : string) : located :=
  walk MAXSYMLINKS t follow
    (if Path.isAbsolute path then [] else comps cwd) (comps path).

(** [fs.existsSync(path)]: false on any error. *)
Definition existsSync (t : tree) (path : string) : bool :=
  match locate t true path with
  | Found _ _ => true
  | _ => false
  end.

Definition failure {A} (l : located) : res A :=
  match l with
  | Failed code => Err (SystemError code)
  | _ => Err (SystemError "ENOENT")
  end.

(** [fs.realpathSync(path)] *)
Definition realpathSync (t : tree) (path : string) : res string :=
  match locate t true path with
  | Found p _ => Ok (render p)
  | l => failure l
  end.

(** [fs.statSync(path).isDirectory()] *)
Definition statSync_isDirectory (t : tree) (path : string) : res bool :=
  match locate t true path with
  | Found _ Dir => Ok true
  | Found _ _ => Ok false
  | l => failure l
  end.

(** [fs.readdirSync(path)] *)
Definition readdirSync (t : tree) (path : string) : res (list string) :=
  match locate t true path with
  | Found p Dir => Ok (children t p)
  | Found _ _ => Err (SystemError "ENOTDIR")
  | l => failure l
  end.

(** [fs.readFileSync(path, 'utf-8')] *)
Definition readFileSync (t : tree) (path : string) : res string :=
  match locate t true path with
  | Found _ (File content) => Ok content
  | Found _ _ => Err (SystemError "EISDIR")
  | l => failure l
  end.

(** [fs.rmdirSync(path)]: removes an empty directory, not a link to
    one and not the root. *)
Definition rmdirSync (t : tree) (path : string) : tree * res unit :=
  match locate t false path with
  | Found [] _ => (t, Err (SystemError "EBUSY"))
  | Found p Dir =>
      match children t p with
      | [] => (delete p t, Ok tt)
      | _ => (t, Err (SystemError "ENOTEMPTY"))
      end
  | Found _ _ => (t, Err (SystemError "ENOTDIR"))
  | l => (t, failure l)
  end.

(** [fs.rmSync(path, { recursive: true, force: true })]: removes what is
    at [path], a link itself rather than its target; nothing to remove
    is no error.  The root loses its entries and stays. *)
Definition rmSync (t : tree) (path : string) : tree * res unit :=
  match locate t false path with
  | Found [] _ => (∅, Err (SystemError "EBUSY"))
  | Found p Dir => (remove_subtree t p, Ok tt)
  | Found p _ => (delete p t, Ok tt)
  | Missing _ => (t, Ok tt)
  | Failed code =>
      if String.eqb code "ENOENT" then (t, Ok tt)
      else (t, Err (SystemError code))
  end.

(** One directory of [fs.mkdirSync(path, { recursive: true })]. *)
Definition mkdir1 (t : tree) (start names : list string) (final : bool)
  : tree * res unit :=
  match walk MAXSYMLINKS t true start names with
  | Found _ Dir => (t, Ok tt)
  | Found _ _ => (t, Err (SystemError (if final then "EEXIST" else "ENOTDIR")))
  | Missing p => (<[p := Dir]> t, Ok tt)
  | Failed code => (t, Err (SystemError code))
  end.

(** The directories of [todo] below [done], from the outermost. *)
Fixpoint mkdirs (t : tree) (start done todo : list string) : tree * res unit :=
  match todo with
  | [] => (t, Ok tt)
  | c :: rest =>
      match mkdir1 t start (done ++ [c]) (bool_decide (rest = [])) with
      | (t', Ok _) => mkdirs t' start (done ++ [c]) rest
      | r => r
      end
  end.

(** [fs.mkdirSync(path, { recursive: true })]: creates the directories
    of the path that are missing; a directory that is there is no
    error. *)
Definition mkdirSync (t : tree) (path : string) : tree * res unit :=
  mkdirs t (if Path.isAbsolute path then [] else comps cwd) [] (comps path).

(** [fs.writeFileSync(path, data, 'utf-8')] *)
Definition writeFileSync (t : tree) (path data : string) : tree * res unit :=
  match locate t true path with
  | Found p (File _) => (<[p := File data]> t, Ok tt)
  | Found _ _ => (t, Err (SystemError "EISDIR"))
  | Missing p => (<[p := File data]> t, Ok tt)
  | Failed code => (t, Err (SystemError code))
  end.

(** [fs.symlinkSync(target, path)] *)
Definition symlinkSync (t : tree) (target path : string) : tree * res unit :=
  match locate t false path with
  | Found _ _ => (t, Err (SystemError "EEXIST"))
  | Missing p => (<[p := Symlink target]> t, Ok tt)
  | Failed code => (t, Err (SystemError code))
  end.

(** The entries of the subtree at [ps], each with its path below
    [ps]. *)
Definition cp_entries (t : tree) (ps : list string)
  : list (list string * node) :=
  omap (λ kn : list string * node,
          if decide (ps `prefix_of` kn.1)
          then Some (drop (length ps) kn.1, kn.2) else None)
       (map_to_list t).

(** A directory is not copied over what is not one, nor the reverse. *)
Definition cp_clash (n : node) (d : option node) : option string :=
  match n, d with
  | Dir, Some Dir => None
  | Dir, Some _ => Some "ERR_FS_CP_DIR_TO_NON_DIR"
  | _, Some Dir => Some "ERR_FS_CP_NON_DIR_TO_DIR"
  | _, _ => None
  end.

(** What the copy of a node is: a link is copied as a link, to its
    target resolved from the directory of the link. *)
Definition cp_node (srcItem : string) (n : node) : node :=
  match n with
  | Symlink target =>
      Symlink (if Path.isAbsolute target then target
               else Path.resolve cwd [Path.dirname srcItem; target])
  | _ => n
  end.

Definition cp_write (src : string) (pd : list string) (t : tree)
    (entries : list (list string * node)) : tree :=
  foldr (λ (e : list string * node) acc,
           <[pd ++ e.1 := cp_node (Path.join (src :: e.1)) e.2]> acc)
        t entries.

(** [fs.cpSync(src, dest, { recursive: true })], links not
    dereferenced: the subtree at [src] is written over [dest], entries
    of [dest] with other names stay.  Refused: a source that is not
    there, a destination inside the source, a directory over a
    non-directory and the reverse.  The clashes inside the subtree are
    all looked for before the first write (Node meets them while it
    copies, in the order the directories are read). *)
Definition cpSync (t : tree) (src dest : string) : tree * res unit :=
  match locate t false src with
  | Found ps n =>
      let refused :=
        match locate t false dest with
        | Found pd m =>
            match cp_clash n (Some m) with
            | Some code => Some code
            | None => if decide (ps `prefix_of` pd) then Some "ERR_FS_CP_EINVAL" else None
            end
        | Missing pd => if decide (ps `prefix_of` pd) then Some "ERR_FS_CP_EINVAL" else None
        | Failed code => if String.eqb code "ENOENT" then None else Some code
        end in
      match refused with
      | Some code => (t, Err (SystemError code))
      | None =>
          let '(t1, r) :=
            if existsSync t (Path.dirname dest) then (t, Ok tt)
            else mkdirSync t (Path.dirname dest) in
          match r with
          | Err e => (t1, Err e)
          | Ok _ =>
              match locate t1 false dest with
              | Found pd _ | Missing pd =>
                  let entries := cp_entries t1 ps in
                  match list_find (λ e : list string * node,
                            is_Some (cp_clash e.2 (t1 !! (pd ++ e.1)))) entries with
                  | Some (_, e) =>
                      (t1, Err (SystemError
                                  (default "" (cp_clash e.2 (t1 !! (pd ++ e.1))))))
                  | None => (cp_write src pd t1 entries, Ok tt)
                  end
              | Failed code => (t1, Err (SystemError code))
              end
          end
      end
  | l => (t, failure l)
  end.

End with_cwd.

End Fs.

(** ** The state and the monad of the handlers

    The state the handlers touch: the tree of the file system and the
    messages sent to the events emitter of cordova-common.  A computation
    returns a value or throws, and gives the state it leaves in both
    cases. *)

Record world := World {
  tree : Fs.tree;
  emitted : list (string * string)
}.

Definition M (A : Type) : Type := world → world * res A.

#[global] Instance res_ret : MRet res := λ A a, Ok a.
#[global] Instance res_bind : MBind res := λ A B f m,
  match m with
  | Ok a => f a
  | Err e => Err e
  end.

#[global] Instance M_ret : MRet M := λ A a w, (w, Ok a).
#[global] Instance M_bind : MBind M := λ A B f m w,
  match m w with
  | (w', Ok a) => f a w'
  | (w', Err e) => (w', Err e)
  end.

Definition throw {A} (e : error) : M A := λ w, (w, Err e).

(** A pure computation that may throw. *)
Definition lift {A} (r : res A) : M A := λ w, (w, r).

(** An [fs] call that reads the tree. *)
Definition fs_read {A} (f : Fs.tree → A) : M A := λ w, (w, Ok (f (tree w))).
Definition fs_try {A} (f : Fs.tree → res A) : M A := λ w, (w, f (tree w)).

(** An [fs] call that writes the tree. *)
Definition fs_write {A} (f : Fs.tree → Fs.tree * res A) : M A := λ w,
  let '(t, r) := f (tree w) in (World t (emitted w), r).

(** [events.emit(level, message)] *)
Definition events_emit (level message : string) : M unit := λ w,
  (World (tree w) (emitted w ++ [(level, message)]), Ok tt).

(** [list.forEach(f)] *)
Fixpoint forEach {A} (l : list A) (f : A → M unit) : M unit :=
  match l with
  | [] => mret tt
  | x :: l' => f x ;; forEach l' f
  end.

(** ** JavaScript values of the directive attributes *)

(** The line feed of the module envelope. *)
Definition nl : string := String (Ascii.ascii_of_nat 10) "".

(** The double quote of the error messages. *)
Definition dq : string := String (Ascii.ascii_of_nat 34) "".

(** An attribute is a string or [undefined]; [!attr] holds of [undefined]
    and of the empty string. *)
Definition truthy (o : option string) : bool :=
  match o with
  | Some s => negb (Str.is_empty s)
  | None => false
  end.

(** [a || b] on attributes *)
Definition js_or (a b : option string) : option string :=
  if truthy a then a else b.

(** [String(v)], what [RegExp.prototype.test] matches an argument as. *)
Definition ToString (o : option string) : string :=
  match o with
  | Some s => s
  | None => "undefined"
  end.

(** The functions of [path] and the string methods throw on [undefined]. *)
Definition path_arg (o : option string) : res string :=
  match o with
  | Some s => Ok s
  | None =>
      Err (TypeError ("The " +:+ dq +:+ "path" +:+ dq
                        +:+ " argument must be of type string. Received undefined"))
  end.

Definition receiver (method : string) (o : option string) : res string :=
  match o with
  | Some s => Ok s
  | None =>
      Err (TypeError ("Cannot read properties of undefined (reading '"
                        +:+ method +:+ "')"))
  end.

(** The regular expressions of [getInstallDestination] all have the shape
    [^lit(\/|$)]: [lit] at the start of the string, followed by a separator
    or by the end of the string.  [exec] gives what follows the match. *)
Module RegExp.

Definition exec (lit s : string) : option string :=
  if Str.startsWith (lit +:+ "/") s then Some (Str.drop (String.length lit + 1) s)
  else if String.eqb s lit then Some ""
  else None.

(** [re.test(v)] *)
Definition test (lit : string) (v : option string) : bool :=
  bool_decide (is_Some (exec lit (ToString v))).

(** [s.replace(re, '')] *)
Definition replace_empty (lit s : string) : string :=
  default s (exec lit s).

End RegExp.

(** [content.replace(re, '')] with [re] the byte order mark U+FEFF at the
    start of the string: the bytes EF BB BF in UTF-8. *)
Definition BOM : string :=
  String (Ascii.ascii_of_nat 239) (String (Ascii.ascii_of_nat 187)
    (String (Ascii.ascii_of_nat 191) "")).

Definition stripBOM (content : string) : string :=
  if Str.startsWith BOM content then Str.drop 3 content else content.

(** ** The objects the handlers receive *)

Module Obj.
(** A directive of plugin.xml; [custom] as the boolean the parser of
    cordova-common gives. *)
Record t := Make {
  src : option string;
  target : option string;
  targetDir : option string;
  name : option string;
  parent : option string;
  custom : bool;
  type : option string
}.
End Obj.

Module Plugin.
Record t := Make {
  id : string;
  dir : string
}.
End Plugin.

Module Options.
Record t := Make {
  force : bool;
  link : bool;
  usePlatformWww : bool
}.
End Options.

(** [options && options.flag] as a condition *)
Definition opt (flag : Options.t → bool) (options : option Options.t) : bool :=
  match options with
  | Some o => flag o
  | None => false
  end.

Module Project.
(** The project handle: its directories, and the operations on the
    build configuration the framework handler delegates to. *)
Record t := Make {
  projectDir : string;
  www : string;
  platformWww : string;
  getCustomSubprojectRelativeDir : string → string → string;
  addGradleReference : string → string → M unit;
  addSystemLibrary : string → string → M unit;
  addSubProject : string → string → M unit;
  removeGradleReference : string → string → M unit;
  removeSystemLibrary : string → string → M unit;
  removeSubProject : string → string → M unit
}.
End Project.

(** ** [lib/pluginHandlers.js] *)

Section pluginHandlers.

(** [process.cwd()] *)
Variable cwd : string.

(** The [fs] calls, in the monad. *)
Definition existsSync (path : string) : M bool :=
  fs_read (λ t, Fs.existsSync cwd t path).
Definition realpathSync (path : string) : M string :=
  fs_try (λ t, Fs.realpathSync cwd t path).
Definition statSync_isDirectory (path : string) : M bool :=
  fs_try (λ t, Fs.statSync_isDirectory cwd t path).
Definition readdirSync (path : string) : M (list string) :=
  fs_try (λ t, Fs.readdirSync cwd t path).
Definition readFileSync (path : string) : M string :=
  fs_try (λ t, Fs.readFileSync cwd t path).
Definition rmdirSync (path : string) : M unit :=
  fs_write (λ t, Fs.rmdirSync cwd t path).
Definition rmSync (path : string) : M unit :=
  fs_write (λ t, Fs.rmSync cwd t path).
Definition mkdirSync (path : string) : M unit :=
  fs_write (λ t, Fs.mkdirSync cwd t path).
Definition writeFileSync (path data : string) : M unit :=
  fs_write (λ t, Fs.writeFileSync cwd t path data).
Definition symlinkSync (target path : string) : M unit :=
  fs_write (λ t, Fs.symlinkSync cwd t target path).
Definition cpSync (src dest : string) : M unit :=
  fs_write (λ t, Fs.cpSync cwd t src dest).

(** The package is-path-inside: the path from [parentPath] to
    [childPath] is not empty and does not start by going up. *)
Definition isPathInside (childPath parentPath : string) : bool :=
  let relation := Path.relative cwd parentPath childPath in
  negb (Str.is_empty relation)
  && negb (String.eqb relation "..")
  && negb (Str.startsWith "../" relation)
  && negb (String.eqb relation (Path.resolve cwd [childPath])).

Definition generateAttributeError (attribute element id : string) : string :=
  "Required attribute " +:+ dq +:+ attribute +:+ dq +:+ " not specified in <"
    +:+ element +:+ "> element from plugin: " +:+ id.

Definition getInstallDestination (obj : Obj.t) : res string :=
  let APP_MAIN_PREFIX := "app/src/main" in
  let appReg := "app" in
  let libsReg := "libs" in
  let srcReg := "src" in
  let srcMainReg := "src/main" in
  if RegExp.test appReg (Obj.targetDir obj) then
    (* If any source file is using the new app directory structure,
       don't penalize it *)
    src ← path_arg (Obj.src obj);
    targetDir ← path_arg (Obj.targetDir obj);
    mret (Path.join [targetDir; Path.basename src])
  else
    (* Plugin using deprecated target directory structure (GH-580) *)
    src ← receiver "endsWith" (Obj.src obj);
    if Str.endsWith ".java" src then
      targetDir ← receiver "replace" (Obj.targetDir obj);
      mret (Path.join [APP_MAIN_PREFIX; "java";
                       RegExp.replace_empty srcReg targetDir; Path.basename src])
    else if Str.endsWith ".aidl" src then
      targetDir ← receiver "replace" (Obj.targetDir obj);
      mret (Path.join [APP_MAIN_PREFIX; "aidl";
                       RegExp.replace_empty srcReg targetDir; Path.basename src])
    else if RegExp.test libsReg (Obj.targetDir obj) then
      if Str.endsWith ".so" src then
        targetDir ← receiver "replace" (Obj.targetDir obj);
        mret (Path.join [APP_MAIN_PREFIX; "jniLibs";
                         RegExp.replace_empty libsReg targetDir; Path.basename src])
      else
        targetDir ← path_arg (Obj.targetDir obj);
        mret (Path.join ["app"; targetDir; Path.basename src])
    else if RegExp.test srcMainReg (Obj.targetDir obj) then
      targetDir ← path_arg (Obj.targetDir obj);
      mret (Path.join ["app"; targetDir; Path.basename src])
    else
      (* For all other source files not using the new app directory
         structure, add 'app/src/main' to the targetDir *)
      targetDir ← path_arg (Obj.targetDir obj);
      mret (Path.join [APP_MAIN_PREFIX; targetDir; Path.basename src]).

(** A path of more than PATH_MAX = 4096 bytes is refused by every [fs]
    call, and each level of [symlinkFileOrDirTree] makes its paths a name
    longer: no run is deeper than this. *)
Definition PATH_MAX : nat := 4096.

Fixpoint symlinkFileOrDirTree_rec (depth : nat) (src dest : string) : M unit :=
  match depth with
  | 0 => throw (SystemError "ENAMETOOLONG")
  | S depth' =>
      e ← existsSync dest;
      (if (e : bool) then rmSync dest else mret tt);;
      d ← statSync_isDirectory src;
      if (d : bool) then
        mkdirSync (Path.dirname dest);;
        entries ← readdirSync src;
        forEach entries (λ entry,
          symlinkFileOrDirTree_rec depth' (Path.join [src; entry])
                                   (Path.join [dest; entry]))
      else
        real ← realpathSync (Path.dirname dest);
        symlinkSync (Path.relative cwd real src) dest
  end.

Definition symlinkFileOrDirTree (src dest : string) : M unit :=
  symlinkFileOrDirTree_rec PATH_MAX src dest.

Definition copyFile (plugin_dir : string) (src : option string)
    (project_dir dest : string) (link : bool) : M unit :=
  src ← lift (path_arg src);
  let src := Path.resolve cwd [plugin_dir; src] in
  e ← existsSync src;
  if negb e then throw (CordovaError (dq +:+ src +:+ dq +:+ " not found!"))
  else
    (* check that src path is inside plugin directory *)
    real_path ← realpathSync src;
    real_plugin_path ← realpathSync plugin_dir;
    if negb (isPathInside real_path real_plugin_path) then
      throw (CordovaError ("File " +:+ dq +:+ src +:+ dq
               +:+ " is located outside the plugin directory "
               +:+ dq +:+ plugin_dir +:+ dq))
    else
      let dest := Path.resolve cwd [project_dir; dest] in
      (* check that dest path is located in project directory *)
      if negb (isPathInside dest project_dir) then
        throw (CordovaError ("Destination " +:+ dq +:+ dest +:+ dq
                 +:+ " for source file " +:+ dq +:+ src +:+ dq
                 +:+ " is located outside the project"))
      else
        mkdirSync (Path.dirname dest);;
        if link then symlinkFileOrDirTree src dest
        else cpSync src dest.

(** Same as copy file but throws error if target exists *)
Definition copyNewFile (plugin_dir : string) (src : option string)
    (project_dir dest : string) (link : bool) : M unit :=
  let target_path := Path.resolve cwd [project_dir; dest] in
  e ← existsSync target_path;
  if (e : bool) then throw (CordovaError (dq +:+ target_path +:+ dq +:+ " already exists!"))
  else copyFile plugin_dir src project_dir dest link.

Definition removeFileF (file : string) : M unit := rmSync file.

(** The loop of [removeFileAndParents].  Each round makes [curDir] a
    name shorter, so the rounds are bounded by the length of the path;
    [rounds] is that bound. *)
Fixpoint prune (rounds : nat) (curDir stop : string) : M unit :=
  if String.eqb curDir stop then mret tt
  else
    match rounds with
    | 0 => throw (RangeError "removeFileAndParents: the loop does not end")
    | S rounds' =>
        e ← existsSync curDir;
        if (e : bool) then
          entries ← readdirSync curDir;
          if Nat.eqb (length entries) 0 then
            rmdirSync curDir;;
            prune rounds' (Path.resolve cwd [curDir; ".."]) stop
          else mret tt (* directory not empty...do nothing *)
        else mret tt
    end.

Definition removeFileAndParents (baseDir destFile : string)
    (stopper : option string) : M unit :=
  let stopper := default "." (js_or stopper (Some ".")) in
  let file := Path.resolve cwd [baseDir; destFile] in
  e ← existsSync file;
  if negb e then mret tt
  else
    removeFileF file;;
    (* check if directory is empty *)
    let curDir := Path.dirname file in
    prune (S (String.length file)) curDir (Path.resolve cwd [baseDir; stopper]).

(** Sometimes we want to remove some java, and prune any unnecessary
    empty directories *)
Definition deleteJava (project_dir destFile : string) : M unit :=
  removeFileAndParents project_dir destFile (Some "src").

(** The handlers.  A handler receives the directive, the plugin, the
    project and the options, which may be [undefined]. *)
Definition handler : Type :=
  Obj.t → Plugin.t → Project.t → option Options.t → M unit.

Definition source_file_install : handler := λ obj plugin project options,
  if negb (truthy (Obj.src obj)) then
    throw (CordovaError (generateAttributeError "src" "source-file" (Plugin.id plugin)))
  else if negb (truthy (Obj.targetDir obj)) then
    throw (CordovaError (generateAttributeError "target-dir" "source-file" (Plugin.id plugin)))
  else
    dest ← lift (getInstallDestination obj);
    if opt Options.force options then
      copyFile (Plugin.dir plugin) (Obj.src obj) (Project.projectDir project) dest
               (opt Options.link options)
    else
      copyNewFile (Plugin.dir plugin) (Obj.src obj) (Project.projectDir project) dest
                  (opt Options.link options).

Definition source_file_uninstall : handler := λ obj plugin project options,
  dest ← lift (getInstallDestination obj);
  (* TODO: Add Koltin extension to uninstall, since they are handled
     like Java files *)
  src ← lift (receiver "endsWith" (Obj.src obj));
  if Str.endsWith "java" src then
    deleteJava (Project.projectDir project) dest
  else
    (* Just remove the file, not the whole parent directory *)
    removeFileF (Path.resolve cwd [Project.projectDir project; dest]).

Definition lib_file_install : handler := λ obj plugin project options,
  src ← lift (path_arg (Obj.src obj));
  let dest := Path.join ["app/libs"; Path.basename src] in
  copyFile (Plugin.dir plugin) (Obj.src obj) (Project.projectDir project) dest
           (opt Options.link options).

Definition lib_file_uninstall : handler := λ obj plugin project options,
  src ← lift (path_arg (Obj.src obj));
  let dest := Path.join ["app/libs"; Path.basename src] in
  removeFileF (Path.resolve cwd [Project.projectDir project; dest]).

Definition resource_file_install : handler := λ obj plugin project options,
  target ← lift (path_arg (Obj.target obj));
  let dest := Path.join ["app"; "src"; "main"; target] in
  copyFile (Plugin.dir plugin) (Obj.src obj) (Project.projectDir project) dest
           (opt Options.link options).

Definition resource_file_uninstall : handler := λ obj plugin project options,
  target ← lift (path_arg (Obj.target obj));
  let dest := Path.join ["app"; "src"; "main"; target] in
  removeFileF (Path.resolve cwd [Project.projectDir project; dest]).

(** The handler of a framework that is not custom sets [obj.type] to
    ['sys']; [framework_type] is the type the rest of the handler
    reads. *)
Definition framework_type (obj : Obj.t) : option string :=
  if Obj.custom obj then Obj.type obj else Some "sys".

Definition framework_parentDir (obj : Obj.t) (project : Project.t) : string :=
  match Obj.parent obj with
  | Some parent =>
      if Str.is_empty parent then Project.projectDir project
      else Path.resolve cwd [Project.projectDir project; parent]
  | None => Project.projectDir project
  end.

Definition framework_install : handler := λ obj plugin project options,
  if negb (truthy (Obj.src obj)) then
    throw (CordovaError (generateAttributeError "src" "framework" (Plugin.id plugin)))
  else
    let src := ToString (Obj.src obj) in
    events_emit "verbose" ("Installing Android library: " +:+ src);;
    let parentDir := framework_parentDir obj project in
    subDir ←
      (if Obj.custom obj then
         let subRelativeDir :=
           Project.getCustomSubprojectRelativeDir project (Plugin.id plugin) src in
         copyNewFile (Plugin.dir plugin) (Some src) (Project.projectDir project)
                     subRelativeDir (opt Options.link options);;
         mret (Path.resolve cwd [Project.projectDir project; subRelativeDir])
       else mret src);
    if bool_decide (framework_type obj = Some "gradleReference") then
      Project.addGradleReference project parentDir subDir
    else if bool_decide (framework_type obj = Some "sys") then
      Project.addSystemLibrary project parentDir subDir
    else
      Project.addSubProject project parentDir subDir.

Definition framework_uninstall : handler := λ obj plugin project options,
  if negb (truthy (Obj.src obj)) then
    throw (CordovaError (generateAttributeError "src" "framework" (Plugin.id plugin)))
  else
    let src := ToString (Obj.src obj) in
    events_emit "verbose" ("Uninstalling Android library: " +:+ src);;
    let parentDir := framework_parentDir obj project in
    subDir ←
      (if Obj.custom obj then
         let subRelativeDir :=
           Project.getCustomSubprojectRelativeDir project (Plugin.id plugin) src in
         removeFileF (Path.resolve cwd [Project.projectDir project; subRelativeDir]);;
         let subDir := Path.resolve cwd [Project.projectDir project; subRelativeDir] in
         (* If it's the last framework in the plugin, remove the parent
            directory. *)
         let parDir := Path.dirname subDir in
         e ← existsSync parDir;
         (if (e : bool) then
            entries ← readdirSync parDir;
            if Nat.eqb (length entries) 0 then rmdirSync parDir else mret tt
          else mret tt);;
         mret subDir
       else mret src);
    if bool_decide (framework_type obj = Some "gradleReference") then
      Project.removeGradleReference project parentDir subDir
    else if bool_decide (framework_type obj = Some "sys") then
      Project.removeSystemLibrary project parentDir subDir
    else
      Project.removeSubProject project parentDir subDir.

Definition asset_install : handler := λ obj plugin project options,
  if negb (truthy (Obj.src obj)) then
    throw (CordovaError (generateAttributeError "src" "asset" (Plugin.id plugin)))
  else if negb (truthy (Obj.target obj)) then
    throw (CordovaError (generateAttributeError "target" "asset" (Plugin.id plugin)))
  else
    let target := ToString (Obj.target obj) in
    copyFile (Plugin.dir plugin) (Obj.src obj) (Project.www project) target false;;
    if opt Options.usePlatformWww options then
      (* CB-11022 copy file to both directories if usePlatformWww is
         specified *)
      copyFile (Plugin.dir plugin) (Obj.src obj) (Project.platformWww project)
               target false
    else mret tt.

Definition asset_uninstall : handler := λ obj plugin project options,
  let target := js_or (Obj.target obj) (Obj.src obj) in
  if negb (truthy target) then
    throw (CordovaError (generateAttributeError "target" "asset" (Plugin.id plugin)))
  else
    let target := ToString target in
    removeFileAndParents (Project.www project) target None;;
    if opt Options.usePlatformWww options then
      removeFileAndParents (Project.platformWww project) target None
    else mret tt.

(** The content [js-module] writes for the content read. *)
Definition scriptContent (moduleSource moduleName content : string) : string :=
  let scriptContent := stripBOM content in (* Window BOM *)
  let scriptContent :=
    if Str.endsWith ".json" moduleSource
    then "module.exports = " +:+ scriptContent else scriptContent in
  "cordova.define(" +:+ dq +:+ moduleName +:+ dq
    +:+ ", function(require, exports, module) {" +:+ nl +:+ scriptContent
    +:+ nl +:+ "});" +:+ nl.

Definition js_module_install : handler := λ obj plugin project options,
  (* Copy the plugin's files into the www directory. *)
  src ← lift (path_arg (Obj.src obj));
  let moduleSource := Path.resolve cwd [Plugin.dir plugin; src] in
  let moduleName :=
    Plugin.id plugin +:+ "." +:+
      (if truthy (Obj.name obj) then ToString (Obj.name obj)
       else Path.basename_ext src (Path.extname src)) in
  (* Read in the file, prepend the cordova.define, and write it back
     out. *)
  content ← readFileSync moduleSource;
  let scriptContent := scriptContent moduleSource moduleName content in
  let wwwDest := Path.resolve cwd [Project.www project; "plugins"; Plugin.id plugin; src] in
  mkdirSync (Path.dirname wwwDest);;
  writeFileSync wwwDest scriptContent;;
  if opt Options.usePlatformWww options then
    (* CB-11022 copy file to both directories if usePlatformWww is
       specified *)
    let platformWwwDest :=
      Path.resolve cwd [Project.platformWww project; "plugins"; Plugin.id plugin; src] in
    mkdirSync (Path.dirname platformWwwDest);;
    writeFileSync platformWwwDest scriptContent
  else mret tt.

Definition js_module_uninstall : handler := λ obj plugin project options,
  src ← lift (path_arg (Obj.src obj));
  let pluginRelativePath := Path.join ["plugins"; Plugin.id plugin; src] in
  removeFileAndParents (Project.www project) pluginRelativePath None;;
  if opt Options.usePlatformWww options then
    (* CB-11022 remove file from both directories if usePlatformWww is
       specified *)
    removeFileAndParents (Project.platformWww project) pluginRelativePath None
  else mret tt.

Record handler_pair := Handlers {
  install : handler;
  uninstall : handler
}.

(** The table [handlers]; a name that is not one of its keys has no
    [install] and no [uninstall]. *)
Definition handlers (type : string) : option handler_pair :=
  if String.eqb type "source-file" then
    Some (Handlers source_file_install source_file_uninstall)
  else if String.eqb type "lib-file" then
    Some (Handlers lib_file_install lib_file_uninstall)
  else if String.eqb type "resource-file" then
    Some (Handlers resource_file_install resource_file_uninstall)
  else if String.eqb type "framework" then
    Some (Handlers framework_install framework_uninstall)
  else if String.eqb type "asset" then
    Some (Handlers asset_install asset_uninstall)
  else if String.eqb type "js-module" then
    Some (Handlers js_module_install js_module_uninstall)
  else None.

Definition getInstaller (type : string) : M (option handler) :=
  match handlers type with
  | Some h => mret (Some (install h))
  | None =>
      events_emit "verbose" ("<" +:+ type +:+ "> is not supported for android plugins");;
      mret None
  end.

Definition getUninstaller (type : string) : M (option handler) :=
  match handlers type with
  | Some h => mret (Some (uninstall h))
  | None =>
      events_emit "verbose" ("<" +:+ type +:+ "> is not supported for android plugins");;
      mret None
  end.

End pluginHandlers.

(** * Properties *)

(** Unfolds the monad and the wrappers of the [fs] calls. *)
Ltac run :=
  unfold removeFileF in *;
  unfold existsSync, realpathSync, statSync_isDirectory, readdirSync,
    readFileSync, rmdirSync, rmSync, mkdirSync, writeFileSync, symlinkSync,
    cpSync in *;
  unfold throw, lift, fs_read, fs_try, fs_write in *;
  unfold mbind, M_bind, mret, M_ret in *;
  cbn [tree emitted path_arg receiver] in *.

(** A world to run the examples in: a plugin with a library, a script, a
    data file and a link that leaves the plugin, and a project. *)
Module Example.

Definition files : Fs.tree :=
  list_to_map
    [ (["plug"], Fs.Dir);
      (["plug"; "a.jar"], Fs.File "JAR");
      (["plug"; "www"], Fs.Dir);
      (["plug"; "www"; "x.js"], Fs.File "X");
      (["plug"; "foo.json"], Fs.File "{}");
      (["plug"; "lib"], Fs.Dir);
      (["plug"; "lib"; "build.gradle"], Fs.File "G");
      (["plug"; "link"], Fs.Symlink "/etc");
      (["etc"], Fs.Dir);
      (["etc"; "passwd"], Fs.File "root");
      (["proj"], Fs.Dir);
      (["proj"; "build.gradle"], Fs.File "B");
      (["proj"; "www"], Fs.Dir);
      (["proj"; "platform_www"], Fs.Dir);
      (["proj"; "my.plugin"], Fs.Dir);
      (["proj"; "my.plugin"; "lib"], Fs.Dir) ].

Definition world0 : world := World files [].

Definition plugin : Plugin.t := Plugin.Make "my.plugin" "/plug".

Definition project : Project.t :=
  Project.Make "/proj" "/proj/www" "/proj/platform_www"
    (λ id src, id +:+ "/" +:+ Path.basename src)
    (λ _ _, mret tt) (λ _ _, mret tt) (λ _ _, mret tt)
    (λ _ _, mret tt) (λ _ _, mret tt) (λ _ _, mret tt).

Definition attrs (src target targetDir : option string) : Obj.t :=
  Obj.Make src target targetDir None None false None.

End Example.

(** ** The vocabulary of the properties *)


(** A custom framework, the library of the example plugin. *)
Definition framework_custom : Obj.t :=
  Obj.Make (Some "lib") None None None None true None.

(** A list of names as [path.resolve] gives them. *)
Definition normal_list (l : list string) : Prop :=
  Forall (λ s, Path.normal_seg s = true) l.

(** What is kept of a list of names without ['..']. *)
Definition kept (l : list string) : list string :=
  filter (λ s, s ≠ "" ∧ s ≠ ".") l.

(** The names [path.resolve] ends with. *)
Definition resolved (cwd : string) (args : list string) : list string :=
  Path.norm_segs false (Str.split (Path.resolve_loop cwd (rev args) "").1).

(** The legacy directives whose destination stays below [app/libs]: the
    target directory is [libs] or below it, and the source is neither a
    Java source, nor an AIDL source, nor a shared object. *)
Definition legacy_libs (src targetDir : string) : bool :=
  negb (Str.endsWith ".java" src) && negb (Str.endsWith ".aidl" src)
  && RegExp.test "libs" (Some targetDir) && negb (Str.endsWith ".so" src).

(** The name a js-module is defined under: [obj.name] when it is a
    non-empty string, else the base name of [src] without its extension. *)
Definition moduleName (obj : Obj.t) (src : string) : string :=
  if truthy (Obj.name obj) then ToString (Obj.name obj)
  else Path.basename_ext src (Path.extname src).

(** The root is not stored, and every entry of a tree is in a
    directory. *)
Definition wf (t : Fs.tree) : Prop :=
  t !! [] = None ∧
  ∀ q x, is_Some (t !! (q ++ [x])) → Fs.node_at t q = Some Fs.Dir.

(** The names of [names] but the last lead from [cur] through
    directories. *)
Definition through_dirs (t : Fs.tree) (cur names : list string) : Prop :=
  ∀ k, 0 < k < length names → t !! (cur ++ take k names) = Some Fs.Dir.

(** The directories of [A] longer than [k] names: what a walk up from [A]
    that stops at [take k A] removes. *)
Definition pruned (A : list string) (k : nat) (q : list string) : Prop :=
  ∃ j, k < j ≤ length A ∧ q = take j A.

(** What the walk up from the directory [A] of the tree [t] gives, with
    the directory [S] to stop at: the directories removed are those of
    [A] longer than some [k]; each was not [S] and had no entry but the
    next one; and the walk stops at [take k A] because it is [S], because
    it has entries, or because it is the root. *)
Definition walked_up (S A : list string) (t : Fs.tree)
    (e : list (string * string)) (out : world * res unit) : Prop :=
  ∃ k r t',
    out = (World t' e, r) ∧
    k ≤ length A ∧ wf t' ∧
    (∀ q, pruned A k q → t' !! q = None) ∧
    (∀ q, ¬ pruned A k q → t' !! q = t !! q) ∧
    (∀ j, k < j ≤ length A →
       take j A ≠ S ∧
       ∀ x, is_Some (t !! (take j A ++ [x])) →
            j < length A ∧ take j A ++ [x] = take (Datatypes.S j) A) ∧
    (take k A = S ∧ r = Ok tt ∨
     take k A ≠ S ∧ (∃ x, is_Some (t' !! (take k A ++ [x]))) ∧ r = Ok tt ∨
     take k A ≠ S ∧ k = 0 ∧ (∀ x, t' !! [x] = None) ∧
       r = Err (SystemError "EBUSY")).

(** The check of [wf] on the entries of a tree. *)
Definition wfb (t : Fs.tree) : bool :=
  forallb (λ kn : list string * Fs.node,
             match kn.1 with
             | [] => false
             | _ => bool_decide (Fs.node_at t (Fs.parent kn.1) = Some Fs.Dir)
             end)
          (map_to_list t).

(** The example of the walk up: a file three directories below the
    stopper. *)
Module Pruning.

Definition files : Fs.tree :=
  list_to_map
    [ (["base"], Fs.Dir);
      (["base"; "keep.txt"], Fs.File "k");
      (["base"; "a"], Fs.Dir);
      (["base"; "a"; "b"], Fs.Dir);
      (["base"; "a"; "b"; "c"], Fs.Dir);
      (["base"; "a"; "b"; "c"; "file.txt"], Fs.File "f") ].

Definition after : Fs.tree :=
  list_to_map
    [ (["base"], Fs.Dir);
      (["base"; "keep.txt"], Fs.File "k");
      (["base"; "a"], Fs.Dir) ].

End Pruning.

(** [q] is strictly below [W]. *)
Definition under (W q : list string) : Prop := W `prefix_of` q ∧ q ≠ W.

(** The directories of the way from [W] to [D], both excluded. *)
Definition midway (W D q : list string) : Prop :=
  ∃ j, length W < j < length D ∧ q = take j D.

(** A tree ready for an install at [D] below the root directory [W]:
    [W] is a directory, nothing is at [D], and no directory of the way from
    [W] to [D] is there and empty. *)
Record vacant (W D : list string) (t : Fs.tree) : Prop := Vacant {
  vacant_wf : wf t;
  vacant_under : under W D;
  vacant_root : Fs.node_at t W = Some Fs.Dir;
  vacant_dest : t !! D = None;
  vacant_midway :
    ∀ j, length W < j < length D → is_Some (t !! take j D) →
         ∃ x, is_Some (t !! (take j D ++ [x]))
}.

(** What an install at [D] makes of a vacant tree: the directories of the
    way are there, a file or a directory is at [D], and nothing else
    changes outside [D]. *)
Record installed (W D : list string) (t t' : Fs.tree) : Prop := Installed {
  installed_wf : wf t';
  installed_more : t ⊆ t';
  installed_dest : ∃ n, t' !! D = Some n ∧ ∀ target, n ≠ Fs.Symlink target;
  installed_midway : ∀ q, midway W D q → t' !! q = Some Fs.Dir;
  installed_other : ∀ q, ¬ D `prefix_of` q → ¬ midway W D q → t' !! q = t !! q
}.

(** A path made of names: no empty name, no ['.'] and no ['..']. *)
Definition plain (s : string) : Prop := normal_list (Str.split s).

(** A tree ready for the install of [rel] below [www], and below
    [platformWww] when [usePlatformWww] is set: both are vacant, and
    neither root is on the way to the other. *)
Definition ready (cwd : string) (project : Project.t) (options : option Options.t)
    (rel : string) (t : Fs.tree) : Prop :=
  let W1 := Fs.comps (Path.resolve cwd [Project.www project]) in
  let D1 := Fs.comps (Path.resolve cwd [Project.www project; rel]) in
  let W2 := Fs.comps (Path.resolve cwd [Project.platformWww project]) in
  let D2 := Fs.comps (Path.resolve cwd [Project.platformWww project; rel]) in
  vacant W1 D1 t ∧
  (opt Options.usePlatformWww options = true →
   vacant W2 D2 t ∧ ¬ W1 `prefix_of` W2 ∧ ¬ W2 `prefix_of` W1).

(** The check of [vacant] on a tree. *)
Definition vacantb (W D : list string) (t : Fs.tree) : bool :=
  wfb t
  && bool_decide (W `prefix_of` D) && negb (bool_decide (D = W))
  && bool_decide (Fs.node_at t W = Some Fs.Dir)
  && bool_decide (t !! D = None)
  && forallb (λ j, match t !! take j D with
                   | Some _ => negb (bool_decide (Fs.children t (take j D) = []))
                   | None => true
                   end)
             (seq (S (length W)) (length D - S (length W))).

(** A computation whose errors are all errors of the system calls. *)
Definition system_errors {A} (m : M A) : Prop :=
  ∀ w w' e, m w = (w', Err e) → ∃ code, e = SystemError code.

(** A plugin with a Java source and a project without [app]. *)
Module Sources.

Definition files : Fs.tree :=
  list_to_map
    [ (["plug"], Fs.Dir);
      (["plug"; "src"], Fs.Dir);
      (["plug"; "src"; "android"], Fs.Dir);
      (["plug"; "src"; "android"; "Foo.java"], Fs.File "class Foo {}");
      (["proj"], Fs.Dir);
      (["proj"; "build.gradle"], Fs.File "B") ].

Definition world0 : world := World files [].

(** The same with a library project in the plugin. *)
Definition with_lib : Fs.tree :=
  <[["plug"; "lib"; "build.gradle"] := Fs.File "G"]> (<[["plug"; "lib"] := Fs.Dir]> files).

Definition directive : Obj.t :=
  Obj.Make (Some "src/android/Foo.java") None (Some "src/org/foo") None None false None.

End Sources.

(** The names [handlers] has an entry for. *)
Definition kinds : list string :=
  ["source-file"; "lib-file"; "resource-file"; "framework"; "asset"; "js-module"].

(** A project where the Java source was installed before. *)
Module Installed.

Definition files : Fs.tree :=
  <[["proj"; "app"; "src"; "main"; "java"; "org"; "foo"; "Foo.java"] := Fs.File "old"]>
    (<[["proj"; "app"; "src"; "main"; "java"; "org"; "foo"] := Fs.Dir]>
       (<[["proj"; "app"; "src"; "main"; "java"; "org"] := Fs.Dir]>
          (<[["proj"; "app"; "src"; "main"; "java"] := Fs.Dir]>
             (<[["proj"; "app"; "src"; "main"] := Fs.Dir]>
                (<[["proj"; "app"; "src"] := Fs.Dir]>
                   (<[["proj"; "app"] := Fs.Dir]> Sources.files)))))).

End Installed.

(** A computation that returns and leaves the tree as it is. *)
Definition keeps_tree (m : M unit) : Prop :=
  ∀ w, ∃ e, m w = (World (tree w) e, Ok tt).

(** A project whose operations on the build configuration leave the tree
    as it is. *)
Definition registers_only (project : Project.t) : Prop :=
  ∀ a b,
    keeps_tree (Project.addGradleReference project a b) ∧
    keeps_tree (Project.addSystemLibrary project a b) ∧
    keeps_tree (Project.addSubProject project a b) ∧
    keeps_tree (Project.removeGradleReference project a b) ∧
    keeps_tree (Project.removeSystemLibrary project a b) ∧
    keeps_tree (Project.removeSubProject project a b).

(** The example plugin with two files that start with a byte order mark:
    the bytes EF BB BF, then the text. *)
Module Marked.

Definition mark : string :=
  String (Ascii.ascii_of_nat 239) (String (Ascii.ascii_of_nat 187)
    (String (Ascii.ascii_of_nat 191) "")).

Definition files : Fs.tree :=
  <[["plug"; "data.json"] := Fs.File (mark +:+ "{}")]>
    (<[["plug"; "www"; "y.js"] := Fs.File (mark +:+ "y()")]> Example.files).

Definition world0 : world := World files [].

End Marked.

(** The tree without what is strictly below one of the directories
    [Ws]. *)
Definition outside (Ws : list (list string)) (t : Fs.tree) : Fs.tree :=
  filter (λ kn : list string * Fs.node, Forall (λ W, ¬ under W kn.1) Ws) t.

(** The path [dir] leads to the directory [W] of the tree: the walk of its
    names, links followed, ends at [W], and looks at nothing that is below
    one of [Ws]. *)
Definition leads (cwd : string) (Ws : list (list string)) (t : Fs.tree)
    (dir : string) (W : list string) : Prop :=
  Fs.locate cwd (outside Ws t) true dir = Fs.Found W Fs.Dir.

(** The names [L] lead to the directory [W] in every tree that has the
    entries of [b], and so do the names [W] themselves. *)
Record mount (b : Fs.tree) (L W : list string) : Prop := Mount {
  mount_walk : Fs.walk Fs.MAXSYMLINKS b true [] L = Fs.Found W Fs.Dir;
  mount_real : Fs.walk Fs.MAXSYMLINKS b true [] W = Fs.Found W Fs.Dir;
  mount_names : normal_list L;
  mount_real_names : normal_list W
}.



(** Trees with links on the way to the target of a removal. *)
Module Linked.

(** The directory [/tmp] is a link to [/private/tmp]. *)
Definition files : Fs.tree :=
  list_to_map
    [ (["private"], Fs.Dir);
      (["private"; "tmp"], Fs.Dir);
      (["private"; "tmp"; "keep.txt"], Fs.File "k");
      (["private"; "tmp"; "a"], Fs.Dir);
      (["private"; "tmp"; "a"; "b"], Fs.Dir);
      (["private"; "tmp"; "a"; "b"; "file.txt"], Fs.File "f");
      (["tmp"], Fs.Symlink "private/tmp") ].

Definition after : Fs.tree :=
  list_to_map
    [ (["private"], Fs.Dir);
      (["private"; "tmp"], Fs.Dir);
      (["private"; "tmp"; "keep.txt"], Fs.File "k");
      (["tmp"], Fs.Symlink "private/tmp") ].




End Linked.



(** A project where the directory [www] of the example plugin was copied
    to [www/www] and to [platform_www/www]. *)
Module Assets.

Definition files : Fs.tree :=
  <[["proj"; "platform_www"; "www"; "x.js"] := Fs.File "X"]>
    (<[["proj"; "platform_www"; "www"] := Fs.Dir]>
       (<[["proj"; "www"; "www"; "x.js"] := Fs.File "X"]>
          (<[["proj"; "www"; "www"] := Fs.Dir]> Example.files))).

End Assets.

(** What an install at [D] makes of a tree that is vacant there below
    [A]: the directories of the way are there, an entry is at [D], and
    nothing else changes outside [D]. *)
Record placed (A D : list string) (t t' : Fs.tree) : Prop := Placed {
  placed_wf : wf t';
  placed_more : t ⊆ t';
  placed_dest : is_Some (t' !! D);
  placed_midway : ∀ q, midway A D q → t' !! q = Some Fs.Dir;
  placed_other : ∀ q, ¬ D `prefix_of` q → ¬ midway A D q → t' !! q = t !! q
}.

(** The path [path] is clear for an install that a walk up to [stop]
    undoes.  Its names are names [L] that lead to the directory [W] of the
    tree, then the names [X]; nothing is at [W ++ X]; the first [j] names
    of [X] lead from [W] to a directory, through directories; no directory
    of the way from there to [W ++ X] is there and empty; and that
    directory is the one [stop] names, or it has an entry and [stop] names
    no directory of the way below it. *)
Definition clear (cwd : string) (Ws : list (list string)) (t : Fs.tree)
    (path stop : string) (W X : list string) : Prop :=
  ∃ L j, Fs.comps path = L ++ X ∧ leads cwd Ws t (Fs.render L) W ∧ j < length X ∧
    vacant (W ++ take j X) (W ++ X) t ∧
    (L ++ take j X = Fs.comps stop ∨
     (∃ x, is_Some (t !! (W ++ take j X ++ [x]))) ∧
     ∀ i, j < i < length X → L ++ take i X ≠ Fs.comps stop).





(** A project with the directories of an application, reached through a
    link: [/work] is a link to [/real/proj].  The plugin has a link to its
    directory [www]. *)
Module Built.

Definition files : Fs.tree :=
  list_to_map
    [ (["plug"], Fs.Dir);
      (["plug"; "a.jar"], Fs.File "JAR");
      (["plug"; "www"], Fs.Dir);
      (["plug"; "www"; "x.js"], Fs.File "X");
      (["plug"; "alias"], Fs.Symlink "www");
      (["work"], Fs.Symlink "/real/proj");
      (["real"], Fs.Dir);
      (["real"; "proj"], Fs.Dir);
      (["real"; "proj"; "www"], Fs.Dir);
      (["real"; "proj"; "app"], Fs.Dir);
      (["real"; "proj"; "app"; "libs"], Fs.Dir);
      (["real"; "proj"; "app"; "src"], Fs.Dir);
      (["real"; "proj"; "app"; "src"; "main"], Fs.Dir) ].

Definition world0 : world := World files [].

Definition project : Project.t :=
  Project.Make "/work" "/work/www" "/work/platform_www"
    (λ id src, id +:+ "/" +:+ Path.basename src)
    (λ _ _, mret tt) (λ _ _, mret tt) (λ _ _, mret tt)
    (λ _ _, mret tt) (λ _ _, mret tt) (λ _ _, mret tt).

End Built.

(** ** Refusals of [copyFile] and [copyNewFile] *)

(** C1: when the source exists and its real path is not inside the real
    path of the plugin directory, [copyFile] throws the error of a file
    outside the plugin directory and leaves the world as it was; where the
    unresolved source lies is not asked. *)
Theorem copyFile_outside_plugin (cwd plugin_dir src project_dir dest : string)
    (link : bool) (w : world) (real_path real_plugin_path : string) :
  Fs.existsSync cwd (tree w) (Path.resolve cwd [plugin_dir; src]) = true →
  Fs.realpathSync cwd (tree w) (Path.resolve cwd [plugin_dir; src]) = Ok real_path →
  Fs.realpathSync cwd (tree w) plugin_dir = Ok real_plugin_path →
  isPathInside cwd real_path real_plugin_path = false →
  copyFile cwd plugin_dir (Some src) project_dir dest link w
  = (w, Err (CordovaError
               ("File " +:+ dq +:+ Path.resolve cwd [plugin_dir; src] +:+ dq
                  +:+ " is located outside the plugin directory "
                  +:+ dq +:+ plugin_dir +:+ dq))).
Proof.
  intros Hex Hreal Hroot Hout. unfold copyFile. run.
  rewrite Hex. cbn [negb]. rewrite Hreal, Hroot, Hout. reflexivity.
Qed.

(** The source [link/passwd] lies in the plugin directory as a path and is
    the file [/etc/passwd]. *)
Lemma copyFile_outside_plugin_witness :
  isPathInside "/" (Path.resolve "/" ["/plug"; "link/passwd"]) "/plug" = true ∧
  copyFile "/" "/plug" (Some "link/passwd") "/proj" "app/passwd" false Example.world0
  = (Example.world0,
     Err (CordovaError
            ("File " +:+ dq +:+ "/plug/link/passwd" +:+ dq
               +:+ " is located outside the plugin directory "
               +:+ dq +:+ "/plug" +:+ dq))).
Proof.
  split; [reflexivity |].
  apply (copyFile_outside_plugin "/" "/plug" "link/passwd" "/proj" "app/passwd"
           false Example.world0 "/etc/passwd" "/plug"); reflexivity.
Defined.

(** The check [copyNewFile] starts with. *)
Lemma copyNewFile_refuses (cwd plugin_dir : string) (src : option string)
    (project_dir dest : string) (link : bool) (w : world) :
  Fs.existsSync cwd (tree w) (Path.resolve cwd [project_dir; dest]) = true →
  copyNewFile cwd plugin_dir src project_dir dest link w
  = (w, Err (CordovaError
               (dq +:+ Path.resolve cwd [project_dir; dest] +:+ dq
                  +:+ " already exists!"))).
Proof.
  intros Hex. unfold copyNewFile. run. rewrite Hex. reflexivity.
Qed.

(** C7: when the resolved destination exists, [copyNewFile] throws the
    error of a destination that already exists and leaves the world as it
    was: nothing comes before the check. *)
Theorem copyNewFile_exists (cwd plugin_dir : string) (src : option string)
    (project_dir dest : string) (link : bool) (w : world) :
  Fs.existsSync cwd (tree w) (Path.resolve cwd [project_dir; dest]) = true →
  copyNewFile cwd plugin_dir src project_dir dest link w
  = (w, Err (CordovaError
               (dq +:+ Path.resolve cwd [project_dir; dest] +:+ dq
                  +:+ " already exists!"))).
Proof. apply copyNewFile_refuses. Qed.

Lemma copyNewFile_exists_witness :
  copyNewFile "/" "/plug" (Some "a.jar") "/proj" "build.gradle" false Example.world0
  = (Example.world0,
     Err (CordovaError (dq +:+ "/proj/build.gradle" +:+ dq +:+ " already exists!"))).
Proof.
  apply (copyNewFile_exists "/" "/plug" (Some "a.jar") "/proj" "build.gradle"
           false Example.world0).
  reflexivity.
Defined.

(** ** Computations that throw no [CordovaError] *)



Lemma system_only_failure {A} (l : Fs.located) (e : string) :
  @Fs.failure A l ≠ Err (CordovaError e).
Proof. by destruct l. Qed.







(** ** Required attributes *)


(** C4: the handlers of [lib-file] and [resource-file] do not look for
    their attributes.  Without [src] the [lib-file] handler throws the
    [TypeError] of [path.basename], not the error of a required attribute;
    without [target], and with [target] but without [src], the
    [resource-file] handler throws the [TypeError] of [path.join] and of
    [path.resolve].  All three leave the world as it was, whatever it is. *)
Theorem lib_file_resource_file_missing_attribute (cwd : string)
    (target targetDir name parent type : option string) (custom : bool)
    (target' : string) (plugin : Plugin.t) (project : Project.t)
    (options : option Options.t) (w : world) :
  let type_error :=
    TypeError ("The " +:+ dq +:+ "path" +:+ dq
                 +:+ " argument must be of type string. Received undefined") in
  lib_file_install cwd (Obj.Make None target targetDir name parent custom type)
    plugin project options w = (w, Err type_error) ∧
  resource_file_install cwd (Obj.Make None None targetDir name parent custom type)
    plugin project options w = (w, Err type_error) ∧
  resource_file_install cwd (Obj.Make None (Some target') targetDir name parent custom type)
    plugin project options w = (w, Err type_error).
Proof. repeat split. Qed.

(** The handlers that look for their attributes: [source-file],
    [framework] and [asset] throw the error of the required attribute and
    leave the world as it was. *)
Lemma checked_missing_attribute (cwd : string) (obj : Obj.t)
    (plugin : Plugin.t) (project : Project.t) (options : option Options.t)
    (w : world) :
  (truthy (Obj.src obj) = false →
   source_file_install cwd obj plugin project options w
   = (w, Err (CordovaError (generateAttributeError "src" "source-file" (Plugin.id plugin)))) ∧
   framework_install cwd obj plugin project options w
   = (w, Err (CordovaError (generateAttributeError "src" "framework" (Plugin.id plugin)))) ∧
   asset_install cwd obj plugin project options w
   = (w, Err (CordovaError (generateAttributeError "src" "asset" (Plugin.id plugin))))) ∧
  (truthy (Obj.src obj) = true → truthy (Obj.targetDir obj) = false →
   source_file_install cwd obj plugin project options w
   = (w, Err (CordovaError (generateAttributeError "target-dir" "source-file" (Plugin.id plugin))))) ∧
  (truthy (Obj.src obj) = true → truthy (Obj.target obj) = false →
   asset_install cwd obj plugin project options w
   = (w, Err (CordovaError (generateAttributeError "target" "asset" (Plugin.id plugin))))).
Proof.
  unfold source_file_install, framework_install, asset_install.
  repeat split; intros; repeat match goal with H : truthy _ = _ |- _ => rewrite H; clear H end;
    reflexivity.
Qed.

(** ** The framework handler *)

(** C5: a custom framework whose subproject directory exists is not
    installed: [framework_install] throws the error of a destination that
    already exists after its message to the emitter, and leaves the tree as
    it was.  The options are not asked: [force] changes nothing. *)
Theorem framework_install_custom_exists (cwd : string) (obj : Obj.t)
    (plugin : Plugin.t) (project : Project.t) (options : option Options.t)
    (w : world) (src : string) :
  Obj.src obj = Some src → src ≠ "" → Obj.custom obj = true →
  let subRelativeDir :=
    Project.getCustomSubprojectRelativeDir project (Plugin.id plugin) src in
  let target_path := Path.resolve cwd [Project.projectDir project; subRelativeDir] in
  Fs.existsSync cwd (tree w) target_path = true →
  framework_install cwd obj plugin project options w
  = (World (tree w) (emitted w ++ [("verbose", "Installing Android library: " +:+ src)]),
     Err (CordovaError (dq +:+ target_path +:+ dq +:+ " already exists!"))).
Proof.
  intros Hs Hne Hc sub target_path Hex. unfold framework_install.
  rewrite Hs, Hc. cbn [truthy ToString negb].
  destruct src as [|c src]; [done |]. cbn [Str.is_empty negb].
  unfold mbind at 1, M_bind at 1. cbn [events_emit].
  unfold mbind at 1, M_bind at 1. unfold mbind at 1, M_bind at 1.
  rewrite copyNewFile_refuses; [reflexivity | exact Hex].
Qed.


Lemma framework_install_custom_exists_witness :
  framework_install "/" framework_custom Example.plugin Example.project None
    Example.world0
  = (World Example.files [("verbose", "Installing Android library: lib")],
     Err (CordovaError (dq +:+ "/proj/my.plugin/lib" +:+ dq +:+ " already exists!"))).
Proof.
  apply (framework_install_custom_exists "/" framework_custom Example.plugin
           Example.project None Example.world0 "lib");
    [reflexivity | discriminate | reflexivity | reflexivity].
Defined.

(** With [force] set and the subproject directory there, the install
    throws and the tree keeps the directory as it was: nothing is copied
    over it. *)
Lemma framework_install_force_refused :
  ∃ w',
    framework_install "/" framework_custom Example.plugin Example.project
      (Some (Options.Make true false false)) Example.world0
    = (w', Err (CordovaError (dq +:+ "/proj/my.plugin/lib" +:+ dq +:+ " already exists!")))
    ∧ tree w' = Example.files
    ∧ Fs.children (tree w') ["proj"; "my.plugin"; "lib"] = [].
Proof.
  exists (World Example.files [("verbose", "Installing Android library: lib")]).
  split; [reflexivity |]. split; reflexivity.
Qed.


(** ** Strings *)

Module StrFacts.

Lemma sapp_nil_l (s : string) : "" +:+ s = s.
Proof. reflexivity. Qed.

Lemma sapp_cons (c : Ascii.ascii) (s t : string) :
  String c s +:+ t = String c (s +:+ t).
Proof. reflexivity. Qed.

Lemma sapp_nil_r (s : string) : s +:+ "" = s.
Proof. induction s as [|c s IH]; [done |]. by rewrite sapp_cons, IH. Qed.

Lemma sapp_assoc (a b c : string) : (a +:+ b) +:+ c = a +:+ (b +:+ c).
Proof. induction a as [|x a IH]; [done |]. by rewrite !sapp_cons, IH. Qed.

Lemma length_sapp (a b : string) :
  String.length (a +:+ b) = String.length a + String.length b.
Proof.
  induction a as [|x a IH]; [done |]. rewrite sapp_cons. cbn. by rewrite IH.
Qed.

Lemma is_empty_true (s : string) : Str.is_empty s = true ↔ s = "".
Proof. by destruct s. Qed.

Lemma is_empty_false (s : string) : Str.is_empty s = false ↔ s ≠ "".
Proof. by destruct s. Qed.

Lemma is_slash_true (c : Ascii.ascii) : Str.is_slash c = true ↔ c = Str.slash.
Proof. apply Ascii.eqb_eq. Qed.

Lemma startsWith_app (pre r : string) : Str.startsWith pre (pre +:+ r) = true.
Proof.
  induction pre as [|c pre IH]; [done |].
  rewrite sapp_cons. cbn. by rewrite Ascii.eqb_refl, IH.
Qed.

Lemma startsWith_inv (pre s : string) :
  Str.startsWith pre s = true → s = pre +:+ Str.drop (String.length pre) s.
Proof.
  revert s. induction pre as [|c pre IH]; intros s; cbn; [done |].
  destruct s as [|d s]; [done |]. intros [Hc Hs]%andb_true_iff.
  apply Ascii.eqb_eq in Hc as ->. rewrite sapp_cons. by rewrite <-(IH s Hs).
Qed.

Lemma startsWith_trans (a b s : string) :
  Str.startsWith a b = true → Str.startsWith b s = true →
  Str.startsWith a s = true.
Proof.
  intros Hab Hbs. apply startsWith_inv in Hab, Hbs.
  rewrite Hbs, Hab, sapp_assoc. apply startsWith_app.
Qed.

Lemma drop_sapp (a b : string) : Str.drop (String.length a) (a +:+ b) = b.
Proof. induction a as [|c a IH]; [done |]. by rewrite sapp_cons. Qed.

Lemma endsWith_refl (s : string) : Str.endsWith s s = true.
Proof. destruct s; cbn [Str.endsWith]; by rewrite String.eqb_refl. Qed.

Lemma endsWith_app (a suf : string) : Str.endsWith suf (a +:+ suf) = true.
Proof.
  induction a as [|c a IH]; [apply endsWith_refl |].
  rewrite sapp_cons. cbn [Str.endsWith]. rewrite IH. apply orb_true_r.
Qed.

Lemma endsWith_inv (suf s : string) :
  Str.endsWith suf s = true → ∃ a, s = a +:+ suf.
Proof.
  induction s as [|c s IH]; cbn [Str.endsWith].
  - rewrite orb_false_r. intros ->%String.eqb_eq. by exists "".
  - intros [->%String.eqb_eq | H]%orb_true_iff; [by exists "" |].
    destruct (IH H) as [a ->]. by exists (String c a).
Qed.

Lemma endsWith_trans (a b s : string) :
  Str.endsWith a b = true → Str.endsWith b s = true → Str.endsWith a s = true.
Proof.
  intros [x ->]%endsWith_inv [y ->]%endsWith_inv.
  rewrite <-sapp_assoc. apply endsWith_app.
Qed.

(** *** [split] and [join] *)

Lemma split_not_nil (s : string) : Str.split s ≠ [].
Proof.
  induction s as [|c s IH]; cbn; [done |].
  destruct (Str.is_slash c); [done |]. by destruct (Str.split s).
Qed.

Lemma split_cons_slash (s : string) :
  Str.split (String Str.slash s) = "" :: Str.split s.
Proof. reflexivity. Qed.

Lemma split_no_slash (s : string) : Str.no_slash s = true → Str.split s = [s].
Proof.
  induction s as [|c s IH]; cbn; [done |].
  intros [Hc Hs]%andb_true_iff. apply negb_true_iff in Hc. rewrite Hc.
  by rewrite (IH Hs).
Qed.

Lemma split_elem_no_slash (s w : string) :
  w ∈ Str.split s → Str.no_slash w = true.
Proof.
  revert w. induction s as [|c s IH]; intros w; cbn.
  - by intros ->%list_elem_of_singleton.
  - destruct (Str.is_slash c) eqn:Ec.
    + intros [-> | H]%elem_of_cons; [done | by apply IH].
    + destruct (Str.split s) as [|v vs] eqn:Es.
      * intros ->%list_elem_of_singleton. cbn. by rewrite Ec.
      * intros [-> | H]%elem_of_cons.
        -- cbn. rewrite Ec. cbn. apply IH. left.
        -- apply IH. by right.
Qed.

(** A string with a separator in the middle splits in two. *)
Lemma split_app (a b : string) :
  Str.split (a +:+ "/" +:+ b) = Str.split a ++ Str.split b.
Proof.
  induction a as [|c a IH]; [reflexivity |].
  rewrite sapp_cons. cbn [Str.split]. rewrite IH.
  destruct (Str.is_slash c); [done |].
  pose proof (split_not_nil a). by destruct (Str.split a).
Qed.

(** Without the separator the last part of the first string and the
    first part of the second are one part. *)
Lemma split_app_no_slash (a b : string) :
  Str.no_slash b = true →
  Str.split (a +:+ b) = removelast (Str.split a) ++ [List.last (Str.split a) "" +:+ b].
Proof.
  intros Hb. induction a as [|c a IH].
  - cbn. by rewrite split_no_slash.
  - rewrite sapp_cons. cbn [Str.split]. rewrite IH.
    pose proof (split_not_nil a) as Hne.
    destruct (Str.is_slash c).
    + destruct (Str.split a) as [|v vs]; [done |]. reflexivity.
    + destruct (Str.split a) as [|v vs]; [done |].
      destruct vs as [|v' vs]; reflexivity.
Qed.

Lemma join_cons (w : string) (ws : list string) :
  ws ≠ [] → Str.join (w :: ws) = w +:+ "/" +:+ Str.join ws.
Proof. by destruct ws. Qed.

Lemma join_split (s : string) : Str.join (Str.split s) = s.
Proof.
  induction s as [|c s IH]; cbn; [done |].
  pose proof (split_not_nil s) as Hne.
  destruct (Str.is_slash c) eqn:Ec.
  - apply is_slash_true in Ec as ->. rewrite join_cons by done. by rewrite IH.
  - destruct (Str.split s) as [|v vs]; [done |].
    destruct vs as [|v' vs]; [cbn in *; by rewrite <-IH |].
    rewrite join_cons by done. rewrite join_cons in IH by done.
    by rewrite sapp_cons, IH.
Qed.

Lemma split_join (l : list string) :
  l ≠ [] → Forall (λ w, Str.no_slash w = true) l → Str.split (Str.join l) = l.
Proof.
  induction l as [|w l IH]; [done |]. intros _ Hl.
  apply Forall_cons in Hl as [Hw Hl].
  destruct l as [|v l]; [by apply split_no_slash |].
  rewrite join_cons by done. rewrite split_app, split_no_slash by done.
  by rewrite IH.
Qed.

Lemma join_app (l k : list string) :
  l ≠ [] → k ≠ [] → Str.join (l ++ k) = Str.join l +:+ "/" +:+ Str.join k.
Proof.
  intros Hl Hk. induction l as [|w l IH]; [done |].
  destruct l as [|v l].
  - cbn [app]. by rewrite join_cons.
  - cbn [app]. rewrite (join_cons w) by done.
    change (v :: l ++ k) with ((v :: l) ++ k). rewrite IH by done.
    rewrite (join_cons w) by done. by rewrite !sapp_assoc.
Qed.

Lemma join_snoc_endsWith (l : list string) (w : string) :
  Str.endsWith w (Str.join (l ++ [w])) = true.
Proof.
  destruct l as [|v l]; [apply endsWith_refl |].
  rewrite join_app by done. cbn [Str.join].
  rewrite <-sapp_assoc. apply endsWith_app.
Qed.

Lemma join_app_startsWith (l k : list string) :
  Str.startsWith (Str.join l) (Str.join (l ++ k)) = true.
Proof.
  destruct k as [|v k].
  { rewrite (right_id_L [] app). rewrite <-(sapp_nil_r (Str.join l)) at 2.
    apply startsWith_app. }
  destruct l as [|w l]; [done |].
  rewrite join_app by done. apply startsWith_app.
Qed.

End StrFacts.


(** ** Paths *)

Module PathFacts.
Import StrFacts.


Lemma normal_seg_inv (s : string) :
  Path.normal_seg s = true →
  s ≠ "" ∧ s ≠ "." ∧ s ≠ ".." ∧ Str.no_slash s = true.
Proof.
  unfold Path.normal_seg. rewrite !andb_true_iff, !negb_true_iff.
  rewrite !String.eqb_neq. tauto.
Qed.

Lemma normal_seg_intro (s : string) :
  s ≠ "" → s ≠ "." → s ≠ ".." → Str.no_slash s = true →
  Path.normal_seg s = true.
Proof.
  intros. unfold Path.normal_seg. rewrite !andb_true_iff, !negb_true_iff.
  rewrite !String.eqb_neq. tauto.
Qed.

Lemma normal_list_no_slash (l : list string) :
  normal_list l → Forall (λ w, Str.no_slash w = true) l.
Proof.
  intros H. eapply Forall_impl; [exact H |].
  intros s Hs. apply normal_seg_inv in Hs. tauto.
Qed.

Lemma norm_step_normal (a : bool) (st : list string) (s : string) :
  Path.normal_seg s = true → Path.norm_step a st s = s :: st.
Proof.
  intros (H1 & H2 & H3 & _)%normal_seg_inv. unfold Path.norm_step.
  apply String.eqb_neq in H1, H2, H3. by rewrite H1, H2, H3.
Qed.

Lemma norm_step_skip (a : bool) (st : list string) (s : string) :
  s = "" ∨ s = "." → Path.norm_step a st s = st.
Proof. by intros [-> | ->]. Qed.

Lemma norm_step_up (st : list string) :
  normal_list st → Path.norm_step false st ".." = tail st.
Proof.
  intros Hst. unfold Path.norm_step. cbn.
  destruct st as [|top rest]; [done |].
  apply Forall_cons in Hst as [(_ & _ & H3 & _)%normal_seg_inv _].
  apply String.eqb_neq in H3. by rewrite H3.
Qed.

Lemma fold_norm_normal (a : bool) (l st : list string) :
  normal_list l → fold_left (Path.norm_step a) l st = rev l ++ st.
Proof.
  revert st. induction l as [|s l IH]; intros st Hl; [done |].
  apply Forall_cons in Hl as [Hs Hl]. cbn [fold_left rev].
  rewrite norm_step_normal, IH by done. by rewrite <-List.app_assoc.
Qed.

Lemma norm_segs_normal (a : bool) (l : list string) :
  normal_list l → Path.norm_segs a l = l.
Proof.
  intros Hl. unfold Path.norm_segs. rewrite fold_norm_normal by done.
  by rewrite (right_id_L [] app), rev_involutive.
Qed.


Lemma fold_norm_no_up (a : bool) (l st : list string) :
  ".." ∉ l → fold_left (Path.norm_step a) l st = rev (kept l) ++ st.
Proof.
  revert st. induction l as [|s l IH]; intros st Hl; [done |].
  apply not_elem_of_cons in Hl as [Hs Hl]. cbn [fold_left].
  rewrite IH by done. unfold kept. rewrite filter_cons.
  unfold Path.norm_step.
  destruct (String.eqb_spec s "") as [-> | H1]; cbn [orb].
  { rewrite decide_False by tauto. done. }
  destruct (String.eqb_spec s ".") as [-> | H2].
  { rewrite decide_False by tauto. done. }
  destruct (String.eqb_spec s "..") as [-> | H3]; [done |].
  rewrite decide_True by done. cbn [rev]. by rewrite <-List.app_assoc.
Qed.

Lemma fold_norm_false_normal (l st : list string) :
  Forall (λ w, Str.no_slash w = true) l → normal_list st →
  normal_list (fold_left (Path.norm_step false) l st).
Proof.
  revert st. induction l as [|s l IH]; intros st Hl Hst; [done |].
  apply Forall_cons in Hl as [Hs Hl]. cbn [fold_left]. apply IH; [done |].
  unfold Path.norm_step.
  destruct (String.eqb_spec s "") as [-> | H1]; [done |]. cbn [orb].
  destruct (String.eqb_spec s ".") as [-> | H2]; [done |].
  destruct (String.eqb_spec s "..") as [-> | H3].
  - destruct st as [|top rest]; [done |].
    apply Forall_cons in Hst as [Ht Hr].
    destruct (String.eqb top ".."); [by apply Forall_cons | done].
  - apply Forall_cons. split; [by apply normal_seg_intro | done].
Qed.

Lemma norm_segs_false_normal (l : list string) :
  Forall (λ w, Str.no_slash w = true) l → normal_list (Path.norm_segs false l).
Proof.
  intros Hl. unfold Path.norm_segs. apply List.Forall_rev.
  apply fold_norm_false_normal; [done | constructor].
Qed.

(** *** [path.resolve] gives a rendered list of names *)

Lemma resolve_loop_absolute (cwd : string) (rargs : list string) (acc : string) :
  Path.isAbsolute cwd = true → (Path.resolve_loop cwd rargs acc).2 = true.
Proof.
  intros Hcwd. revert acc.
  induction rargs as [|p rest IH]; intros acc; cbn [Path.resolve_loop].
  - destruct (Str.is_empty cwd) eqn:E; [| exact Hcwd].
    apply is_empty_true in E. by subst.
  - destruct (Str.is_empty p); [apply IH |].
    destruct (Path.isAbsolute p); [done | apply IH].
Qed.


Lemma resolved_normal (cwd : string) (args : list string) :
  normal_list (resolved cwd args).
Proof.
  apply norm_segs_false_normal. apply Forall_forall.
  intros w Hw. by eapply split_elem_no_slash.
Qed.

Lemma resolve_render (cwd : string) (args : list string) :
  Path.isAbsolute cwd = true →
  Path.resolve cwd args = Fs.render (resolved cwd args).
Proof.
  intros Hcwd. unfold Path.resolve, resolved.
  pose proof (resolve_loop_absolute cwd (rev args) "" Hcwd) as Habs.
  destruct (Path.resolve_loop cwd (rev args) "") as [P a]. cbn in Habs.
  subst a. reflexivity.
Qed.

(** *** Rendered lists of names *)

Lemma split_render (l : list string) :
  normal_list l → Str.split (Fs.render l) = "" :: (if l is [] then [""] else l).
Proof.
  intros Hl. unfold Fs.render. change "/" with (String Str.slash "").
  rewrite sapp_cons, sapp_nil_l, split_cons_slash. f_equal.
  destruct l as [|w l]; [done |].
  apply split_join; [done | by apply normal_list_no_slash].
Qed.

Lemma kept_normal (l : list string) : normal_list l → kept l = l.
Proof.
  intros Hl. unfold kept. induction Hl as [|w l Hw Hl IH]; [done |].
  rewrite filter_cons, decide_True, IH; [done |].
  apply normal_seg_inv in Hw. tauto.
Qed.

Lemma comps_render (l : list string) : normal_list l → Fs.comps (Fs.render l) = l.
Proof.
  intros Hl. unfold Fs.comps. rewrite split_render by done.
  rewrite filter_cons, decide_False by tauto.
  destruct l as [|w l]; [done |]. by apply kept_normal.
Qed.

Lemma segments_render (l : list string) :
  normal_list l → Path.segments (Fs.render l) = l.
Proof.
  intros Hl. unfold Path.segments. rewrite split_render by done.
  rewrite filter_cons, decide_False by tauto.
  destruct l as [|w l]; [done |].
  induction Hl as [|v k Hv Hk IH]; [done |].
  rewrite filter_cons, decide_True, IH; [done |].
  apply normal_seg_inv in Hv. tauto.
Qed.

Lemma render_inj (l k : list string) :
  normal_list l → normal_list k → Fs.render l = Fs.render k → l = k.
Proof.
  intros Hl Hk E. rewrite <-(comps_render l), <-(comps_render k) by done.
  by rewrite E.
Qed.

Lemma render_absolute (l : list string) : Path.isAbsolute (Fs.render l) = true.
Proof. reflexivity. Qed.

(** *** [path.resolve] argument by argument *)

Lemma resolve_loop_acc (cwd : string) (rargs : list string) (acc : string) :
  Path.resolve_loop cwd rargs acc
  = ((Path.resolve_loop cwd rargs "").1 +:+ acc, (Path.resolve_loop cwd rargs "").2).
Proof.
  revert acc. induction rargs as [|p rest IH]; intros acc; cbn [Path.resolve_loop].
  - destruct (Str.is_empty cwd); cbn [fst snd]; [done |].
    by rewrite sapp_nil_r, !sapp_assoc.
  - destruct (Str.is_empty p); [apply IH |].
    destruct (Path.isAbsolute p); cbn [fst snd].
    + by rewrite sapp_nil_r, !sapp_assoc.
    + rewrite IH. rewrite (IH (p +:+ "/" +:+ "")). cbn [fst snd].
      by rewrite sapp_nil_r, !sapp_assoc.
Qed.

(** What [path.resolve] has gathered is empty or ends with a separator. *)
Lemma resolve_loop_shape (cwd : string) (rargs : list string) :
  (Path.resolve_loop cwd rargs "").1 = "" ∨
  ∃ X, (Path.resolve_loop cwd rargs "").1 = X +:+ "/".
Proof.
  induction rargs as [|p rest IH]; cbn [Path.resolve_loop].
  - destruct (Str.is_empty cwd); cbn [fst]; [by left | right].
    exists cwd. by rewrite sapp_nil_r.
  - destruct (Str.is_empty p); [done |].
    destruct (Path.isAbsolute p); cbn [fst].
    + right. exists p. by rewrite sapp_nil_r.
    + right. rewrite resolve_loop_acc. cbn [fst].
      exists ((Path.resolve_loop cwd rest "").1 +:+ p).
      by rewrite sapp_nil_r, sapp_assoc.
Qed.

Lemma fold_norm_app (a : bool) (l k st : list string) :
  fold_left (Path.norm_step a) (l ++ k) st
  = fold_left (Path.norm_step a) k (fold_left (Path.norm_step a) l st).
Proof. apply fold_left_app. Qed.

(** The state of the normalisation after the names gathered. *)
Lemma fold_gathered (cwd : string) (rargs : list string) (rest : string) :
  fold_left (Path.norm_step false)
    (Str.split ((Path.resolve_loop cwd rargs "").1 +:+ rest)) []
  = fold_left (Path.norm_step false) (Str.split rest)
      (fold_left (Path.norm_step false)
         (Str.split (Path.resolve_loop cwd rargs "").1) []).
Proof.
  destruct (resolve_loop_shape cwd rargs) as [-> | [X ->]]; [done |].
  assert (Str.split (X +:+ "/") = Str.split X ++ [""]) as E
    by apply (split_app X "").
  rewrite sapp_assoc, split_app, fold_norm_app, E, fold_norm_app. reflexivity.
Qed.


Lemma resolved_snoc_relative (cwd : string) (args : list string) (b : string) :
  b ≠ "" → Path.isAbsolute b = false →
  resolved cwd (args ++ [b])
  = rev (fold_left (Path.norm_step false) (Str.split b) (rev (resolved cwd args))).
Proof.
  intros Hb Hrel. unfold resolved, Path.norm_segs. rewrite rev_unit.
  cbn [Path.resolve_loop]. apply is_empty_false in Hb. rewrite Hb, Hrel.
  rewrite resolve_loop_acc. cbn [fst]. rewrite fold_gathered.
  rewrite rev_involutive. f_equal.
  rewrite <-sapp_assoc, sapp_nil_r.
  change (b +:+ "/") with (b +:+ "/" +:+ ""). by rewrite split_app, fold_norm_app.
Qed.

Lemma resolved_snoc_absolute (cwd : string) (args : list string) (b : string) :
  Path.isAbsolute b = true →
  resolved cwd (args ++ [b]) = Path.norm_segs false (Str.split b).
Proof.
  intros Habs. unfold resolved, Path.norm_segs. rewrite rev_unit.
  cbn [Path.resolve_loop]. rewrite Habs.
  assert (Str.is_empty b = false) as -> by by destruct b.
  cbn [fst]. rewrite sapp_nil_r.
  change (b +:+ "/") with (b +:+ "/" +:+ ""). by rewrite split_app, fold_norm_app.
Qed.

Lemma resolved_render (cwd : string) (l : list string) :
  normal_list l → resolved cwd [Fs.render l] = l.
Proof.
  intros Hl. change [Fs.render l] with ([] ++ [Fs.render l]).
  rewrite resolved_snoc_absolute by done.
  rewrite split_render by done. unfold Path.norm_segs. cbn [fold_left].
  rewrite norm_step_skip by tauto.
  destruct l as [|w l]; [done |].
  rewrite fold_norm_normal by done. by rewrite (right_id_L [] app), rev_involutive.
Qed.

Lemma resolved_render_snoc (cwd : string) (l : list string) (b : string) :
  normal_list l → b ≠ "" → Path.isAbsolute b = false →
  resolved cwd [Fs.render l; b]
  = rev (fold_left (Path.norm_step false) (Str.split b) (rev l)).
Proof.
  intros Hl Hb Hrel. change [Fs.render l; b] with ([Fs.render l] ++ [b]).
  rewrite resolved_snoc_relative by done.
  by rewrite resolved_render.
Qed.

(** [path.resolve(dir, '..')] of a rendered list is the list without its
    last name. *)
Lemma resolved_up (cwd : string) (l : list string) :
  normal_list l → resolved cwd [Fs.render l; ".."] = Fs.parent l.
Proof.
  intros Hl. rewrite resolved_render_snoc by done.
  change (Str.split "..") with [".."]. cbn [fold_left]. rewrite norm_step_up by by apply List.Forall_rev.
  unfold Fs.parent. destruct l as [|w l _] using rev_ind; [done |].
  rewrite rev_unit. cbn [tail]. rewrite rev_involutive, length_app. cbn.
  rewrite Nat.add_sub, take_app_length. done.
Qed.

(** [path.resolve(dir, '.')] is [path.resolve(dir)]. *)
Lemma resolved_here (cwd : string) (args : list string) :
  resolved cwd (args ++ ["."]) = resolved cwd args.
Proof.
  rewrite resolved_snoc_relative by done. change (Str.split ".") with ["."].
  cbn [fold_left]. rewrite norm_step_skip by tauto. apply rev_involutive.
Qed.

(** *** [path.dirname] of a rendered list *)

Lemma drop_empty_normal (l : list string) (w : string) :
  Path.normal_seg w = true → Path.drop_empty (w :: l) = w :: l.
Proof. intros (H & _)%normal_seg_inv. cbn. by destruct w. Qed.

Lemma dirname_render (l : list string) :
  normal_list l → Path.dirname (Fs.render l) = Fs.render (Fs.parent l).
Proof.
  intros Hl. unfold Path.dirname.
  change (Str.is_empty (Fs.render l)) with false. cbn match.
  change (Str.drop 1 (Fs.render l)) with (Str.join l).
  change (Str.take 1 (Fs.render l)) with "/".
  destruct l as [|w l _] using rev_ind; [done |].
  assert (l ++ [w] ≠ []) as Hne by (intros E; by apply app_eq_nil in E as [_ ?]).
  rewrite split_join by (done || by apply normal_list_no_slash).
  apply Forall_app in Hl as [Hl Hw]. apply Forall_cons in Hw as [Hw _].
  unfold Path.strip_trailing. rewrite rev_unit, drop_empty_normal by done.
  cbn [rev]. rewrite rev_involutive, rev_unit.
  unfold Fs.parent. rewrite length_app. cbn [length].
  rewrite Nat.add_sub, take_app_length.
  destruct l as [|v l _] using rev_ind; [done |].
  rewrite rev_unit. rewrite render_absolute.
  apply Forall_app in Hl as [Hl Hv]. apply Forall_cons in Hv as [Hv _].
  rewrite bool_decide_eq_false_2.
  - cbn [andb]. cbn [rev]. by rewrite rev_involutive.
  - intros [= -> _]. done.
Qed.

End PathFacts.


Module JoinFacts.
Import StrFacts PathFacts.

Lemma last_split_app (a b : string) :
  List.last (Str.split (a +:+ "/" +:+ b)) "" = List.last (Str.split b) "".
Proof.
  rewrite split_app. pose proof (split_not_nil b).
  destruct (Str.split b) as [|w l] using rev_ind; [done |].
  by rewrite List.app_assoc, !List.last_last.
Qed.

Lemma trailingSeparator_last (s : string) :
  Path.trailingSeparator s = true → List.last (Str.split s) "" = "".
Proof.
  intros [a ->]%endsWith_inv. change (a +:+ "/") with (a +:+ "/" +:+ "").
  by rewrite last_split_app.
Qed.

Lemma isAbsolute_split (s : string) :
  Path.isAbsolute s = true → ∃ l, Str.split s = "" :: l.
Proof.
  intros H%startsWith_inv. rewrite H. change "/" with (String Str.slash "").
  rewrite sapp_cons, sapp_nil_l, split_cons_slash. eauto.
Qed.

(** [path.normalize] of a relative path in terms of its names. *)
Lemma normalize_relative (s : string) :
  s ≠ "" → Path.isAbsolute s = false →
  Path.normalize s
  = let p := Str.join (Path.norm_segs true (Str.split s)) in
    if Str.is_empty p then (if Path.trailingSeparator s then "./" else ".")
    else if Path.trailingSeparator s then p +:+ "/" else p.
Proof.
  intros Hs Hrel. unfold Path.normalize, Path.normalizeString.
  apply is_empty_false in Hs. by rewrite Hs, Hrel.
Qed.

(** Joining a directory of normal names and a normal name puts a
    separator between them. *)
Lemma join_normal (d b : string) :
  normal_list (Str.split d) → Path.normal_seg b = true →
  Path.join [d; b] = d +:+ "/" +:+ b.
Proof.
  intros Hd Hb. pose proof (normal_seg_inv _ Hb) as (Hb1 & _ & _ & Hb4).
  assert (d ≠ "") as Hd1.
  { intros ->. apply Forall_cons in Hd as [Hw _]. by vm_compute in Hw. }
  assert (Path.isAbsolute d = false) as Hrel.
  { destruct (Path.isAbsolute d) eqn:E; [| done].
    apply isAbsolute_split in E as [l E]. rewrite E in Hd.
    apply Forall_cons in Hd as [Hw _]. by vm_compute in Hw. }
  unfold Path.join. rewrite !filter_cons, filter_nil.
  rewrite !decide_True by by apply is_empty_false.
  rewrite join_cons by done. cbn [Str.join].
  assert (Str.split (d +:+ "/" +:+ b) = Str.split d ++ [b]) as Es.
  { by rewrite split_app, (split_no_slash b). }
  rewrite normalize_relative.
  - cbn zeta. rewrite Es, norm_segs_normal.
    + rewrite join_app, join_split by (done || apply split_not_nil).
      cbn [Str.join].
      assert (Path.trailingSeparator (d +:+ "/" +:+ b) = false) as ->.
      { destruct (Path.trailingSeparator _) eqn:E; [| done].
        apply trailingSeparator_last in E.
        rewrite last_split_app, split_no_slash in E by done. done. }
      destruct d; [done |]. done.
    + apply Forall_app. split; [done |]. by apply Forall_singleton.
  - by destruct d.
  - destruct d as [|c d]; [done |]. rewrite sapp_cons.
    destruct (Path.isAbsolute (String c d)) eqn:E; [done |]. exact E.
Qed.

End JoinFacts.

(** ** The destination of a source file *)

Lemma RegExp_test_iff (lit s : string) :
  RegExp.test lit (Some s) = true ↔ s = lit ∨ Str.startsWith (lit +:+ "/") s = true.
Proof.
  unfold RegExp.test, RegExp.exec. cbn [ToString].
  destruct (Str.startsWith (lit +:+ "/") s) eqn:E.
  - rewrite bool_decide_eq_true. split; [by right | by eexists].
  - destruct (String.eqb_spec s lit) as [-> | Hne].
    + rewrite bool_decide_eq_true. split; [by left | by eexists].
    + split.
      * intros [x [=]]%bool_decide_eq_true.
      * by intros [? | ?].
Qed.

(** C8: for a target directory that is [app] or starts with [app/], the
    destination is [path.join(targetDir, path.basename(src))], whatever the
    extension of [src]; when the target directory is made of plain names
    and the base name is a plain name, that is [targetDir], a separator and
    the base name. *)
Theorem getInstallDestination_app (obj : Obj.t) (targetDir src : string) :
  Obj.targetDir obj = Some targetDir → Obj.src obj = Some src →
  targetDir = "app" ∨ Str.startsWith "app/" targetDir = true →
  getInstallDestination obj = Ok (Path.join [targetDir; Path.basename src]) ∧
  (normal_list (Str.split targetDir) →
   Path.normal_seg (Path.basename src) = true →
   getInstallDestination obj = Ok (targetDir +:+ "/" +:+ Path.basename src)).
Proof.
  intros Ht Hs Happ.
  assert (getInstallDestination obj = Ok (Path.join [targetDir; Path.basename src])) as E.
  { unfold getInstallDestination. rewrite Ht, Hs.
    apply (RegExp_test_iff "app") in Happ. by rewrite Happ. }
  split; [exact E |]. intros Hd Hb. rewrite E. f_equal.
  by apply JoinFacts.join_normal.
Qed.

Lemma getInstallDestination_app_witness :
  getInstallDestination
    (Example.attrs (Some "src/android/Foo.java") None (Some "app/src/main/java/org/foo"))
  = Ok ("app/src/main/java/org/foo" +:+ "/" +:+ Path.basename "src/android/Foo.java").
Proof.
  refine (proj2 (getInstallDestination_app
           (Example.attrs (Some "src/android/Foo.java") None (Some "app/src/main/java/org/foo"))
           "app/src/main/java/org/foo" "src/android/Foo.java"
           eq_refl eq_refl (or_intror eq_refl)) _ _).
  - vm_compute. repeat constructor.
  - vm_compute. reflexivity.
Defined.


Module LegacyFacts.
Import StrFacts PathFacts JoinFacts.

Lemma split_join_concat (l : list string) :
  l ≠ [] → Str.split (Str.join l) = concat (Str.split <$> l).
Proof.
  induction l as [|w l IH]; [done |]. intros _.
  destruct l as [|v l].
  - cbn. by rewrite (right_id_L [] app).
  - rewrite join_cons by done. rewrite split_app, IH by done. reflexivity.
Qed.

Lemma kept_app (l k : list string) : kept (l ++ k) = kept l ++ kept k.
Proof. apply filter_app. Qed.

Lemma startsWith_app_r (pre s r : string) :
  Str.startsWith pre s = true → Str.startsWith pre (s +:+ r) = true.
Proof.
  intros H%startsWith_inv. rewrite H, sapp_assoc. apply startsWith_app.
Qed.

(** The path joined starts with the names the arguments start with, when
    no ['..'] comes after them. *)
Lemma join_startsWith (args pre rest : list string) :
  concat (Str.split <$> filter (λ a, Str.is_empty a = false) args) = pre ++ rest →
  pre ≠ [] → normal_list pre → ".." ∉ rest →
  Str.startsWith (Str.join pre) (Path.join args) = true.
Proof.
  intros Hsplit Hpre Hnormal Hup. unfold Path.join.
  destruct (filter _ args) as [|a parts] eqn:Eparts.
  { cbn in Hsplit. symmetry in Hsplit. by apply app_eq_nil in Hsplit as [? _]. }
  rewrite <-split_join_concat in Hsplit by done.
  set (s := Str.join (a :: parts)) in *.
  assert (Path.isAbsolute s = false) as Hrel.
  { destruct (Path.isAbsolute s) eqn:E; [| done].
    apply isAbsolute_split in E as [l E]. rewrite E in Hsplit.
    destruct pre as [|w pre]; [done |]. injection Hsplit as <- _.
    apply Forall_cons in Hnormal as [Hw _]. by vm_compute in Hw. }
  assert (s ≠ "") as Hs.
  { intros E. rewrite E in Hsplit. destruct pre as [|w pre]; [done |].
    injection Hsplit as <- _. apply Forall_cons in Hnormal as [Hw _]. by vm_compute in Hw. }
  rewrite normalize_relative by done. cbn zeta.
  unfold Path.norm_segs. rewrite Hsplit, fold_norm_app.
  rewrite (fold_norm_normal true pre) by done.
  rewrite fold_norm_no_up by done.
  rewrite (right_id_L [] app), rev_app_distr, !rev_involutive.
  pose proof (join_app_startsWith pre (kept rest)) as Hstart.
  destruct (Str.is_empty (Str.join (pre ++ kept rest))) eqn:Ee.
  - apply is_empty_true in Ee. rewrite Ee in Hstart.
    destruct (Str.join pre) eqn:Ej; [| done].
    destruct pre as [|w pre]; [done |].
    apply Forall_cons in Hnormal as [Hw _]. apply normal_seg_inv in Hw.
    destruct pre; cbn in Ej; [by subst |]. by destruct w.
  - destruct (Path.trailingSeparator s); [by apply startsWith_app_r | done].
Qed.

(** *** The regular expressions *)

Lemma exec_split (lit s r : string) :
  RegExp.exec lit s = Some r →
  s = lit ∧ r = "" ∨ Str.split s = Str.split lit ++ Str.split r.
Proof.
  unfold RegExp.exec. destruct (Str.startsWith (lit +:+ "/") s) eqn:E.
  - intros [= <-]. right. apply startsWith_inv in E.
    rewrite length_sapp in E. cbn [String.length] in E.
    rewrite E at 1. by rewrite sapp_assoc, split_app.
  - destruct (String.eqb_spec s lit) as [-> | ?]; [| done].
    intros [= <-]. by left.
Qed.

Lemma replace_empty_no_up (lit s : string) :
  ".." ∉ Str.split s → ".." ∉ Str.split (RegExp.replace_empty lit s).
Proof.
  intros Hs. unfold RegExp.replace_empty.
  destruct (RegExp.exec lit s) as [r |] eqn:E; [| done]. cbn [default].
  apply exec_split in E as [[_ ->] | E].
  - cbn. by intros [=]%list_elem_of_singleton.
  - rewrite E in Hs. intros H. apply Hs. apply elem_of_app. by right.
Qed.

(** *** The base name *)

Lemma drop_empty_elem (l : list string) (w : string) :
  w ∈ Path.drop_empty l → w ∈ l.
Proof.
  induction l as [|v l IH]; [done |]. cbn.
  destruct (Str.is_empty v); [| done]. intros H. right. by apply IH.
Qed.

Lemma basename_cases (s : string) :
  Path.basename s = "" ∨ Path.basename s ∈ Str.split s.
Proof.
  unfold Path.basename, Path.strip_trailing. rewrite rev_involutive.
  destruct (Path.drop_empty (rev (Str.split s))) as [|w l] eqn:E; [by left |].
  right. apply list_elem_of_In, in_rev, list_elem_of_In.
  apply drop_empty_elem. rewrite E. left.
Qed.

Lemma basename_no_slash (s : string) : Str.no_slash (Path.basename s) = true.
Proof.
  destruct (basename_cases s) as [-> | H]; [done |].
  by eapply split_elem_no_slash.
Qed.

End LegacyFacts.


Module LegacyJoin.
Import StrFacts PathFacts JoinFacts LegacyFacts.

Lemma concat_split_cons (x : string) (args : list string) :
  x ≠ "" →
  concat (Str.split <$> filter (λ a, Str.is_empty a = false) (x :: args))
  = Str.split x ++ concat (Str.split <$> filter (λ a, Str.is_empty a = false) args).
Proof.
  intros Hx. rewrite filter_cons, decide_True by by apply is_empty_false.
  reflexivity.
Qed.

Lemma no_up_concat (args : list string) :
  Forall (λ a, ".." ∉ Str.split a) args →
  ".." ∉ concat (Str.split <$> filter (λ a, Str.is_empty a = false) args).
Proof.
  induction 1 as [|a args Ha Hargs IH]; [by intros ?%elem_of_nil |].
  rewrite filter_cons. destruct (decide _); [| done].
  cbn. rewrite elem_of_app. tauto.
Qed.

Lemma basename_no_up (src : string) :
  Path.basename src ≠ ".." → ".." ∉ Str.split (Path.basename src).
Proof.
  intros Hb. rewrite split_no_slash by apply basename_no_slash.
  intros H%list_elem_of_singleton. congruence.
Qed.

(** The names of a target directory one of the regular expressions
    matches. *)
Lemma test_split (lit d : string) :
  RegExp.test lit (Some d) = true → ".." ∉ Str.split d →
  ∃ rest, Str.split d = Str.split lit ++ rest ∧ ".." ∉ rest.
Proof.
  intros [r Hr]%bool_decide_eq_true Hup. cbn [ToString] in Hr.
  apply exec_split in Hr as [[-> ->] | E].
  - exists []. rewrite (right_id_L [] app). split; [done | by intros ?%elem_of_nil].
  - exists (Str.split r). split; [done |]. rewrite E in Hup.
    intros H. apply Hup. apply elem_of_app. by right.
Qed.

Lemma test_not_empty (lit d : string) :
  lit ≠ "" → RegExp.test lit (Some d) = true → d ≠ "".
Proof.
  intros Hlit [-> | H]%RegExp_test_iff; [done |]. intros ->.
  by destruct lit.
Qed.

End LegacyJoin.


(** C3, amended: for a legacy target directory without a ['..'] name and a
    source whose base name is not ['..'], the destination starts with
    [app/src/main], except for the directives of [legacy_libs], whose
    destination is [path.join('app', targetDir, path.basename(src))] and
    starts with [app/libs]. *)
Theorem getInstallDestination_legacy (obj : Obj.t) (targetDir src : string) :
  Obj.targetDir obj = Some targetDir → Obj.src obj = Some src →
  targetDir ≠ "app" → Str.startsWith "app/" targetDir = false →
  ".." ∉ Str.split targetDir → Path.basename src ≠ ".." →
  ∃ dest,
    getInstallDestination obj = Ok dest ∧
    if legacy_libs src targetDir
    then dest = Path.join ["app"; targetDir; Path.basename src] ∧
         Str.startsWith "app/libs" dest = true
    else Str.startsWith "app/src/main" dest = true.
Proof.
  intros Ht Hs Happ1 Happ2 Hup Hbase.
  assert (RegExp.test "app" (Some targetDir) = false) as Happ.
  { apply not_true_is_false. intros [? | H]%RegExp_test_iff; [done |].
    change ("app" +:+ "/") with "app/" in H. congruence. }
  pose proof (LegacyJoin.basename_no_up src Hbase) as Hb.
  pose proof (LegacyFacts.replace_empty_no_up "src" targetDir Hup) as Hsrc.
  pose proof (LegacyFacts.replace_empty_no_up "libs" targetDir Hup) as Hlibs.
  assert (normal_list ["app"; "src"; "main"]) as Hmain
    by (repeat constructor).
  assert ((".." ∉ Str.split "java") ∧ (".." ∉ Str.split "aidl") ∧ (".." ∉ Str.split "jniLibs"))
    as (Hj & Ha & Hn) by (vm_compute; repeat split; by intros [=]%list_elem_of_singleton).
  unfold getInstallDestination, legacy_libs. rewrite Ht, Hs, Happ.
  cbn [receiver path_arg mbind res_bind mret res_ret].
  destruct (Str.endsWith ".java" src); cbn [negb andb].
  { eexists. split; [reflexivity |].
    apply (LegacyFacts.join_startsWith _ ["app"; "src"; "main"]
             (concat (Str.split <$> filter (λ a, Str.is_empty a = false)
                ["java"; RegExp.replace_empty "src" targetDir; Path.basename src])));
      [rewrite LegacyJoin.concat_split_cons by done; reflexivity | done | done |].
    apply LegacyJoin.no_up_concat. by repeat constructor. }
  destruct (Str.endsWith ".aidl" src); cbn [negb andb].
  { eexists. split; [reflexivity |].
    apply (LegacyFacts.join_startsWith _ ["app"; "src"; "main"]
             (concat (Str.split <$> filter (λ a, Str.is_empty a = false)
                ["aidl"; RegExp.replace_empty "src" targetDir; Path.basename src])));
      [rewrite LegacyJoin.concat_split_cons by done; reflexivity | done | done |].
    apply LegacyJoin.no_up_concat. by repeat constructor. }
  destruct (RegExp.test "libs" (Some targetDir)) eqn:El; cbn [negb andb].
  { destruct (Str.endsWith ".so" src); cbn [negb].
    - eexists. split; [reflexivity |].
      apply (LegacyFacts.join_startsWith _ ["app"; "src"; "main"]
               (concat (Str.split <$> filter (λ a, Str.is_empty a = false)
                  ["jniLibs"; RegExp.replace_empty "libs" targetDir; Path.basename src])));
        [rewrite LegacyJoin.concat_split_cons by done; reflexivity | done | done |].
      apply LegacyJoin.no_up_concat. by repeat constructor.
    - eexists. split; [reflexivity |]. split; [reflexivity |].
      destruct (LegacyJoin.test_split "libs" targetDir El Hup) as (rest & Hd & Hrest).
      apply (LegacyFacts.join_startsWith _ ["app"; "libs"]
               (rest ++ concat (Str.split <$> filter (λ a, Str.is_empty a = false)
                                  [Path.basename src])));
        [| done | by repeat constructor |].
      + assert (targetDir ≠ "") as Hne
          by (eapply LegacyJoin.test_not_empty; [| exact El]; done).
        rewrite (LegacyJoin.concat_split_cons "app") by done.
        rewrite (LegacyJoin.concat_split_cons targetDir) by done.
        rewrite Hd. reflexivity.
      + rewrite elem_of_app. intros [? | H]; [done |]. revert H.
        apply LegacyJoin.no_up_concat. by repeat constructor. }
  destruct (RegExp.test "src/main" (Some targetDir)) eqn:Em.
  { eexists. split; [reflexivity |].
    destruct (LegacyJoin.test_split "src/main" targetDir Em Hup) as (rest & Hd & Hrest).
    apply (LegacyFacts.join_startsWith _ ["app"; "src"; "main"]
             (rest ++ concat (Str.split <$> filter (λ a, Str.is_empty a = false)
                                [Path.basename src])));
      [| done | done |].
    + assert (targetDir ≠ "") as Hne
        by (eapply LegacyJoin.test_not_empty; [| exact Em]; done).
      rewrite (LegacyJoin.concat_split_cons "app") by done.
      rewrite (LegacyJoin.concat_split_cons targetDir) by done.
      rewrite Hd. reflexivity.
    + rewrite elem_of_app. intros [? | H]; [done |]. revert H.
      apply LegacyJoin.no_up_concat. by repeat constructor. }
  eexists. split; [reflexivity |].
  apply (LegacyFacts.join_startsWith _ ["app"; "src"; "main"]
           (concat (Str.split <$> filter (λ a, Str.is_empty a = false)
              [targetDir; Path.basename src])));
    [rewrite LegacyJoin.concat_split_cons by done; reflexivity | done | done |].
  apply LegacyJoin.no_up_concat. by repeat constructor.
Qed.

Lemma getInstallDestination_legacy_witness :
  ∃ dest,
    getInstallDestination (Example.attrs (Some "src/android/Foo.kt") None (Some "src/org/foo"))
    = Ok dest ∧
    Str.startsWith "app/src/main" dest = true.
Proof.
  refine (getInstallDestination_legacy
            (Example.attrs (Some "src/android/Foo.kt") None (Some "src/org/foo"))
            "src/org/foo" "src/android/Foo.kt" eq_refl eq_refl _ eq_refl _ _).
  - discriminate.
  - vm_compute. intros H. repeat (apply elem_of_cons in H as [[=] | H]).
    by apply elem_of_nil in H.
  - vm_compute. discriminate.
Defined.

(** The claim as it is written fails on a library that is not a shared
    object, on a target directory that goes up, and on a source whose base
    name goes up. *)
Lemma getInstallDestination_legacy_counterexample :
  (getInstallDestination (Example.attrs (Some "libs/foo.jar") None (Some "libs"))
   = Ok "app/libs/foo.jar" ∧
   Str.startsWith "app/src/main" "app/libs/foo.jar" = false) ∧
  (getInstallDestination (Example.attrs (Some "x.txt") None (Some "../../.."))
   = Ok "x.txt" ∧
   Str.startsWith "app/src/main" "x.txt" = false) ∧
  (getInstallDestination (Example.attrs (Some "..") None (Some "."))
   = Ok "app/src" ∧
   Str.startsWith "app/src/main" "app/src" = false).
Proof. vm_compute. repeat split. Qed.


(** ** The walk of a path *)

Module WalkFacts.

Lemma walk_nil (links : nat) (t : Fs.tree) (follow : bool) (cur : list string) :
  Fs.walk links t follow cur []
  = match Fs.node_at t cur with
    | Some n => Fs.Found cur n
    | None => Fs.Failed "ENOENT"
    end.
Proof. by destruct links. Qed.

Lemma walk_cons (links : nat) (t : Fs.tree) (follow : bool)
    (cur : list string) (c : string) (rest : list string) :
  Fs.walk links t follow cur (c :: rest)
  = if String.eqb c ".." then Fs.walk links t follow (Fs.parent cur) rest
    else
      match t !! (cur ++ [c]) with
      | None =>
          match rest with
          | [] => Fs.Missing (cur ++ [c])
          | _ => Fs.Failed "ENOENT"
          end
      | Some Fs.Dir => Fs.walk links t follow (cur ++ [c]) rest
      | Some (Fs.File x) =>
          match rest with
          | [] => Fs.Found (cur ++ [c]) (Fs.File x)
          | _ => Fs.Failed "ENOTDIR"
          end
      | Some (Fs.Symlink target) =>
          if bool_decide (rest = []) && negb follow
          then Fs.Found (cur ++ [c]) (Fs.Symlink target)
          else if Str.is_empty target then Fs.Failed "ENOENT"
          else
            match links with
            | 0 => Fs.Failed "ELOOP"
            | S links' =>
                Fs.walk links' t follow
                  (if Path.isAbsolute target then [] else cur)
                  (Fs.comps target ++ rest)
            end
      end.
Proof. by destruct links. Qed.

Lemma node_at_snoc (t : Fs.tree) (cur : list string) (c : string) :
  Fs.node_at t (cur ++ [c]) = t !! (cur ++ [c]).
Proof. by destruct cur. Qed.

(** An induction over the steps of a walk. *)
Lemma walk_ind (t : Fs.tree) (follow : bool)
    (P : nat → list string → list string → Fs.located → Prop) :
  (∀ links cur, P links cur [] (Fs.walk links t follow cur [])) →
  (∀ links cur c rest,
     (c = ".." → P links (Fs.parent cur) rest (Fs.walk links t follow (Fs.parent cur) rest)) →
     (c ≠ ".." → t !! (cur ++ [c]) = Some Fs.Dir →
      P links (cur ++ [c]) rest (Fs.walk links t follow (cur ++ [c]) rest)) →
     (∀ target links',
        c ≠ ".." → t !! (cur ++ [c]) = Some (Fs.Symlink target) →
        bool_decide (rest = []) && negb follow = false → Str.is_empty target = false →
        links = S links' →
        P links' (if Path.isAbsolute target then [] else cur) (Fs.comps target ++ rest)
          (Fs.walk links' t follow (if Path.isAbsolute target then [] else cur)
             (Fs.comps target ++ rest))) →
     P links cur (c :: rest) (Fs.walk links t follow cur (c :: rest))) →
  ∀ links cur names, P links cur names (Fs.walk links t follow cur names).
Proof.
  intros Hnil Hcons. induction links as [|links IHl].
  - intros cur names. revert cur.
    induction names as [|c rest IHn]; intros cur; [apply Hnil |].
    apply Hcons; intros; try apply IHn. done.
  - intros cur names. revert cur.
    induction names as [|c rest IHn]; intros cur; [apply Hnil |].
    apply Hcons; intros; try apply IHn.
    match goal with H : S _ = S _ |- _ => injection H as <- end. apply IHl.
Qed.

(** What a walk finds is in the tree. *)
Lemma walk_found_node (links : nat) (t : Fs.tree) (follow : bool)
    (cur names p : list string) (n : Fs.node) :
  Fs.walk links t follow cur names = Fs.Found p n → Fs.node_at t p = Some n.
Proof.
  revert p n. pattern links, cur, names, (Fs.walk links t follow cur names).
  apply walk_ind; clear links cur names.
  - intros links cur p n. rewrite walk_nil.
    destruct (Fs.node_at t cur) eqn:E; [| done]. by intros [= <- <-].
  - intros links cur c rest Hup Hdir Hlink p n. rewrite walk_cons.
    destruct (String.eqb_spec c "..") as [-> | Hc]; [by apply Hup |].
    destruct (t !! (cur ++ [c])) as [[x | | target] |] eqn:E.
    + destruct rest; [| done]. intros [= <- <-]. by rewrite node_at_snoc.
    + by apply Hdir.
    + destruct (bool_decide (rest = []) && negb follow) eqn:Eb.
      { intros [= <- <-]. by rewrite node_at_snoc. }
      destruct (Str.is_empty target) eqn:Et; [done |].
      destruct links as [|links']; [done |]. by eapply Hlink.
    + by destruct rest.
Qed.

(** What a walk misses is not in the tree. *)
Lemma walk_missing_node (links : nat) (t : Fs.tree) (follow : bool)
    (cur names q : list string) :
  Fs.walk links t follow cur names = Fs.Missing q → t !! q = None.
Proof.
  revert q. pattern links, cur, names, (Fs.walk links t follow cur names).
  apply walk_ind; clear links cur names.
  - intros links cur q. rewrite walk_nil. by destruct (Fs.node_at t cur).
  - intros links cur c rest Hup Hdir Hlink q. rewrite walk_cons.
    destruct (String.eqb_spec c "..") as [-> | Hc]; [by apply Hup |].
    destruct (t !! (cur ++ [c])) as [[x | | target] |] eqn:E.
    + by destruct rest.
    + by apply Hdir.
    + destruct (bool_decide (rest = []) && negb follow) eqn:Eb; [done |].
      destruct (Str.is_empty target) eqn:Et; [done |].
      destruct links as [|links']; [done |]. by eapply Hlink.
    + destruct rest; [| done]. by intros [= <-].
Qed.

(** A walk that finds an entry finds it in a tree with one more entry,
    and in a tree where a file has another content. *)
Lemma walk_found_insert (links : nat) (t : Fs.tree) (follow : bool)
    (cur names p q : list string) (n x : Fs.node) :
  q ≠ [] →
  t !! q = None ∨ (∃ a b, t !! q = Some (Fs.File a) ∧ x = Fs.File b) →
  Fs.walk links t follow cur names = Fs.Found p n →
  Fs.walk links (<[q := x]> t) follow cur names
  = Fs.Found p (if decide (p = q) then x else n).
Proof.
  intros Hq Hold. revert p n.
  pattern links, cur, names, (Fs.walk links t follow cur names).
  apply walk_ind; clear links cur names.
  - intros links cur p n. rewrite !walk_nil.
    destruct (Fs.node_at t cur) as [m |] eqn:E; [| done]. intros [= <- <-].
    destruct cur as [|c cur]; cbn [Fs.node_at] in *.
    { injection E as <-. rewrite decide_False; [done | by intros <-]. }
    destruct (decide (c :: cur = q)) as [<- | Hne].
    + by rewrite lookup_insert_eq.
    + by rewrite lookup_insert_ne, E.
  - intros links cur c rest Hup Hdir Hlink p n. rewrite !walk_cons.
    destruct (String.eqb_spec c "..") as [-> | Hc]; [by apply Hup |].
    destruct (decide (cur ++ [c] = q)) as [<- | Hne].
    + rewrite lookup_insert_eq.
      destruct Hold as [-> | (a & b & -> & ->)]; [by destruct rest |].
      destruct rest; [| done]. intros [= <- <-]. by rewrite decide_True.
    + rewrite lookup_insert_ne by done.
      destruct (t !! (cur ++ [c])) as [[y | | target] |] eqn:E.
      * destruct rest; [| done]. intros [= <- <-]. by rewrite decide_False.
      * by apply Hdir.
      * destruct (bool_decide (rest = []) && negb follow) eqn:Eb.
        { intros [= <- <-]. by rewrite decide_False. }
        destruct (Str.is_empty target) eqn:Et; [done |].
        destruct links as [|links']; [done |]. by eapply Hlink.
      * by destruct rest.
Qed.

(** A walk that misses its last name finds the file put there. *)
Lemma walk_missing_insert (links : nat) (t : Fs.tree) (follow : bool)
    (cur names q : list string) (x : Fs.node) :
  (∀ target, x ≠ Fs.Symlink target) →
  Fs.walk links t follow cur names = Fs.Missing q →
  Fs.walk links (<[q := x]> t) follow cur names = Fs.Found q x.
Proof.
  intros Hx H. pose proof (walk_missing_node _ _ _ _ _ _ H) as Hq. revert H.
  pattern links, cur, names, (Fs.walk links t follow cur names).
  apply walk_ind; clear links cur names.
  - intros links cur. rewrite walk_nil. by destruct (Fs.node_at t cur).
  - intros links cur c rest Hup Hdir Hlink. rewrite !walk_cons.
    destruct (String.eqb_spec c "..") as [-> | Hc]; [by apply Hup |].
    destruct (decide (cur ++ [c] = q)) as [<- | Hne].
    + rewrite lookup_insert_eq, Hq. destruct rest; [| done]. intros _.
      destruct x as [y | | target]; [done | | by destruct (Hx target)].
      by rewrite walk_nil, node_at_snoc, lookup_insert_eq.
    + rewrite lookup_insert_ne by done.
      destruct (t !! (cur ++ [c])) as [[y | | target] |] eqn:E.
      * by destruct rest.
      * by apply Hdir.
      * destruct (bool_decide (rest = []) && negb follow) eqn:Eb; [done |].
        destruct (Str.is_empty target) eqn:Et; [done |].
        destruct links as [|links']; [done |]. by eapply Hlink.
      * destruct rest; [| done]. by intros [= <-].
Qed.

End WalkFacts.


(** ** The content a js-module gets *)

Module ModuleFacts.
Import StrFacts PathFacts WalkFacts.

Lemma endsWith_app_l (suf x s : string) :
  Str.endsWith suf s = true → Str.endsWith suf (x +:+ s) = true.
Proof.
  intros [a ->]%endsWith_inv. rewrite <-sapp_assoc. apply endsWith_app.
Qed.

Lemma endsWith_not_empty (suf s : string) :
  suf ≠ "" → Str.endsWith suf s = true → s ≠ "".
Proof. intros Hsuf [a ->]%endsWith_inv. destruct a; [done | by destruct suf]. Qed.

(** The last name of a path that ends with an extension ends with it. *)
Lemma split_endsWith (suf s : string) :
  Str.no_slash suf = true → Str.endsWith suf s = true →
  ∃ l w, Str.split s = l ++ [w +:+ suf] ∧ Str.no_slash w = true.
Proof.
  intros Hsuf [a ->]%endsWith_inv. rewrite split_app_no_slash by done.
  eexists _, _. split; [done |].
  pose proof (split_not_nil a).
  destruct (Str.split a) as [|v l _] eqn:E using rev_ind; [done |].
  rewrite List.last_last. eapply split_elem_no_slash. rewrite E.
  apply elem_of_app. right. left.
Qed.

Lemma no_slash_app (a b : string) :
  Str.no_slash a = true → Str.no_slash b = true → Str.no_slash (a +:+ b) = true.
Proof.
  intros Ha Hb. induction a as [|c a IH]; [done |].
  rewrite sapp_cons. cbn in *. apply andb_true_iff in Ha as [-> Ha]. by apply IH.
Qed.

(** What [path.resolve] gathers ends with its last argument. *)
Lemma resolve_loop_last (cwd : string) (args : list string) (b : string) :
  b ≠ "" →
  ∃ Z, (Path.resolve_loop cwd (rev (args ++ [b])) "").1 = Z +:+ b +:+ "/" ∧
       (Z = "" ∨ ∃ Y, Z = Y +:+ "/").
Proof.
  intros Hb. rewrite rev_unit. cbn [Path.resolve_loop].
  apply is_empty_false in Hb. rewrite Hb.
  destruct (Path.isAbsolute b).
  - exists "". cbn [fst]. by rewrite sapp_nil_r; auto.
  - rewrite resolve_loop_acc. cbn [fst]. rewrite sapp_nil_r.
    eexists. split; [done |]. apply resolve_loop_shape.
Qed.

(** The path resolved ends with the last name of the last argument when
    that name is a plain one. *)
Lemma resolve_endsWith (cwd : string) (args : list string) (b w : string)
    (l : list string) :
  Str.split b = l ++ [w] → Path.normal_seg w = true →
  Str.endsWith w (Path.resolve cwd (args ++ [b])) = true.
Proof.
  intros Hsplit Hw.
  assert (b ≠ "") as Hb.
  { intros ->. destruct l as [|? [|? ?]]; cbn in Hsplit; try done.
    injection Hsplit as <-. by vm_compute in Hw. }
  destruct (resolve_loop_last cwd args b Hb) as (Z & HZ & Hshape).
  unfold Path.resolve.
  destruct (Path.resolve_loop cwd (rev (args ++ [b])) "") as [P abs].
  cbn [fst] in HZ. subst P.
  assert (∃ K, Path.normalizeString (Z +:+ b +:+ "/") (negb abs) = Str.join (K ++ [w]))
    as [K ->].
  { unfold Path.normalizeString, Path.norm_segs.
    assert (∃ L, Str.split (Z +:+ b +:+ "/") = L ++ [w; ""]) as [L ->].
    { destruct Hshape as [-> | [Y ->]].
      - rewrite sapp_nil_l. change (b +:+ "/") with (b +:+ "/" +:+ "").
        rewrite split_app, Hsplit. exists l. rewrite <-List.app_assoc. reflexivity.
      - rewrite sapp_assoc. change (b +:+ "/") with (b +:+ "/" +:+ "").
        rewrite !split_app, Hsplit. exists (Str.split Y ++ l).
        rewrite <-!List.app_assoc. reflexivity. }
    rewrite fold_norm_app. cbn [fold_left].
    rewrite (norm_step_skip _ _ "") by tauto. rewrite norm_step_normal by done.
    cbn [rev]. eauto. }
  pose proof (join_snoc_endsWith K w) as He.
  destruct abs; [by apply endsWith_app_l |].
  destruct (Str.is_empty (Str.join (K ++ [w]))) eqn:Ee; [| done].
  apply is_empty_true in Ee. rewrite Ee in He.
  destruct w; [by vm_compute in Hw | done].
Qed.

Lemma endsWith_json_resolve (cwd dir src : string) :
  Str.endsWith ".json" src = true →
  Str.endsWith ".json" (Path.resolve cwd [dir; src]) = true.
Proof.
  intros H. destruct (split_endsWith ".json" src eq_refl H) as (l & w & Hs & Hw).
  apply (endsWith_trans _ (w +:+ ".json")); [apply endsWith_app |].
  change [dir; src] with ([dir] ++ [src]).
  eapply resolve_endsWith; [exact Hs |].
  assert (∀ x, String.length x < 5 → w +:+ ".json" ≠ x) as Hlong.
  { intros x Hx E. rewrite <-E, length_sapp in Hx. cbn in Hx. lia. }
  apply normal_seg_intro; [apply Hlong; cbn; lia .. | by apply no_slash_app].
Qed.

(** *** Reading what was written *)

Lemma locate_found_insert (cwd : string) (t : Fs.tree) (follow : bool)
    (path : string) (p q : list string) (n x : Fs.node) :
  q ≠ [] →
  t !! q = None ∨ (∃ a b, t !! q = Some (Fs.File a) ∧ x = Fs.File b) →
  Fs.locate cwd t follow path = Fs.Found p n →
  Fs.locate cwd (<[q := x]> t) follow path
  = Fs.Found p (if decide (p = q) then x else n).
Proof. apply walk_found_insert. Qed.

Lemma missing_not_root (links : nat) (t : Fs.tree) (follow : bool)
    (cur names q : list string) :
  Fs.walk links t follow cur names = Fs.Missing q → q ≠ [].
Proof.
  revert q. pattern links, cur, names, (Fs.walk links t follow cur names).
  apply walk_ind; clear links cur names.
  - intros links cur q. rewrite walk_nil. by destruct (Fs.node_at t cur).
  - intros links cur c rest Hup Hdir Hlink q. rewrite walk_cons.
    destruct (String.eqb_spec c "..") as [-> | Hc]; [by apply Hup |].
    destruct (t !! (cur ++ [c])) as [[x | | target] |] eqn:E.
    + by destruct rest.
    + by apply Hdir.
    + destruct (bool_decide (rest = []) && negb follow) eqn:Eb; [done |].
      destruct (Str.is_empty target) eqn:Et; [done |].
      destruct links as [|links']; [done |]. by eapply Hlink.
    + destruct rest; [| done]. intros [= <-]. by destruct cur.
Qed.

(** A file that is read has the content written last. *)
Lemma read_after_write (cwd : string) (t t' : Fs.tree) (path data : string) :
  Fs.writeFileSync cwd t path data = (t', Ok tt) →
  Fs.readFileSync cwd t' path = Ok data.
Proof.
  unfold Fs.writeFileSync, Fs.readFileSync.
  destruct (Fs.locate cwd t true path) as [p [a | | target] | p | c] eqn:E;
    try done; intros [= <-].
  - pose proof (walk_found_node _ _ _ _ _ _ _ E) as Hn.
    assert (p ≠ []) as Hp by (intros ->; done).
    rewrite (locate_found_insert cwd t true path p p (Fs.File a) (Fs.File data));
      [by rewrite decide_True | done | | done].
    right. exists a, data. split; [| done]. by destruct p.
  - unfold Fs.locate in *. by rewrite (walk_missing_insert _ _ _ _ _ p (Fs.File data)).
Qed.

(** A file keeps its content when that content is written somewhere. *)
Lemma read_other_write (cwd : string) (t t' : Fs.tree) (path other data : string) :
  Fs.readFileSync cwd t path = Ok data →
  Fs.writeFileSync cwd t other data = (t', Ok tt) →
  Fs.readFileSync cwd t' path = Ok data.
Proof.
  unfold Fs.writeFileSync, Fs.readFileSync.
  destruct (Fs.locate cwd t true path) as [p [a | | target] | p | c] eqn:E;
    cbn [Fs.failure]; try done. intros [= ->].
  destruct (Fs.locate cwd t true other) as [q [b | | target] | q | c] eqn:Eo;
    try done; intros [= <-].
  - pose proof (walk_found_node _ _ _ _ _ _ _ Eo) as Hn.
    assert (q ≠ []) as Hq by (intros ->; done).
    rewrite (locate_found_insert cwd t true path p q (Fs.File data) (Fs.File data));
      [by destruct (decide (p = q)) | done | | done].
    right. exists b, data. split; [| done]. by destruct q.
  - rewrite (locate_found_insert cwd t true path p q (Fs.File data) (Fs.File data));
      [by destruct (decide (p = q)) | by eapply missing_not_root | | done].
    left. by eapply walk_missing_node.
Qed.

(** A file keeps its content when directories are made. *)
Lemma read_mkdirs (cwd : string) (t t' : Fs.tree) (start done todo : list string)
    (path data : string) :
  Fs.readFileSync cwd t path = Ok data →
  Fs.mkdirs t start done todo = (t', Ok tt) →
  Fs.readFileSync cwd t' path = Ok data.
Proof.
  revert t done. induction todo as [|c rest IH]; intros t done Hread; cbn [Fs.mkdirs].
  { by intros [= <-]. }
  destruct (Fs.mkdir1 t start (done ++ [c]) (bool_decide (rest = [])))
    as [t1 [[] | e]] eqn:E1; [| intros [=]].
  apply IH. revert E1 Hread. unfold Fs.mkdir1, Fs.readFileSync.
  destruct (Fs.walk Fs.MAXSYMLINKS t true start (done ++ [c]))
    as [q [b | | target] | q | code] eqn:Ew; try discriminate;
    intros [= <-]; [exact (λ H, H) |].
  destruct (Fs.locate cwd t true path) as [p [a | | target] | p | code] eqn:E;
    cbn [Fs.failure]; try discriminate. intros [= ->].
  rewrite (locate_found_insert cwd t true path p q (Fs.File data) Fs.Dir);
    [| by eapply missing_not_root | left; by eapply walk_missing_node | done].
  destruct (decide (p = q)) as [-> | ?]; [| done].
  apply walk_found_node in E. apply walk_missing_node in Ew.
  destruct q; [done |]. cbn in E. congruence.
Qed.

End ModuleFacts.

Module ScriptFacts.
Import StrFacts PathFacts WalkFacts ModuleFacts.

(** What the install of a js-module leaves: the script of the content
    read, at both destinations. *)
Lemma js_module_written (cwd : string) (obj : Obj.t) (plugin : Plugin.t)
    (project : Project.t) (options : option Options.t) (w w' : world) (src : string) :
  Obj.src obj = Some src →
  js_module_install cwd obj plugin project options w = (w', Ok tt) →
  ∃ content,
    Fs.readFileSync cwd (tree w) (Path.resolve cwd [Plugin.dir plugin; src]) = Ok content ∧
    let script :=
      scriptContent (Path.resolve cwd [Plugin.dir plugin; src])
        (Plugin.id plugin +:+ "." +:+ moduleName obj src) content in
    Fs.readFileSync cwd (tree w')
      (Path.resolve cwd [Project.www project; "plugins"; Plugin.id plugin; src])
    = Ok script ∧
    (opt Options.usePlatformWww options = true →
     Fs.readFileSync cwd (tree w')
       (Path.resolve cwd [Project.platformWww project; "plugins"; Plugin.id plugin; src])
     = Ok script).
Proof.
  intros Hs. unfold js_module_install. rewrite Hs. run.
  destruct (Fs.readFileSync cwd (tree w) (Path.resolve cwd [Plugin.dir plugin; src]))
    as [content | e] eqn:Eread; [| discriminate].
  fold (moduleName obj src).
  set (data := scriptContent _ _ content).
  set (wwwDest := Path.resolve cwd [Project.www project; _; _; _]).
  unfold Fs.mkdirSync.
  destruct (Fs.mkdirs (tree w) _ [] (Fs.comps (Path.dirname wwwDest)))
    as [t1 [[] | e]] eqn:Emk; cbn [tree emitted]; [| discriminate].
  destruct (Fs.writeFileSync cwd t1 wwwDest data) as [t2 [[] | e]] eqn:Ewr;
    cbn [tree emitted]; [| discriminate].
  pose proof (read_after_write _ _ _ _ _ Ewr) as Hread.
  destruct (opt Options.usePlatformWww options); cbn [tree emitted].
  - set (platformWwwDest := Path.resolve cwd [Project.platformWww project; _; _; _]).
    destruct (Fs.mkdirs t2 _ [] (Fs.comps (Path.dirname platformWwwDest)))
      as [t3 [[] | e]] eqn:Emk2; cbn [tree emitted]; [| discriminate].
    destruct (Fs.writeFileSync cwd t3 platformWwwDest data) as [t4 [[] | e]] eqn:Ewr2;
      cbn [tree emitted]; [| discriminate].
    intros [= <-]. exists content. split; [reflexivity |]. cbn [tree]. split.
    + eapply read_other_write; [| exact Ewr2].
      eapply read_mkdirs; [exact Hread | exact Emk2].
    + intros _. by apply (read_after_write _ _ _ _ _ Ewr2).
  - intros [= <-]. exists content. split; [reflexivity |]. split; [exact Hread | discriminate].
Qed.

(** The content without its byte order mark: what follows the mark, or all
    of it when it does not start with the mark. *)
Lemma stripBOM_cases (content : string) :
  content = Marked.mark +:+ stripBOM content ∨
  Str.startsWith Marked.mark content = false ∧ stripBOM content = content.
Proof.
  unfold stripBOM. change BOM with Marked.mark.
  destruct (Str.startsWith Marked.mark content) eqn:E; [left | by right].
  by apply startsWith_inv in E.
Qed.

End ScriptFacts.

(** C9: when the install of a js-module whose [src] ends with [.json]
    returns, the source had a content, and the file at
    [www/plugins/<id>/<src>] is read back as [cordova.define("<id>.<name>",
    function(require, exports, module) {], a line feed, [module.exports = ]
    and the body, a line feed, [});] and a line feed.  The body is the
    content without its byte order mark: what follows the bytes EF BB BF
    when the content starts with them, the content itself when it does
    not.  The name is [obj.name], or without one the base name of [src]
    without its extension. *)
Theorem js_module_install_json (cwd : string) (obj : Obj.t) (plugin : Plugin.t)
    (project : Project.t) (options : option Options.t) (w w' : world)
    (src : string) :
  Obj.src obj = Some src → Str.endsWith ".json" src = true →
  js_module_install cwd obj plugin project options w = (w', Ok tt) →
  let mark :=
    String (Ascii.ascii_of_nat 239) (String (Ascii.ascii_of_nat 187)
      (String (Ascii.ascii_of_nat 191) "")) in
  let name :=
    match Obj.name obj with
    | Some n => if Str.is_empty n then Path.basename_ext src (Path.extname src) else n
    | None => Path.basename_ext src (Path.extname src)
    end in
  ∃ content body,
    Fs.readFileSync cwd (tree w) (Path.resolve cwd [Plugin.dir plugin; src]) = Ok content ∧
    (content = mark +:+ body ∨ Str.startsWith mark content = false ∧ body = content) ∧
    Fs.readFileSync cwd (tree w')
      (Path.resolve cwd [Project.www project; "plugins"; Plugin.id plugin; src])
    = Ok ("cordova.define(" +:+ dq +:+ (Plugin.id plugin +:+ "." +:+ name)
            +:+ dq +:+ ", function(require, exports, module) {" +:+ nl
            +:+ ("module.exports = " +:+ body) +:+ nl +:+ "});" +:+ nl).
Proof.
  intros Hs Hjson Hrun mark name.
  destruct (ScriptFacts.js_module_written _ _ _ _ _ _ _ _ Hs Hrun)
    as (content & Hread & Hwww & _).
  exists content, (stripBOM content). split; [exact Hread |].
  split; [apply ScriptFacts.stripBOM_cases |].
  rewrite Hwww. unfold scriptContent.
  rewrite (ModuleFacts.endsWith_json_resolve _ _ _ Hjson).
  unfold moduleName, name, truthy, ToString.
  by destruct (Obj.name obj) as [n |]; [destruct (Str.is_empty n) |].
Qed.

(** The data file of the example starts with a byte order mark: the module
    gets [{}], without the mark. *)
Lemma js_module_install_json_witness :
  Fs.readFileSync "/"
    (tree (js_module_install "/" (Example.attrs (Some "data.json") None None)
             Example.plugin Example.project None Marked.world0).1)
    "/proj/www/plugins/my.plugin/data.json"
  = Ok ("cordova.define(" +:+ dq +:+ "my.plugin.data" +:+ dq
          +:+ ", function(require, exports, module) {" +:+ nl
          +:+ "module.exports = {}" +:+ nl +:+ "});" +:+ nl).
Proof.
  destruct (js_module_install_json "/" (Example.attrs (Some "data.json") None None)
              Example.plugin Example.project None Marked.world0 _ "data.json"
              eq_refl eq_refl eq_refl)
    as (content & body & Hread & Hbody & Hwritten).
  vm_compute in Hread. injection Hread as <-.
  destruct Hbody as [E | [E _]]; [| vm_compute in E; discriminate E].
  vm_compute in E. injection E as <-.
  vm_compute in Hwritten. vm_compute. exact Hwritten.
Defined.


(** ** Trees *)

Module TreeFacts.
Import StrFacts PathFacts WalkFacts.

Lemma node_at_lookup (t : Fs.tree) (p : list string) :
  p ≠ [] → Fs.node_at t p = t !! p.
Proof. by destruct p. Qed.

Lemma wf_ancestors (t : Fs.tree) (p q : list string) :
  wf t → is_Some (t !! p) → q `prefix_of` p → q ≠ p →
  Fs.node_at t q = Some Fs.Dir.
Proof.
  intros Hwf Hp [k ->] Hne. revert Hp Hne.
  induction k as [|x k IH] using rev_ind; intros Hp Hne.
  { by rewrite (right_id_L [] app) in Hne. }
  rewrite (assoc_L app) in Hp. apply (proj2 Hwf) in Hp.
  destruct k as [|y k]; [by rewrite (right_id_L [] app) in Hp |].
  rewrite node_at_lookup in Hp by (by destruct q).
  apply IH.
  - by rewrite Hp.
  - intros E. apply (f_equal length) in E. rewrite length_app in E. cbn in E. lia.
Qed.

Lemma parent_snoc (l : list string) (x : string) : Fs.parent (l ++ [x]) = l.
Proof.
  unfold Fs.parent. rewrite length_app. cbn [length].
  by rewrite Nat.add_sub, take_app_length.
Qed.

Lemma parent_take (l : list string) : Fs.parent l = take (length l - 1) l.
Proof. reflexivity. Qed.

(** *** Walks along directories *)

Lemma through_dirs_cons (t : Fs.tree) (cur : list string) (x : string)
    (rest : list string) :
  through_dirs t cur (x :: rest) → through_dirs t (cur ++ [x]) rest.
Proof.
  intros H k Hk. rewrite <-(assoc_L app). apply (H (S k)). cbn [length]. lia.
Qed.

Lemma walk_through_dirs (links : nat) (t : Fs.tree) (follow : bool)
    (cur names : list string) :
  normal_list names → names ≠ [] → through_dirs t cur names →
  (follow = true → ∀ target, t !! (cur ++ names) ≠ Some (Fs.Symlink target)) →
  Fs.walk links t follow cur names
  = match t !! (cur ++ names) with
    | Some n => Fs.Found (cur ++ names) n
    | None => Fs.Missing (cur ++ names)
    end.
Proof.
  revert cur. induction names as [|x rest IH]; intros cur Hn Hne Hd Hl; [done |].
  apply Forall_cons in Hn as [Hx Hn]. rewrite walk_cons.
  apply normal_seg_inv in Hx as (_ & _ & Hx & _).
  apply String.eqb_neq in Hx. rewrite Hx.
  destruct rest as [|y rest].
  - destruct (t !! (cur ++ [x])) as [[c | | target] |] eqn:E; [done | | | done].
    + by rewrite walk_nil, node_at_snoc, E.
    + destruct follow; [by destruct (Hl eq_refl target) | done].
  - pose proof (Hd 1 ltac:(cbn; lia)) as H1. cbn [take] in H1. rewrite H1.
    rewrite IH; [by rewrite <-(assoc_L app) | done | done | |].
    + by apply through_dirs_cons.
    + intros Hf target. rewrite <-(assoc_L app). by apply Hl.
Qed.

(** Where an entry of a well-formed tree is located. *)
Lemma locate_entry (cwd : string) (t : Fs.tree) (follow : bool)
    (p : list string) (n : Fs.node) :
  wf t → normal_list p → Fs.node_at t p = Some n →
  (follow = true → ∀ target, n ≠ Fs.Symlink target) →
  Fs.locate cwd t follow (Fs.render p) = Fs.Found p n.
Proof.
  intros Hwf Hp Hn Hl. unfold Fs.locate.
  rewrite render_absolute, comps_render by done.
  destruct p as [|x p]; [by rewrite walk_nil, Hn |]. cbn [Fs.node_at] in Hn.
  rewrite walk_through_dirs; [cbn [app]; by rewrite Hn | done | done | |].
  - intros k Hk. cbn [app].
    assert (Fs.node_at t (take k (x :: p)) = Some Fs.Dir) as Hd.
    { apply (wf_ancestors t (x :: p)); [done | by rewrite Hn | apply prefix_take |].
      intros E. apply (f_equal length) in E. rewrite length_take in E. lia. }
    destruct k; [lia |]. done.
  - intros Hf target. cbn [app]. rewrite Hn. intros [= ->]. by eapply Hl.
Qed.

(** Where a name missing from a directory of a well-formed tree is
    located. *)
Lemma locate_missing (cwd : string) (t : Fs.tree) (follow : bool)
    (p : list string) (x : string) :
  wf t → normal_list (p ++ [x]) → Fs.node_at t p = Some Fs.Dir →
  t !! (p ++ [x]) = None →
  Fs.locate cwd t follow (Fs.render (p ++ [x])) = Fs.Missing (p ++ [x]).
Proof.
  intros Hwf Hp Hn Hx. unfold Fs.locate.
  rewrite render_absolute, comps_render by done.
  rewrite walk_through_dirs; [cbn [app]; by rewrite Hx | done | by destruct p | |].
  - intros k Hk. cbn [app]. rewrite length_app in Hk. cbn in Hk.
    rewrite take_app_le by lia.
    destruct (decide (k = length p)) as [-> | Hne].
    + rewrite firstn_all. destruct p; [cbn in Hk; lia | done].
    + assert (Fs.node_at t (take k p) = Some Fs.Dir) as Hd.
      { apply (wf_ancestors t p); [done | | apply prefix_take |].
        - destruct p; [cbn in Hk; lia | cbn in Hn; by rewrite Hn].
        - intros E. apply (f_equal length) in E. rewrite length_take in E. lia. }
      destruct k; [lia |]. destruct p; [cbn in Hk; lia | done].
  - intros _ target. cbn [app]. by rewrite Hx.
Qed.

(** *** The entries of a directory *)

Lemma elem_of_children (t : Fs.tree) (q : list string) (x : string) :
  x ∈ Fs.children t q ↔ is_Some (t !! (q ++ [x])).
Proof.
  unfold Fs.children. rewrite list_elem_of_omap. split.
  - intros ([k n] & Hkn & Hx). apply elem_of_map_to_list in Hkn. cbn in Hx.
    destruct (decide _) as [[[r ->] Hlen] |]; [| done].
    rewrite length_app in Hlen. destruct r as [|y [|z r]]; cbn in Hlen; try lia.
    rewrite last_snoc in Hx. injection Hx as <-. by rewrite Hkn.
  - intros [n Hn]. exists (q ++ [x], n). split; [by apply elem_of_map_to_list |].
    cbn. rewrite decide_True.
    + by rewrite last_snoc.
    + split; [by eexists |]. rewrite length_app. cbn. lia.
Qed.

Lemma children_nil (t : Fs.tree) (q : list string) :
  Fs.children t q = [] ↔ ∀ x, t !! (q ++ [x]) = None.
Proof.
  split.
  - intros E x. apply eq_None_not_Some. rewrite <-elem_of_children, E.
    apply not_elem_of_nil.
  - intros H. destruct (Fs.children t q) as [|x l] eqn:E; [done |].
    assert (x ∈ Fs.children t q) as Hx by (rewrite E; left).
    apply elem_of_children in Hx. rewrite H in Hx. by destruct Hx.
Qed.

(** *** Removing *)

Lemma lookup_remove_subtree (t : Fs.tree) (p q : list string) :
  Fs.remove_subtree t p !! q = if decide (p `prefix_of` q) then None else t !! q.
Proof.
  unfold Fs.remove_subtree. destruct (decide (p `prefix_of` q)) as [H | H].
  - apply map_lookup_filter_None. right. intros n _. cbn. tauto.
  - destruct (t !! q) as [n |] eqn:E.
    + by apply map_lookup_filter_Some.
    + apply map_lookup_filter_None. by left.
Qed.

(** In a well-formed tree what is not a directory has nothing below. *)
Lemma wf_leaf (t : Fs.tree) (p q : list string) (n : Fs.node) :
  wf t → t !! p = Some n → n ≠ Fs.Dir → p `prefix_of` q → is_Some (t !! q) → q = p.
Proof.
  intros Hwf Hp Hn Hpre Hq.
  destruct (decide (q = p)) as [| Hne]; [done |]. exfalso.
  pose proof (wf_ancestors t q p Hwf Hq Hpre ltac:(done)) as Hd.
  destruct p as [|x p]; [destruct Hwf; congruence |].
  cbn in Hd. congruence.
Qed.

Lemma wf_root (t : Fs.tree) (p : list string) : wf t → is_Some (t !! p) → p ≠ [].
Proof. intros [H _] [n Hn] ->. congruence. Qed.

(** [fs.rmSync] of an entry of a well-formed tree removes it and what is
    below it. *)
Lemma rmSync_entry (cwd : string) (t : Fs.tree) (p : list string) :
  wf t → normal_list p → is_Some (t !! p) →
  Fs.rmSync cwd t (Fs.render p) = (Fs.remove_subtree t p, Ok tt).
Proof.
  intros Hwf Hp [n Hn]. pose proof (wf_root t p Hwf ltac:(by rewrite Hn)) as Hne.
  unfold Fs.rmSync.
  rewrite (locate_entry cwd t false p n); [| done | done | | done].
  2: { by rewrite node_at_lookup. }
  destruct p as [|x p]; [done |].
  destruct (decide (n = Fs.Dir)) as [-> | Hd]; [done |].
  assert (delete (x :: p) t = Fs.remove_subtree t (x :: p)) as ->.
  { apply map_eq. intros q. rewrite lookup_remove_subtree.
    destruct (decide (x :: p = q)) as [<- | Hq].
    - by rewrite lookup_delete_eq, decide_True.
    - rewrite lookup_delete_ne by done.
      destruct (decide (x :: p `prefix_of` q)) as [Hpre |]; [| done].
      apply eq_None_not_Some. intros Hs. apply Hq. symmetry.
      by eapply wf_leaf. }
  by destruct n.
Qed.

Lemma wf_remove_subtree (t : Fs.tree) (p : list string) :
  wf t → wf (Fs.remove_subtree t p).
Proof.
  intros [Hroot Hwf]. split.
  - rewrite lookup_remove_subtree. by destruct (decide _).
  - intros q x. rewrite lookup_remove_subtree.
    destruct (decide (p `prefix_of` q ++ [x])) as [| Hpre]; [by intros [? ?] |].
    intros Hs. pose proof (Hwf q x Hs) as Hd.
    destruct q as [|y q]; [done |]. cbn [Fs.node_at] in *.
    rewrite lookup_remove_subtree, decide_False; [done |].
    intros Hp. apply Hpre. by apply prefix_app_r.
Qed.

Lemma wf_delete_empty (t : Fs.tree) (p : list string) :
  wf t → (∀ x, t !! (p ++ [x]) = None) → wf (delete p t).
Proof.
  intros [Hroot Hwf] Hempty. split.
  - destruct (decide (p = [])) as [-> | ?];
      [by rewrite lookup_delete_eq | by rewrite lookup_delete_ne].
  - intros q x Hs.
    destruct (decide (p = q ++ [x])) as [-> | Hne].
    { rewrite lookup_delete_eq in Hs. by destruct Hs. }
    rewrite lookup_delete_ne in Hs by done. pose proof (Hwf q x Hs) as Hd.
    destruct q as [|y q]; [done |]. cbn [Fs.node_at] in *.
    rewrite lookup_delete_ne; [done |]. intros ->.
    rewrite Hempty in Hs. by destruct Hs.
Qed.

End TreeFacts.


(** ** Pruning *)

Module PruneFacts.
Import StrFacts PathFacts WalkFacts TreeFacts.

Lemma length_join (l : list string) :
  normal_list l → length l ≤ String.length (Str.join l).
Proof.
  induction 1 as [|w l Hw Hl IH]; [done |].
  apply normal_seg_inv in Hw as (Hw & _).
  assert (1 ≤ String.length w) by (destruct w; [done | cbn; lia]).
  destruct l as [|v l]; [cbn; lia |].
  rewrite join_cons by done. rewrite !length_sapp. cbn [length] in *.
  change (String.length "/") with 1. lia.
Qed.

Lemma pruned_snoc (A : list string) (a : string) (k : nat) (q : list string) :
  k ≤ length A → pruned (A ++ [a]) k q ↔ q = A ++ [a] ∨ pruned A k q.
Proof.
  intros Hk. unfold pruned. rewrite length_app. cbn [length]. split.
  - intros (j & Hj & ->). destruct (decide (j = length A + 1)) as [-> | Hne].
    + left. rewrite firstn_all2; [done |]. rewrite length_app. cbn. lia.
    + right. exists j. split; [lia |]. rewrite take_app_le by lia. done.
  - intros [-> | (j & Hj & ->)].
    + exists (length A + 1). split; [lia |].
      rewrite firstn_all2; [done |]. rewrite length_app. cbn. lia.
    + exists j. split; [lia |]. rewrite take_app_le by lia. done.
Qed.

Lemma readdir_dir (cwd : string) (t : Fs.tree) (p : list string) :
  wf t → normal_list p → Fs.node_at t p = Some Fs.Dir →
  Fs.existsSync cwd t (Fs.render p) = true ∧
  Fs.readdirSync cwd t (Fs.render p) = Ok (Fs.children t p).
Proof.
  intros Hwf Hp Hd. unfold Fs.existsSync, Fs.readdirSync.
  by rewrite (locate_entry cwd t true p Fs.Dir).
Qed.

Lemma rmdir_empty (cwd : string) (t : Fs.tree) (p : list string) :
  wf t → normal_list p → Fs.node_at t p = Some Fs.Dir → Fs.children t p = [] →
  Fs.rmdirSync cwd t (Fs.render p)
  = if decide (p = []) then (t, Err (SystemError "EBUSY")) else (delete p t, Ok tt).
Proof.
  intros Hwf Hp Hd Hc. unfold Fs.rmdirSync.
  rewrite (locate_entry cwd t false p Fs.Dir) by done.
  destruct p; [done |]. by rewrite Hc.
Qed.


Lemma walked_up_stop (S A : list string) (t : Fs.tree)
    (e : list (string * string)) :
  wf t → A = S ∨ A ≠ S ∧ (∃ x, is_Some (t !! (A ++ [x]))) →
  walked_up S A t e (World t e, Ok tt).
Proof.
  intros Hwf Hwhy. exists (length A), (Ok tt), t. rewrite firstn_all.
  split; [done |]. split; [done |]. split; [done |].
  split; [| split; [| split]].
  - intros q (j & Hj & _). lia.
  - done.
  - intros j Hj. lia.
  - destruct Hwhy as [-> | [? ?]]; [by left | right; by left].
Qed.

Section with_cwd.
Variable cwd : string.
Hypothesis cwd_absolute : Path.isAbsolute cwd = true.

Lemma prune_dirs (S : list string) (e : list (string * string)) :
  normal_list S →
  ∀ A t rounds,
    normal_list A → length A < rounds → wf t →
    Fs.node_at t A = Some Fs.Dir →
    walked_up S A t e (prune cwd rounds (Fs.render A) (Fs.render S) (World t e)).
Proof.
  intros HS A. induction A as [|a A IH] using rev_ind;
    intros t rounds HA Hrounds Hwf Hd.
  all: destruct rounds as [|rounds]; [lia |]; cbn [prune].
  - destruct (String.eqb_spec (Fs.render []) (Fs.render S)) as [E | E].
    { apply render_inj in E; [| done | done]. apply walked_up_stop; auto. }
    assert ([] ≠ S) as HAS by (by intros <-).
    destruct (readdir_dir cwd t [] Hwf HA Hd) as [Hex Hrd]. run.
    rewrite Hex; cbn [tree emitted]. rewrite Hrd; cbn [tree emitted].
    destruct (Fs.children t []) as [|x0 entries] eqn:Ec; cbn [length Nat.eqb tree emitted].
    + rewrite (rmdir_empty cwd t []) by done. rewrite decide_True by done.
      cbn [tree emitted].
      exists 0, (Err (SystemError "EBUSY")), t. cbn [length take].
      split; [done |]. split; [done |]. split; [done |].
      split; [| split; [| split]].
      * intros q (j & Hj & _). cbn in Hj. lia.
      * done.
      * intros j Hj. cbn in Hj. lia.
      * right. right. repeat split; try done.
        intros x. by apply (proj1 (children_nil t []) Ec x).
    + apply walked_up_stop; [done |]. right. split; [done |].
      exists x0. apply elem_of_children. rewrite Ec. left.
  - destruct (String.eqb_spec (Fs.render (A ++ [a])) (Fs.render S)) as [E | E].
    { apply render_inj in E; [| done | done]. apply walked_up_stop; auto. }
    assert (A ++ [a] ≠ S) as HAS by (by intros <-).
    destruct (readdir_dir cwd t _ Hwf HA Hd) as [Hex Hrd]. run.
    rewrite Hex; cbn [tree emitted]. rewrite Hrd; cbn [tree emitted].
    destruct (Fs.children t (A ++ [a])) as [|x0 entries] eqn:Ec;
      cbn [length Nat.eqb tree emitted].
    2: { apply walked_up_stop; [done |]. right. split; [done |].
         exists x0. apply elem_of_children. rewrite Ec. left. }
    rewrite (rmdir_empty cwd t (A ++ [a])) by done.
    rewrite decide_False by (by destruct A). cbn [tree emitted].
    pose proof (proj1 (children_nil t _) Ec) as Hempty.
    rewrite resolve_render by done. rewrite resolved_up by done.
    rewrite parent_snoc.
    apply Forall_app in HA as [HA Ha].
    rewrite length_app in Hrounds. cbn in Hrounds.
    assert (Fs.node_at (delete (A ++ [a]) t) A = Some Fs.Dir) as HdA.
    { assert (Fs.node_at t A = Some Fs.Dir) as HdA.
      { apply (wf_ancestors t (A ++ [a]) A Hwf);
          [rewrite node_at_snoc in Hd; by rewrite Hd | by eexists |].
        intros E'. apply (f_equal length) in E'. rewrite length_app in E'.
        cbn in E'. lia. }
      destruct A as [|b A]; [done |]. cbn [Fs.node_at] in *.
      rewrite lookup_delete_ne; [done |]. intros E'.
      apply (f_equal length) in E'. rewrite length_app in E'. cbn in E'. lia. }
    destruct (IH (delete (A ++ [a]) t) rounds HA ltac:(lia)
                ltac:(by apply wf_delete_empty) HdA)
      as (k & r & t' & Hrun & Hk & Hwf' & Hgone & Hkept & Hwhy & Hstop).
    cbn [tree emitted]. rewrite Hrun.
    exists k, r, t'. rewrite length_app. cbn [length].
    split; [done |]. split; [lia |]. split; [done |].
    assert (∀ j, j ≤ length A → take j (A ++ [a]) = take j A) as Htake.
    { intros j Hj. by rewrite take_app_le by lia. }
    split; [| split; [| split]].
    + intros q [-> | Hq]%pruned_snoc; [| by apply Hgone | done].
      rewrite Hkept; [by rewrite lookup_delete_eq |].
      intros (j & Hj & E'). apply (f_equal length) in E'.
      rewrite length_app, length_take in E'. cbn in E'. lia.
    + intros q Hq. rewrite pruned_snoc in Hq by done.
      rewrite Hkept by (intros ?; apply Hq; by right).
      rewrite lookup_delete_ne; [done |]. intros ?. apply Hq. by left.
    + intros j Hj. destruct (decide (j = length A + 1)) as [-> | Hne].
      * rewrite firstn_all2 by (rewrite length_app; cbn; lia).
        split; [done |]. intros x Hx. rewrite Hempty in Hx. by destruct Hx.
      * rewrite Htake by lia. destruct (Hwhy j ltac:(lia)) as [HjS Hone].
        split; [done |]. intros x Hx.
        destruct (decide (take j A ++ [x] = A ++ [a])) as [E' | E'].
        -- assert (j = length A) as ->.
           { apply (f_equal length) in E'. rewrite !length_app, length_take in E'.
             cbn in E'. lia. }
           split; [lia |]. rewrite E'.
           rewrite firstn_all2; [done |]. rewrite length_app. cbn. lia.
        -- rewrite <-(lookup_delete_ne t (A ++ [a])) in Hx by done.
           destruct (Hone x Hx) as [Hj' Hx']. split; [lia |].
           rewrite Hx'. symmetry. apply Htake. lia.
    + rewrite Htake by lia. exact Hstop.
Qed.

End with_cwd.

End PruneFacts.


(** The removal of an entry of a well-formed tree, with [F] the names of
    the target and [S] those of the stopper. *)
Lemma removeFileAndParents_entry (cwd baseDir destFile : string)
    (stopper : option string) (w : world) :
  Path.isAbsolute cwd = true →
  let F := resolved cwd [baseDir; destFile] in
  let S := resolved cwd [baseDir; default "." (js_or stopper (Some "."))] in
  Fs.existsSync cwd (tree w) (Fs.render F) = true → wf (tree w) →
  is_Some (tree w !! F) →
  ∃ k r w',
    removeFileAndParents cwd baseDir destFile stopper w = (w', r) ∧
    emitted w' = emitted w ∧ wf (tree w') ∧ k < length F ∧
    (∀ q, F `prefix_of` q ∨ pruned (Fs.parent F) k q → tree w' !! q = None) ∧
    (∀ q, ¬ F `prefix_of` q → ¬ pruned (Fs.parent F) k q →
          tree w' !! q = tree w !! q) ∧
    (∀ j, k < j < length F →
       take j F ≠ S ∧
       ∀ x, is_Some (tree w !! (take j F ++ [x])) → take j F ++ [x] = take (Datatypes.S j) F) ∧
    (take k F = S ∧ r = Ok tt ∨
     take k F ≠ S ∧ (∃ x, is_Some (tree w' !! (take k F ++ [x]))) ∧ r = Ok tt ∨
     take k F ≠ S ∧ k = 0 ∧ (∀ x, tree w' !! [x] = None) ∧
       r = Err (SystemError "EBUSY")).
Proof.
  intros Hcwd F S.
  assert (normal_list F) as HF by apply PathFacts.resolved_normal.
  assert (normal_list S) as HS by apply PathFacts.resolved_normal.
  intros Hex Hwf HsF. unfold removeFileAndParents. run.
  rewrite !PathFacts.resolve_render by done. fold F S. rewrite Hex.
  cbn [negb tree emitted].
  rewrite TreeFacts.rmSync_entry by done. cbn [tree emitted].
  rewrite PathFacts.dirname_render by done.
  pose proof (TreeFacts.wf_root _ _ Hwf HsF) as HFne.
  assert (length (Fs.parent F) + 1 = length F) as Hlen.
  { unfold Fs.parent. rewrite length_take. destruct F; [done |]. cbn. lia. }
  assert (∀ j, j ≤ length (Fs.parent F) → take j (Fs.parent F) = take j F) as Htake.
  { intros j Hj. unfold Fs.parent. rewrite take_take. f_equal. 
    unfold Fs.parent in Hj. rewrite length_take in Hj. lia. }
  assert (Fs.parent F `prefix_of` F) as Hpre by apply prefix_take.
  assert (¬ F `prefix_of` Fs.parent F) as Hnpre.
  { intros H%prefix_length. lia. }
  destruct (PruneFacts.prune_dirs cwd Hcwd S (emitted w) HS (Fs.parent F)
              (Fs.remove_subtree (tree w) F)
              (Datatypes.S (String.length (Fs.render F))))
    as (k & r & t' & Hrun & Hk & Hwf' & Hgone & Hkept & Hwhy & Hstop).
  { unfold Fs.parent. by apply Forall_take. }
  { pose proof (PruneFacts.length_join F HF) as Hj.
    unfold Fs.render. rewrite StrFacts.length_sapp. lia. }
  { by apply TreeFacts.wf_remove_subtree. }
  { assert (Fs.node_at (tree w) (Fs.parent F) = Some Fs.Dir) as Hd.
    { apply (TreeFacts.wf_ancestors (tree w) F); [done | done | done |].
      intros E. apply (f_equal length) in E. lia. }
    destruct (Fs.parent F) as [|x A] eqn:EA; [done |]. cbn [Fs.node_at] in *.
    by rewrite TreeFacts.lookup_remove_subtree, decide_False. }
  rewrite Hrun. exists k, r, (World t' (emitted w)). cbn [tree emitted].
  split; [done |]. split; [done |]. split; [done |]. split; [lia |].
  split; [| split; [| split]].
  + intros q [Hq | Hq]; [| by apply Hgone].
    rewrite Hkept; [by rewrite TreeFacts.lookup_remove_subtree, decide_True |].
    intros (j & Hj & ->). apply prefix_length in Hq.
    rewrite length_take in Hq. lia.
  + intros q Hq Hp. rewrite Hkept by done.
    by rewrite TreeFacts.lookup_remove_subtree, decide_False.
  + intros j Hj. destruct (Hwhy j ltac:(lia)) as [HjS Hone].
    rewrite (Htake j) in HjS, Hone by lia. split; [done |].
    intros x Hx.
    destruct (decide (F `prefix_of` take j F ++ [x])) as [Hin | Hout].
    * assert (F = take j F ++ [x]) as E.
      { apply prefix_length_eq; [done |]. rewrite length_app, length_take. cbn. lia. }
      rewrite <-E. symmetry. apply firstn_all2.
      apply (f_equal length) in E. rewrite length_app, length_take in E.
      cbn in E. lia.
    * destruct (Hone x) as [Hj' Hx'].
      { rewrite TreeFacts.lookup_remove_subtree, decide_False by done. exact Hx. }
      rewrite Hx'. apply Htake. lia.
  + rewrite Htake in Hstop by lia. exact Hstop.
Qed.


Lemma wfb_wf (t : Fs.tree) : wfb t = true → wf t.
Proof.
  unfold wfb. rewrite forallb_forall. intros H. split.
  - destruct (t !! []) as [n |] eqn:E; [| done].
    apply elem_of_map_to_list, list_elem_of_In, H in E. done.
  - intros q x [n Hn].
    apply elem_of_map_to_list, list_elem_of_In, H in Hn. cbn [fst] in Hn.
    rewrite TreeFacts.parent_snoc in Hn. destruct (q ++ [x]) eqn:E.
    { by destruct q. }
    by apply bool_decide_eq_true in Hn.
Qed.


(** On the example the file and the directories [c] and [b] go, and [a],
    the stopper, stays with what is beside it. *)
Example removeFileAndParents_example :
  removeFileAndParents "/" "/base" "a/b/c/file.txt" (Some "a") (World Pruning.files [])
  = (World Pruning.after [], Ok tt).
Proof. vm_compute. reflexivity. Qed.

(** ** Install and uninstall below a root directory *)

(** *** Vacant destinations *)

Module VacantFacts.
Import StrFacts PathFacts WalkFacts TreeFacts.

Lemma wf_below_absent (t : Fs.tree) (p q : list string) :
  wf t → p ≠ [] → t !! p = None → p `prefix_of` q → t !! q = None.
Proof.
  intros Hwf Hp Hnone Hpre. apply eq_None_not_Some. intros Hq.
  destruct (decide (p = q)) as [-> | Hne]; [rewrite Hnone in Hq; by destruct Hq |].
  pose proof (wf_ancestors t q p Hwf Hq Hpre Hne) as Hd.
  rewrite node_at_lookup in Hd by done. congruence.
Qed.

Lemma under_length (W q : list string) : under W q → length W < length q.
Proof.
  intros [Hpre Hne]. pose proof (prefix_length _ _ Hpre).
  destruct (decide (length W = length q)) as [E |]; [| lia].
  exfalso. apply Hne. symmetry. apply prefix_length_eq; [done | lia].
Qed.

Lemma under_take (W D : list string) : W `prefix_of` D → take (length W) D = W.
Proof. intros [k ->]. by rewrite take_app_length. Qed.

Lemma take_prefix_le (D : list string) (i j : nat) :
  i ≤ j → take i D `prefix_of` take j D.
Proof.
  intros Hij. replace (take i D) with (take i (take j D))
    by (rewrite take_take; f_equal; lia).
  apply prefix_take.
Qed.

(** The deepest directory of the way that is there. *)
Lemma vacant_depth (W D : list string) (t : Fs.tree) :
  vacant W D t →
  ∃ m, length W ≤ m < length D ∧
       (∀ j, j ≤ m → Fs.node_at t (take j D) = Some Fs.Dir) ∧
       (∀ j q, m < j → take j D `prefix_of` q → t !! q = None).
Proof.
  intros [Hwf Hunder Hroot Hdest Hbetween].
  pose proof (under_length _ _ Hunder) as Hlen. destruct Hunder as [Hpre _].
  assert (∀ j, j ≤ length W → Fs.node_at t (take j D) = Some Fs.Dir) as Hbase.
  { intros j Hj. destruct (decide (j = length W)) as [-> | Hne].
    - by rewrite under_take.
    - destruct W as [|x W]; [cbn in *; lia |]. cbn [Fs.node_at] in Hroot.
      apply (wf_ancestors t (x :: W)); [done | by rewrite Hroot | |].
      + rewrite <-(under_take (x :: W) D Hpre). apply take_prefix_le. lia.
      + intros E. apply (f_equal length) in E. rewrite length_take in E. lia. }
  assert (∀ i, length W + i < length D →
            (∀ j, j ≤ length W + i → Fs.node_at t (take j D) = Some Fs.Dir) ∨
            (∃ m, length W ≤ m < length W + i ∧
                  (∀ j, j ≤ m → Fs.node_at t (take j D) = Some Fs.Dir) ∧
                  t !! take (S m) D = None)) as Hscan.
  { induction i as [|i IH]; intros Hi.
    - left. intros j Hj. apply Hbase. lia.
    - destruct (IH ltac:(lia)) as [Hall | (m & Hm & Hdirs & Hnone)].
      + destruct (t !! take (length W + S i) D) as [n |] eqn:E.
        * left. intros j Hj. destruct (decide (j = length W + S i)) as [-> | Hne];
            [| apply Hall; lia].
          destruct (Hbetween (length W + S i) ltac:(lia) ltac:(by rewrite E))
            as [x Hx].
          apply (proj2 Hwf) in Hx. exact Hx.
        * right. exists (length W + i). split; [lia |]. split; [done |].
          by rewrite <-Nat.add_succ_r.
      + right. exists m. split; [lia | done]. }
  assert (∀ m, m < length D → t !! take (S m) D = None →
               ∀ j q, m < j → take j D `prefix_of` q → t !! q = None) as Habove.
  { intros m Hm Hnone j q Hj Hq.
    apply (wf_below_absent t (take (S m) D)); [done | | done |].
    - intros E. apply (f_equal length) in E. rewrite length_take in E.
      cbn [length] in E. lia.
    - etrans; [| exact Hq]. apply take_prefix_le. lia. }
  destruct (Hscan (length D - 1 - length W) ltac:(lia))
    as [Hall | (m & Hm & Hdirs & Hnone)].
  - exists (length D - 1). split; [lia |]. split.
    + intros j Hj. apply Hall. lia.
    + apply Habove; [lia |].
      replace (S (length D - 1)) with (length D) by lia. by rewrite firstn_all.
  - exists m. split; [lia |]. split; [done |]. apply Habove; [lia | done].
Qed.

End VacantFacts.

(** *** The uninstall restores *)

Module RestoreFacts.
Import StrFacts PathFacts WalkFacts TreeFacts VacantFacts.

Lemma take_length_lt (D : list string) (k : nat) :
  k ≤ length D → length (take k D) = k.
Proof. intros. rewrite length_take. lia. Qed.

Lemma prefix_take_eq (D q : list string) :
  q `prefix_of` D → q = take (length q) D.
Proof. intros [k ->]. by rewrite take_app_length. Qed.

Lemma under_trans (W D q : list string) : under W D → D `prefix_of` q → under W q.
Proof.
  intros HU Hpre. pose proof (under_length _ _ HU) as Hl. destruct HU as [HW _].
  split; [by etrans |]. intros ->. apply prefix_length in Hpre. lia.
Qed.

Lemma under_take_gt (W D : list string) (j : nat) :
  W `prefix_of` D → length W < j ≤ length D → under W (take j D).
Proof.
  intros HW Hj. split.
  - rewrite <- (under_take W D HW). apply take_prefix_le. lia.
  - intros E. apply (f_equal length) in E. rewrite take_length_lt in E; lia.
Qed.

Lemma midway_dec (W D q : list string) : midway W D q ∨ ¬ midway W D q.
Proof.
  destruct (decide (q = take (length q) D ∧ length W < length q < length D))
    as [[E Hl] | Hn].
  - left. by exists (length q).
  - right. intros (j & Hj & E). apply Hn.
    assert (length q = j) as -> by (rewrite E, length_take; lia).
    done.
Qed.

(** The removal of what an install left below [W], from a tree that has
    below [W] what the install left: below [W] the tree is the one before
    the install, elsewhere it does not change. *)
Lemma uninstall_restores (cwd baseDir destFile : string) (W D : list string)
    (t t' t'' : Fs.tree) (e : list (string * string)) :
  Path.isAbsolute cwd = true →
  W = resolved cwd [baseDir] → D = resolved cwd [baseDir; destFile] →
  vacant W D t → installed W D t t' → wf t'' →
  (∀ q, W `prefix_of` q → t'' !! q = t' !! q) →
  ∃ t3,
    removeFileAndParents cwd baseDir destFile None (World t'' e) = (World t3 e, Ok tt) ∧
    wf t3 ∧
    (∀ q, under W q → t3 !! q = t !! q) ∧
    (∀ q, ¬ under W q → t3 !! q = t'' !! q).
Proof.
  intros Hcwd HW HD Hfresh Hinst Hwf'' Hsame.
  pose proof (vacant_depth _ _ _ Hfresh) as (m & Hm & Hdirs & Habsent).
  destruct Hfresh as [Hwf Hunder Hroot Hdest Hbetween].
  destruct Hinst as [Hwf' Hmore (n & HnD & Hnl) Hbtw Hother].
  pose proof (under_length _ _ Hunder) as Hlen.
  pose proof Hunder as [HWD _].
  assert (normal_list D) as HnormD by (subst D; apply resolved_normal).
  assert (D ≠ []) as HD0 by (intros E; rewrite E in Hlen; cbn in Hlen; lia).
  assert (t'' !! D = Some n) as HnD'' by (by rewrite Hsame).
  pose proof (removeFileAndParents_entry cwd baseDir destFile None (World t'' e) Hcwd)
    as Hrm.
  cbn zeta in Hrm. cbn [js_or truthy default tree emitted] in Hrm.
  change [baseDir; id "."] with ([baseDir] ++ ["."]) in Hrm.
  rewrite resolved_here, <- HW, <- HD in Hrm.
  destruct Hrm as (k & r & [t3 e3] & Hrun & He & Hwf3 & Hk & Hgone & Hkept & Hwalk & Hstop).
  { unfold Fs.existsSync.
    rewrite (locate_entry cwd t'' true D n); try done.
    by rewrite node_at_lookup. }
  { done. }
  { by rewrite HnD''. }
  cbn [tree emitted] in *. subst e3.
  assert (length W ≤ k) as HkW.
  { destruct (decide (length W ≤ k)) as [|Hlt]; [done | exfalso].
    destruct (Hwalk (length W)) as [Hne _]; [lia |].
    by rewrite under_take in Hne. }
  assert (m ≤ k) as Hmk.
  { destruct (decide (m ≤ k)) as [|Hlt]; [done | exfalso].
    destruct (Hwalk m) as [Hne Hone]; [lia |].
    assert (length W < m) as HWm.
    { destruct (decide (m = length W)) as [-> |]; [| lia].
      by rewrite under_take in Hne. }
    destruct (Hbetween m) as [x Hx]; [lia | |].
    { pose proof (Hdirs m ltac:(lia)) as Hd.
      rewrite node_at_lookup in Hd; [by rewrite Hd |].
      intros E. apply (f_equal length) in E. rewrite take_length_lt in E; cbn in E; lia. }
    assert (is_Some (t'' !! (take m D ++ [x]))) as Hx''.
    { rewrite Hsame.
      - destruct Hx as [y Hy]. exists y. by apply (lookup_weaken t t').
      - etrans; [| by apply prefix_app_r].
        rewrite <- (under_take W D HWD). apply take_prefix_le. lia. }
    pose proof (Hone x Hx'') as E.
    rewrite E in Hx. rewrite (Habsent (S m) (take (S m) D)) in Hx; [| lia | done].
    by destruct Hx. }
  assert (k = m) as ->.
  { destruct (decide (k = m)) as [|Hne]; [done | exfalso].
    assert (m < k) as Hlt by lia.
    assert (∃ x, is_Some (t3 !! (take k D ++ [x]))) as [x Hx].
    { destruct Hstop as [[E _] | [(_ & Hx & _) | (_ & -> & _)]]; [| done | lia].
      apply (f_equal length) in E. rewrite take_length_lt in E; lia. }
    assert (¬ D `prefix_of` take k D ++ [x]) as HnD1.
    { intros Hp. rewrite Hgone in Hx; [by destruct Hx | by left]. }
    assert (¬ pruned (Fs.parent D) k (take k D ++ [x])) as Hnp.
    { intros Hp. rewrite Hgone in Hx; [by destruct Hx | by right]. }
    rewrite Hkept in Hx by done.
    rewrite Hsame in Hx.
    2:{ etrans; [| by apply prefix_app_r].
        rewrite <- (under_take W D HWD). by apply take_prefix_le. }
    rewrite Hother in Hx; [| done |].
    - rewrite (Habsent (S m) (take k D ++ [x])) in Hx; [by destruct Hx | lia |].
      etrans; [| by apply prefix_app_r]. apply take_prefix_le. lia.
    - intros (j & Hj & E).
      assert (j = S k) as ->.
      { apply (f_equal length) in E. rewrite length_app, !take_length_lt in E by lia.
        cbn in E. lia. }
      apply Hnp. exists (S k). unfold Fs.parent. rewrite length_take.
      split; [lia |]. rewrite E, take_take. f_equal. lia. }
  assert (r = Ok tt) as ->.
  { destruct Hstop as [[_ ->] | [(_ & _ & ->) | (Hne & -> & _)]]; try done.
    exfalso. apply Hne. destruct W; [done | cbn in HkW; lia]. }
  exists t3. split; [done |]. split; [done |]. split.
  - intros q Hq.
    destruct (decide (D `prefix_of` q)) as [HDq | HDq].
    { rewrite Hgone by (by left). symmetry. by apply (wf_below_absent t D). }
    destruct (decide (q = take (length q) D ∧ m < length q < length D)) as [[E Hl] | Hnb].
    { rewrite Hgone.
      - symmetry. apply (Habsent (length q)); [lia | by rewrite <- E].
      - right. exists (length q). unfold Fs.parent. rewrite length_take.
        split; [lia |]. rewrite take_take. rewrite E at 1. f_equal. lia. }
    rewrite Hkept; [| done |].
    2:{ intros (j & Hj & E). unfold Fs.parent in Hj, E. rewrite length_take in Hj.
        rewrite take_take in E. apply Hnb.
        assert (length q = j) as Hlq.
        { rewrite E, length_take. lia. }
        rewrite Hlq. split; [| lia]. rewrite E. f_equal. lia. }
    rewrite Hsame by apply Hq.
    destruct (midway_dec W D q) as [Hb | Hb].
    + rewrite Hbtw by done. destruct Hb as (j & Hj & ->).
      assert (j ≤ m) as Hjm.
      { destruct (decide (j ≤ m)); [done | exfalso]. apply Hnb.
        rewrite !take_length_lt by lia. split; [done | lia]. }
      pose proof (Hdirs j Hjm) as Hd. rewrite node_at_lookup in Hd; [done |].
      intros E. apply (f_equal length) in E. rewrite take_length_lt in E; cbn in E; lia.
    + by apply Hother.
  - intros q Hq. apply Hkept.
    + intros Hp. apply Hq. by apply (under_trans W D).
    + intros (j & Hj & ->). apply Hq. unfold Fs.parent in *.
      rewrite length_take in Hj. rewrite take_take.
      apply under_take_gt; [done | lia].
Qed.

End RestoreFacts.

(** *** What [mkdirSync] and [writeFileSync] install *)

Module InstallFacts.
Import StrFacts PathFacts WalkFacts TreeFacts VacantFacts RestoreFacts.

Lemma snoc_ne_self (p : list string) (x : string) : p ≠ p ++ [x].
Proof. intros E. apply (f_equal length) in E. rewrite length_app in E. cbn in E. lia. Qed.

Lemma wf_insert (t : Fs.tree) (p : list string) (x : string) (n : Fs.node) :
  wf t → Fs.node_at t p = Some Fs.Dir → t !! (p ++ [x]) = None →
  wf (<[p ++ [x] := n]> t).
Proof.
  intros Hwf Hp Hnone. pose proof Hwf as [Hroot Hdirs]. split.
  - rewrite lookup_insert_ne; [done | by destruct p].
  - intros q y Hq.
    destruct (decide (q ++ [y] = p ++ [x])) as [E | Hne].
    + apply app_inj_tail in E as [-> ->].
      destruct p as [|a p]; [done |]. cbn [Fs.node_at].
      rewrite lookup_insert_ne; [done |]. symmetry. apply (snoc_ne_self (a :: p)).
    + rewrite lookup_insert_ne in Hq by done.
      pose proof (Hdirs q y Hq) as Hd.
      destruct q as [|a q]; [done |]. cbn [Fs.node_at] in *.
      rewrite lookup_insert_ne; [done |]. intros E. rewrite <- E in Hd. congruence.
Qed.

Lemma walk_locate (cwd : string) (t : Fs.tree) (follow : bool) (p : list string) :
  normal_list p →
  Fs.walk Fs.MAXSYMLINKS t follow [] p = Fs.locate cwd t follow (Fs.render p).
Proof.
  intros Hp. unfold Fs.locate. by rewrite render_absolute, comps_render.
Qed.

(** The directories [mkdirs] makes below a directory that is there, when
    each of them is a directory or is not there. *)
Lemma mkdirs_dirs (todo : list string) :
  ∀ (done : list string) (t : Fs.tree),
    wf t → normal_list (done ++ todo) → Fs.node_at t done = Some Fs.Dir →
    (∀ j, 0 < j ≤ length todo →
          t !! (done ++ take j todo) = None ∨ t !! (done ++ take j todo) = Some Fs.Dir) →
    ∃ t1,
      Fs.mkdirs t [] done todo = (t1, Ok tt) ∧ wf t1 ∧
      (∀ j, 0 < j ≤ length todo → t1 !! (done ++ take j todo) = Some Fs.Dir) ∧
      (∀ q, (∀ j, 0 < j ≤ length todo → q ≠ done ++ take j todo) → t1 !! q = t !! q).
Proof.
  induction todo as [|c rest IH]; intros done t Hwf Hnorm Hdone Hways.
  - exists t. cbn. split; [done |]. split; [done |]. split; [intros; lia | done].
  - cbn [Fs.mkdirs]. unfold Fs.mkdir1.
    assert (normal_list (done ++ [c])) as Hn1.
    { rewrite (assoc_L (++) done [c] rest : done ++ c :: rest = (done ++ [c]) ++ rest) in Hnorm.
      by apply Forall_app in Hnorm as [? _]. }
    rewrite (walk_locate "/") by done.
    assert (∃ t', match Fs.locate "/" t true (Fs.render (done ++ [c])) with
                  | Fs.Found _ Fs.Dir => (t, Ok tt)
                  | Fs.Found _ _ =>
                      (t, Err (SystemError (if bool_decide (rest = [])
                                            then "EEXIST" else "ENOTDIR")))
                  | Fs.Missing p => (<[p:=Fs.Dir]> t, Ok tt)
                  | Fs.Failed code => (t, Err (SystemError code))
                  end = (t', Ok tt) ∧ wf t' ∧ t' !! (done ++ [c]) = Some Fs.Dir ∧
                (∀ q, q ≠ done ++ [c] → t' !! q = t !! q)) as (t' & -> & Hwf' & Hc & Hrest).
    { destruct (Hways 1) as [Hnone | Hdir]; [cbn; lia | |]; cbn [take] in *.
      - rewrite (locate_missing "/" t true done c) by done.
        exists (<[done ++ [c] := Fs.Dir]> t). split; [done |].
        split; [by apply wf_insert |]. split; [by rewrite lookup_insert_eq |].
        intros q Hq. by rewrite lookup_insert_ne.
      - rewrite (locate_entry "/" t true (done ++ [c]) Fs.Dir); try done.
        + by exists t.
        + by rewrite node_at_snoc. }
    assert (∀ j, (done ++ [c]) ++ take j rest = done ++ take (S j) (c :: rest)) as Eway.
    { intros j. by rewrite <- (assoc_L (++)). }
    destruct (IH (done ++ [c]) t') as (t1 & Hrun & Hwf1 & Hmade & Helse).
    + done.
    + by rewrite <- (assoc_L (++)).
    + by rewrite node_at_snoc.
    + intros j Hj. rewrite Eway. rewrite Hrest.
      * apply Hways. cbn. lia.
      * intros E. apply (f_equal length) in E. rewrite !length_app, length_take in E.
        cbn in E. lia.
    + exists t1. split; [done |]. split; [done |]. split.
      * intros j Hj. destruct j as [|j]; [lia |].
        destruct j as [|j].
        { cbn [take]. rewrite take_0. rewrite Helse; [done |]. intros j Hj' E.
          apply (f_equal length) in E. rewrite !length_app, length_take in E.
          cbn in E. lia. }
        rewrite <- Eway. apply Hmade. cbn in Hj. lia.
      * intros q Hq. rewrite Helse.
        { apply Hrest. apply (Hq 1). cbn. lia. }
        intros j Hj. rewrite Eway. apply Hq. cbn. lia.
Qed.

Lemma parent_length (D : list string) : length (Fs.parent D) = length D - 1.
Proof. unfold Fs.parent. rewrite length_take. lia. Qed.

Lemma parent_last (D : list string) :
  D ≠ [] → ∃ x, D = Fs.parent D ++ [x].
Proof.
  intros HD. destruct (exists_last HD) as (l & x & ->). exists x.
  by rewrite parent_snoc.
Qed.

Lemma normal_take (D : list string) (j : nat) : normal_list D → normal_list (take j D).
Proof. apply Forall_take. Qed.

Lemma take_parent (D : list string) (j : nat) :
  j < length D → take j (Fs.parent D) = take j D.
Proof. intros Hj. unfold Fs.parent. rewrite take_take. f_equal. lia. Qed.

Lemma take_ne_nil (D : list string) (j : nat) : 0 < j → j ≤ length D → take j D ≠ [].
Proof.
  intros Hj Hl E. apply (f_equal length) in E. rewrite length_take in E. cbn in E. lia.
Qed.

(** [mkdirSync] of the directory of a vacant destination. *)
Lemma mkdirSync_vacant (cwd : string) (W D : list string) (t : Fs.tree) :
  vacant W D t → normal_list D →
  ∃ t1,
    Fs.mkdirSync cwd t (Fs.render (Fs.parent D)) = (t1, Ok tt) ∧ wf t1 ∧
    t ⊆ t1 ∧
    (∀ q, midway W D q → t1 !! q = Some Fs.Dir) ∧
    (∀ q, ¬ midway W D q → t1 !! q = t !! q).
Proof.
  intros Hv HnD. pose proof (vacant_depth _ _ _ Hv) as (m & Hm & Hdirs & Habsent).
  pose proof Hv as [Hwf Hunder Hroot Hdest Hmid].
  pose proof (under_length _ _ Hunder) as Hlen. pose proof Hunder as [HWD _].
  unfold Fs.mkdirSync. rewrite render_absolute.
  rewrite comps_render by (by apply normal_take).
  pose proof (parent_length D) as HlP.
  assert (∀ j, 0 < j ≤ length (Fs.parent D) →
            t !! take j D = None ∨ t !! take j D = Some Fs.Dir) as Hways.
  { intros j Hj. destruct (decide (j ≤ m)) as [Hjm | Hjm].
    - right. rewrite <- node_at_lookup; [by apply Hdirs | apply take_ne_nil; lia].
    - left. apply (Habsent j); [lia | done]. }
  destruct (mkdirs_dirs (Fs.parent D) [] t) as (t1 & Hrun & Hwf1 & Hmade & Helse).
  - done.
  - by apply normal_take.
  - done.
  - intros j Hj. cbn [app]. rewrite take_parent by lia. by apply Hways.
  - cbn [app] in *.
    assert (∀ q, ¬ midway W D q → t1 !! q = t !! q) as Hsame.
    { intros q Hq.
      destruct (decide (q = take (length q) D ∧ 0 < length q < length D)) as [[E Hl] | Hn].
      - rewrite E. rewrite <- (take_parent D (length q)) at 1 by lia.
        rewrite Hmade by lia. symmetry.
        rewrite <- node_at_lookup by (apply take_ne_nil; lia). apply Hdirs.
        destruct (decide (length q ≤ length W)); [lia |]. exfalso. apply Hq.
        exists (length q). split; [lia | done].
      - apply Helse. intros j Hj E. apply Hn. rewrite take_parent in E by lia.
        rewrite E, length_take. replace (j `min` length D) with j by lia.
        split; [done | lia]. }
    exists t1. split; [done |]. split; [done |]. split; [| split; [| done]].
    + apply map_subseteq_spec. intros q n Hq.
      destruct (midway_dec W D q) as [(j & Hj & ->) | Hnm].
      * rewrite <- (take_parent D j) by lia. rewrite Hmade by lia.
        destruct (Hways j) as [E | E]; [lia | congruence | congruence].
      * by rewrite Hsame.
    + intros q (j & Hj & ->). rewrite <- (take_parent D j) by lia. apply Hmade. lia.
Qed.

(** What [mkdirSync] and [writeFileSync] make of a vacant tree. *)
Lemma write_installed (cwd : string) (W D : list string) (t : Fs.tree) (data : string) :
  vacant W D t → normal_list D →
  ∃ t1 t2,
    Fs.mkdirSync cwd t (Fs.render (Fs.parent D)) = (t1, Ok tt) ∧
    Fs.writeFileSync cwd t1 (Fs.render D) data = (t2, Ok tt) ∧
    installed W D t t2.
Proof.
  intros Hv HnD.
  destruct (mkdirSync_vacant cwd W D t Hv HnD) as (t1 & Hrun & Hwf1 & Hsub & Hmade & Hsame).
  pose proof Hv as [Hwf Hunder Hroot Hdest Hmid].
  pose proof (under_length _ _ Hunder) as Hlen. pose proof Hunder as [HWD _].
  assert (D ≠ []) as HD0 by (intros E; rewrite E in Hlen; cbn in Hlen; lia).
  destruct (parent_last D HD0) as [x Ex].
  assert (¬ midway W D D) as HnmD.
  { intros (j & Hj & E). apply (f_equal length) in E. rewrite length_take in E. lia. }
  assert (t1 !! D = None) as HD1 by (by rewrite Hsame).
  assert (Fs.node_at t1 (Fs.parent D) = Some Fs.Dir) as Hpar.
  { destruct (decide (length D = S (length W))) as [El | El].
    - assert (Fs.parent D = W) as ->.
      { unfold Fs.parent. replace (length D - 1) with (length W) by lia.
        by apply under_take. }
      destruct W as [|a W]; [done |]. cbn [Fs.node_at] in *. rewrite Hsame; [done |].
      intros (j & Hj & E). apply (f_equal length) in E. rewrite length_take in E. lia.
    - rewrite node_at_lookup.
      + apply Hmade. exists (length D - 1). split; [lia | done].
      + unfold Fs.parent. apply take_ne_nil; lia. }
  exists t1, (<[D := Fs.File data]> t1). split; [done |]. split.
  - unfold Fs.writeFileSync. rewrite Ex at 1.
    rewrite (locate_missing cwd t1 true (Fs.parent D) x); rewrite <- ?Ex; done.
  - split.
    + rewrite Ex. apply wf_insert; rewrite <- ?Ex; done.
    + etrans; [apply Hsub |]. by apply insert_subseteq.
    + exists (Fs.File data). split; [by rewrite lookup_insert_eq | done].
    + intros q Hq. rewrite lookup_insert_ne; [by apply Hmade |].
      intros <-. by apply HnmD.
    + intros q HDq Hq. rewrite lookup_insert_ne; [by apply Hsame |].
      intros <-. by apply HDq.
Qed.

End InstallFacts.

(** *** What [cpSync] installs *)

Module CopyFacts.
Import StrFacts PathFacts WalkFacts TreeFacts VacantFacts RestoreFacts InstallFacts.

(** What a walk finds stays found when entries are added. *)
Lemma walk_found_mono (links : nat) (t t' : Fs.tree) (follow : bool)
    (cur names p : list string) (n : Fs.node) :
  t ⊆ t' →
  Fs.walk links t follow cur names = Fs.Found p n →
  Fs.walk links t' follow cur names = Fs.Found p n.
Proof.
  intros Hsub. revert p n.
  pattern links, cur, names, (Fs.walk links t follow cur names).
  apply walk_ind; clear links cur names.
  - intros links cur p n. rewrite !walk_nil.
    destruct (Fs.node_at t cur) as [m |] eqn:E; [| done]. intros [= <- <-].
    destruct cur as [|c cur]; cbn [Fs.node_at] in *; [by injection E as <- |].
    by rewrite (lookup_weaken _ _ _ _ E Hsub).
  - intros links cur c rest Hup Hdir Hlink p n. rewrite !walk_cons.
    destruct (String.eqb_spec c "..") as [-> | Hc]; [by apply Hup |].
    destruct (t !! (cur ++ [c])) as [[y | | target] |] eqn:E.
    + rewrite (lookup_weaken _ _ _ _ E Hsub). by destruct rest.
    + rewrite (lookup_weaken _ _ _ _ E Hsub). by apply Hdir.
    + rewrite (lookup_weaken _ _ _ _ E Hsub).
      destruct (bool_decide (rest = []) && negb follow) eqn:Eb; [done |].
      destruct (Str.is_empty target) eqn:Et; [done |].
      destruct links as [|links']; [done |]. by eapply Hlink.
    + by destruct rest.
Qed.

Lemma locate_found_mono (cwd : string) (t t' : Fs.tree) (follow : bool)
    (path : string) (p : list string) (n : Fs.node) :
  t ⊆ t' →
  Fs.locate cwd t follow path = Fs.Found p n →
  Fs.locate cwd t' follow path = Fs.Found p n.
Proof. unfold Fs.locate. apply walk_found_mono. Qed.

(** The entries [cpSync] reads below the source. *)
Lemma elem_of_cp_entries (t : Fs.tree) (ps rel : list string) (n : Fs.node) :
  (rel, n) ∈ Fs.cp_entries t ps ↔ t !! (ps ++ rel) = Some n.
Proof.
  unfold Fs.cp_entries. rewrite list_elem_of_omap. split.
  - intros ([k m] & Hin & Hk). apply elem_of_map_to_list in Hin. cbn [fst snd] in Hk.
    destruct (decide (ps `prefix_of` k)) as [[r ->] |]; [| done].
    injection Hk as <- <-. by rewrite drop_app_length.
  - intros Hn. exists (ps ++ rel, n). split; [by apply elem_of_map_to_list |].
    cbn [fst snd]. rewrite decide_True by (by apply prefix_app_r).
    by rewrite drop_app_length.
Qed.

(** What [cp_write] leaves at a path: the copy of an entry read, or what
    was there. *)
Lemma cp_write_lookup (cwd src : string) (pd : list string) (t : Fs.tree)
    (entries : list (list string * Fs.node)) (q : list string) :
  (∃ e, e ∈ entries ∧ q = pd ++ e.1 ∧
        Fs.cp_write cwd src pd t entries !! q
        = Some (Fs.cp_node cwd (Path.join (src :: e.1)) e.2)) ∨
  ((∀ e, e ∈ entries → q ≠ pd ++ e.1) ∧
   Fs.cp_write cwd src pd t entries !! q = t !! q).
Proof.
  induction entries as [|e entries IH]; cbn [Fs.cp_write foldr].
  - right. split; [| done]. intros e He. by apply elem_of_nil in He.
  - destruct (decide (q = pd ++ e.1)) as [-> | Hne].
    + left. exists e. split; [by left |]. split; [done |]. by rewrite lookup_insert_eq.
    + rewrite lookup_insert_ne by done.
      destruct IH as [(e' & He' & Hq & Hl) | [Hall Hl]].
      * left. exists e'. split; [by right |]. done.
      * right. split; [| done]. intros e' He'. apply elem_of_cons in He' as [-> | He'];
          [done | by apply Hall].
Qed.

Lemma cp_node_plain (cwd srcItem : string) (n : Fs.node) :
  (∀ target, n ≠ Fs.Symlink target) → Fs.cp_node cwd srcItem n = n.
Proof. intros Hn. destruct n; try done. by destruct (Hn target). Qed.

(** What [cpSync] makes of a vacant tree whose directories of the way
    were made. *)
Lemma cpSync_installed (cwd : string) (W D : list string) (t t1 t2 : Fs.tree)
    (src : string) (ps : list string) (n : Fs.node) :
  vacant W D t → normal_list D →
  wf t1 → t ⊆ t1 →
  (∀ q, midway W D q → t1 !! q = Some Fs.Dir) →
  (∀ q, ¬ midway W D q → t1 !! q = t !! q) →
  Fs.locate cwd t1 false src = Fs.Found ps n →
  (∀ target, n ≠ Fs.Symlink target) →
  Fs.cpSync cwd t1 src (Fs.render D) = (t2, Ok tt) →
  installed W D t t2.
Proof.
  intros Hv HnD Hwf1 Hsub Hmade Hsame Hsrc Hn Hcp.
  pose proof Hv as [Hwf Hunder Hroot Hdest Hmid].
  pose proof (under_length _ _ Hunder) as Hlen. pose proof Hunder as [HWD _].
  assert (D ≠ []) as HD0 by (intros E; rewrite E in Hlen; cbn in Hlen; lia).
  destruct (parent_last D HD0) as [x Ex].
  assert (¬ midway W D D) as HnmD.
  { intros (j & Hj & E). apply (f_equal length) in E. rewrite length_take in E. lia. }
  assert (t1 !! D = None) as HD1 by (by rewrite Hsame).
  assert (Fs.node_at t1 (Fs.parent D) = Some Fs.Dir) as Hpar.
  { destruct (decide (length D = S (length W))) as [El | El].
    - assert (Fs.parent D = W) as ->.
      { unfold Fs.parent. replace (length D - 1) with (length W) by lia.
        by apply under_take. }
      destruct W as [|a W]; [done |]. cbn [Fs.node_at] in *. rewrite Hsame; [done |].
      intros (j & Hj & E). apply (f_equal length) in E. rewrite length_take in E. lia.
    - rewrite node_at_lookup.
      + apply Hmade. exists (length D - 1). split; [lia | done].
      + unfold Fs.parent. apply take_ne_nil; lia. }
  assert (Fs.locate cwd t1 false (Fs.render D) = Fs.Missing D) as HlocD.
  { rewrite Ex at 1. rewrite (locate_missing cwd t1 false (Fs.parent D) x);
      rewrite <- ?Ex; done. }
  assert (∀ q, D `prefix_of` q → t1 !! q = None) as Hbelow.
  { intros q Hq. by apply (wf_below_absent t1 D). }
  unfold Fs.cpSync in Hcp. rewrite Hsrc, HlocD in Hcp.
  destruct (decide (ps `prefix_of` D)) as [Hps | Hps]; [done |].
  rewrite dirname_render in Hcp by done.
  unfold Fs.existsSync in Hcp.
  rewrite (locate_entry cwd t1 true (Fs.parent D) Fs.Dir) in Hcp;
    [| done | by apply normal_take | done | done].
  rewrite HlocD in Hcp.
  destruct (list_find _ _) as [[i e] |] in Hcp; [done |].
  injection Hcp as <-.
  assert (ps ≠ []) as Hps0 by (intros ->; apply Hps; apply prefix_nil).
  assert (t1 !! ps = Some n) as Hpsn.
  { apply walk_found_node in Hsrc. by rewrite node_at_lookup in Hsrc. }
  set (entries := Fs.cp_entries t1 ps).
  assert (∀ e, e ∈ entries → t1 !! (ps ++ e.1) = Some e.2) as Hent.
  { intros [rel m] He. by apply elem_of_cp_entries. }
  split.
  - split.
    + destruct (cp_write_lookup cwd src D t1 entries []) as [(e & _ & E & _) | [_ ->]].
      * symmetry in E. by apply app_nil in E as [? _].
      * apply Hwf1.
    + intros q y Hq.
      destruct (cp_write_lookup cwd src D t1 entries (q ++ [y]))
        as [(e & He & E & Hl) | [Hno Hl]].
      * pose proof (Hent e He) as Hte. destruct e as [rel m]. cbn [fst snd] in *.
        destruct (decide (rel = [])) as [-> | Hrel].
        -- rewrite app_nil_r in E.
           assert (q = Fs.parent D) as -> by (by rewrite <- E, parent_snoc).
           destruct (decide (Fs.parent D = [])) as [-> | HP]; [done |].
           rewrite node_at_lookup by done. rewrite node_at_lookup in Hpar by done.
           destruct (cp_write_lookup cwd src D t1 entries (Fs.parent D))
             as [(e' & _ & E' & _) | [_ ->]]; [| done].
           apply (f_equal length) in E'. rewrite length_app, parent_length in E'. lia.
        -- destruct (exists_last Hrel) as (rel' & z & ->).
           rewrite (assoc_L (++)) in E. apply app_inj_tail in E as [-> ->].
           assert (t1 !! (ps ++ rel') = Some Fs.Dir) as Hdir.
           { rewrite <- node_at_lookup by (by destruct ps).
             apply (proj2 Hwf1 (ps ++ rel') z). rewrite <- (assoc_L (++)).
             by rewrite Hte. }
           rewrite node_at_lookup by (by destruct D).
           destruct (cp_write_lookup cwd src D t1 entries (D ++ rel'))
             as [(e' & He' & E' & ->) | [Hno _]].
           ++ apply app_inv_head in E'. pose proof (Hent e' He') as Hte'.
              rewrite <- E', Hdir in Hte'. by injection Hte' as <-.
           ++ exfalso. apply (Hno (rel', Fs.Dir)); [| done].
              by apply elem_of_cp_entries.
      * rewrite Hl in Hq. pose proof (proj2 Hwf1 q y Hq) as Hd.
        destruct q as [|a q]; [done |]. cbn [Fs.node_at] in *.
        destruct (cp_write_lookup cwd src D t1 entries (a :: q))
          as [(e' & _ & E' & _) | [_ ->]]; [| done].
        rewrite Hbelow in Hq; [by destruct Hq |].
        rewrite E'. apply prefix_app_r. by apply prefix_app_r.
  - etrans; [apply Hsub |]. apply map_subseteq_spec. intros q v Hq.
    destruct (cp_write_lookup cwd src D t1 entries q) as [(e & _ & E & _) | [_ ->]];
      [| done].
    rewrite Hbelow in Hq; [done |]. rewrite E. by apply prefix_app_r.
  - exists n. split; [| done].
    destruct (cp_write_lookup cwd src D t1 entries D) as [(e & He & E & ->) | [Hno _]].
    + assert (e.1 = []) as E1.
      { apply (f_equal length) in E. rewrite length_app in E.
        destruct (e.1); [done | cbn in E; lia]. }
      pose proof (Hent e He) as Hte. rewrite E1, app_nil_r, Hpsn in Hte.
      injection Hte as <-. by rewrite cp_node_plain.
    + exfalso. apply (Hno ([], n)); [| by rewrite app_nil_r].
      apply elem_of_cp_entries. by rewrite app_nil_r.
  - intros q Hq.
    destruct (cp_write_lookup cwd src D t1 entries q) as [(e & _ & E & _) | [_ ->]];
      [| by apply Hmade].
    destruct Hq as (j & Hj & Eq). rewrite Eq in E. apply (f_equal length) in E.
    rewrite length_app, length_take in E. lia.
  - intros q HDq Hq.
    destruct (cp_write_lookup cwd src D t1 entries q) as [(e & _ & E & _) | [_ ->]];
      [| by apply Hsame].
    exfalso. apply HDq. rewrite E. by apply prefix_app_r.
Qed.

(** An install below [W1] leaves what is below a root [W2] that is not on
    the way of [W1] as it is. *)
Lemma installed_frame (W1 D1 W2 : list string) (t t1 : Fs.tree) :
  installed W1 D1 t t1 → W1 `prefix_of` D1 →
  ¬ W1 `prefix_of` W2 → ¬ W2 `prefix_of` W1 →
  ∀ q, W2 `prefix_of` q → t1 !! q = t !! q.
Proof.
  intros Hinst HWD H12 H21 q Hq.
  assert (¬ W1 `prefix_of` q) as Hn.
  { intros H1. destruct (prefix_weak_total W1 W2 q); done. }
  apply (installed_other _ _ _ _ Hinst).
  - intros HD. apply Hn. by etrans.
  - intros (j & Hj & ->). apply Hn.
    rewrite <- (under_take W1 D1 HWD). apply take_prefix_le. lia.
Qed.

Lemma vacant_frame (W1 D1 W2 D2 : list string) (t t1 : Fs.tree) :
  installed W1 D1 t t1 → W1 `prefix_of` D1 →
  ¬ W1 `prefix_of` W2 → ¬ W2 `prefix_of` W1 →
  vacant W2 D2 t → vacant W2 D2 t1.
Proof.
  intros Hinst HWD H12 H21 [Hwf Hunder Hroot Hdest Hmid].
  pose proof (installed_frame _ _ _ _ _ Hinst HWD H12 H21) as Hfr.
  pose proof (under_length _ _ Hunder) as Hlen. pose proof Hunder as [HWD2 _].
  assert (∀ j, length W2 ≤ j → W2 `prefix_of` take j D2) as Hpre.
  { intros j Hj. rewrite <- (under_take W2 D2 HWD2). by apply take_prefix_le. }
  split.
  - apply (installed_wf _ _ _ _ Hinst).
  - done.
  - destruct W2 as [|a W2]; [done |]. cbn [Fs.node_at] in *. by rewrite Hfr.
  - by rewrite Hfr.
  - intros j Hj. rewrite Hfr by (apply Hpre; lia). intros Hs.
    destruct (Hmid j Hj Hs) as [x Hx]. exists x. rewrite Hfr; [done |].
    apply prefix_app_r. apply Hpre. lia.
Qed.

End CopyFacts.


(** *** Install, then uninstall *)

Module RoundTripFacts.
Import StrFacts PathFacts JoinFacts WalkFacts TreeFacts VacantFacts RestoreFacts
  InstallFacts CopyFacts.

Lemma plain_inv (s : string) : plain s → s ≠ "" ∧ Path.isAbsolute s = false.
Proof.
  intros Hs. split.
  - intros ->. apply Forall_cons in Hs as [Hw _]. by vm_compute in Hw.
  - destruct (Path.isAbsolute s) eqn:E; [| done].
    apply isAbsolute_split in E as [l E]. unfold plain in Hs. rewrite E in Hs.
    apply Forall_cons in Hs as [Hw _]. by vm_compute in Hw.
Qed.


Lemma resolved_snoc_plain (cwd : string) (args : list string) (b : string) :
  plain b → resolved cwd (args ++ [b]) = resolved cwd args ++ Str.split b.
Proof.
  intros Hb. pose proof (plain_inv b Hb) as [Hb0 Hrel].
  rewrite resolved_snoc_relative by done.
  rewrite fold_norm_normal by done. by rewrite rev_app_distr, !rev_involutive.
Qed.


End RoundTripFacts.

(** *** The handlers of js-module and asset *)

Module HandlerFacts.
Import StrFacts PathFacts JoinFacts WalkFacts TreeFacts VacantFacts RestoreFacts
  InstallFacts CopyFacts RoundTripFacts.

Lemma ready_resolved (cwd : string) (project : Project.t) (options : option Options.t)
    (rel : string) (t : Fs.tree) :
  Path.isAbsolute cwd = true →
  ready cwd project options rel t →
  vacant (resolved cwd [Project.www project]) (resolved cwd [Project.www project; rel]) t ∧
  (opt Options.usePlatformWww options = true →
   vacant (resolved cwd [Project.platformWww project])
          (resolved cwd [Project.platformWww project; rel]) t ∧
   ¬ resolved cwd [Project.www project] `prefix_of` resolved cwd [Project.platformWww project] ∧
   ¬ resolved cwd [Project.platformWww project] `prefix_of` resolved cwd [Project.www project]).
Proof.
  intros Hcwd. unfold ready. cbn zeta.
  rewrite !resolve_render by done.
  by rewrite !comps_render by apply resolved_normal.
Qed.


(** What [copyFile] makes of a vacant tree, for a source that is a file
    or a directory. *)
Lemma copyFile_installed (cwd plugin_dir src base target : string) (t : Fs.tree)
    (e : list (string * string)) (ps : list string) (n : Fs.node) (w1 : world) :
  Path.isAbsolute cwd = true →
  vacant (resolved cwd [base]) (resolved cwd [base; target]) t →
  Fs.locate cwd t false (Path.resolve cwd [plugin_dir; src]) = Fs.Found ps n →
  (∀ link, n ≠ Fs.Symlink link) →
  copyFile cwd plugin_dir (Some src) base target false (World t e) = (w1, Ok tt) →
  ∃ t2, w1 = World t2 e ∧
        installed (resolved cwd [base]) (resolved cwd [base; target]) t t2.
Proof.
  intros Hcwd Hv Hsrc Hn. unfold copyFile. run.
  destruct (Fs.existsSync cwd _ _); cbn [negb]; [| discriminate].
  destruct (Fs.realpathSync cwd _ (Path.resolve _ _)) as [real |]; [| discriminate].
  destruct (Fs.realpathSync cwd _ plugin_dir) as [real_plugin |]; [| discriminate].
  destruct (isPathInside cwd real real_plugin); cbn [negb]; [| discriminate].
  destruct (isPathInside cwd _ base); cbn [negb]; [| discriminate].
  cbn [tree emitted].
  rewrite (resolve_render cwd [base; target]) by done.
  rewrite dirname_render by apply resolved_normal.
  destruct (mkdirSync_vacant cwd _ _ t Hv (resolved_normal _ _))
    as (t1 & -> & Hwf1 & Hsub & Hmade & Hsame).
  cbn [tree emitted].
  destruct (Fs.cpSync cwd t1 _ _) as [t2 [[] | err]] eqn:Ecp; [| discriminate].
  intros [= <-]. exists t2. split; [done |].
  eapply cpSync_installed; try done.
  - apply resolved_normal.
  - by apply (locate_found_mono cwd t t1).
Qed.


End HandlerFacts.


(** *** The round trip, and where it fails *)

Lemma vacantb_vacant (W D : list string) (t : Fs.tree) :
  vacantb W D t = true → vacant W D t.
Proof.
  unfold vacantb. rewrite !andb_true_iff, negb_true_iff.
  intros [[[[[Hwf Hpre] Hne] Hroot] Hdest] Hmid].
  apply bool_decide_eq_true in Hpre, Hroot, Hdest. apply bool_decide_eq_false in Hne.
  split; [by apply wfb_wf | done | done | done |].
  intros j Hj Hs. rewrite forallb_forall in Hmid.
  specialize (Hmid j). destruct Hs as [n Hn]. rewrite Hn in Hmid.
  destruct (Fs.children t (take j D)) as [|x l] eqn:Ec.
  - exfalso. assert (negb (bool_decide ([] = @nil string)) = true) as Hf.
    { apply Hmid. apply list_elem_of_In, elem_of_seq. lia. }
    by rewrite bool_decide_eq_true_2 in Hf.
  - exists x. apply TreeFacts.elem_of_children. rewrite Ec. by left.
Qed.


Lemma ready_example (rel : string) (D1 D2 : list string) :
  Fs.comps (Path.resolve "/" ["/proj/www"; rel]) = D1 →
  Fs.comps (Path.resolve "/" ["/proj/platform_www"; rel]) = D2 →
  vacantb ["proj"; "www"] D1 Example.files = true →
  vacantb ["proj"; "platform_www"] D2 Example.files = true →
  ready "/" Example.project (Some (Options.Make false false true)) rel Example.files.
Proof.
  intros E1 E2 H1 H2. unfold ready. cbn zeta.
  change (Project.www Example.project) with "/proj/www".
  change (Project.platformWww Example.project) with "/proj/platform_www".
  rewrite E1, E2.
  change (Fs.comps (Path.resolve "/" ["/proj/www"])) with ["proj"; "www"].
  change (Fs.comps (Path.resolve "/" ["/proj/platform_www"])) with ["proj"; "platform_www"].
  split; [by apply vacantb_vacant |]. intros _.
  split; [by apply vacantb_vacant |].
  split; intros [k E]; discriminate E.
Defined.


(** ** More of the handlers *)

Module InsideFacts.
Import StrFacts PathFacts JoinFacts WalkFacts TreeFacts VacantFacts RestoreFacts.

(** What [strip_common] leaves: a common start taken off both lists, and
    rests that start with different names. *)
Lemma strip_common_spec (a b : list string) :
  ∃ c, a = c ++ (Path.strip_common a b).1 ∧ b = c ++ (Path.strip_common a b).2 ∧
       ∀ x up y down, (Path.strip_common a b).1 = x :: up →
                      (Path.strip_common a b).2 = y :: down → x ≠ y.
Proof.
  revert b. induction a as [|x a IH]; intros b.
  - exists []. cbn. split; [done |]. split; [done |]. intros; discriminate.
  - destruct b as [|y b].
    + exists []. cbn. split; [done |]. split; [done |]. intros; discriminate.
    + cbn [Path.strip_common]. destruct (String.eqb_spec x y) as [-> | Hne].
      * destruct (IH b) as (c & Ea & Eb & Hd). exists (y :: c). cbn [app].
        split; [by rewrite <- Ea |]. split; [by rewrite <- Eb | done].
      * exists []. cbn. split; [done |]. split; [done |].
        intros ? ? ? ? [= <- _] [= <- _]. done.
Qed.

Lemma join_names_shape (down : list string) :
  normal_list down → down ≠ [] →
  Str.join down ≠ "" ∧ Str.join down ≠ ".." ∧
  Str.startsWith "../" (Str.join down) = false ∧
  Path.isAbsolute (Str.join down) = false.
Proof.
  intros Hn H0. pose proof (split_join down H0 (normal_list_no_slash _ Hn)) as Es.
  destruct down as [|w down]; [done |]. apply Forall_cons in Hn as [Hw Hn].
  apply normal_seg_inv in Hw as (Hw1 & Hw2 & Hw3 & Hw4).
  split; [| split; [| split]].
  - intros E. rewrite E in Es. cbn in Es. by injection Es as <-.
  - intros E. rewrite E in Es. vm_compute in Es. by injection Es as <-.
  - destruct (Str.startsWith "../" _) eqn:E; [| done].
    apply startsWith_inv in E. rewrite E in Es.
    change ("../" +:+ ?r) with (".." +:+ "/" +:+ r) in Es.
    rewrite split_app in Es. vm_compute (Str.split "..") in Es.
    by injection Es as <-.
  - destruct (Path.isAbsolute _) eqn:E; [| done].
    apply isAbsolute_split in E as [l E]. rewrite E in Es. by injection Es as <-.
Qed.

Lemma join_ups_shape (up down : list string) :
  up ≠ [] →
  let r := Str.join (((λ _ : string, "..") <$> up) ++ down) in
  r = ".." ∨ Str.startsWith "../" r = true.
Proof.
  intros H0. destruct up as [|x up]; [done |]. cbn [fmap list_fmap app].
  destruct (((λ _ : string, "..") <$> up) ++ down) as [|y l] eqn:E.
  - by left.
  - right. cbn zeta. rewrite join_cons by done.
    change (".." +:+ "/" +:+ ?r) with ("../" +:+ r). apply startsWith_app.
Qed.

(** The package is-path-inside, on names: the child is inside the parent
    when the names of the parent are the first names of the child and the
    child has more. *)
Lemma isPathInside_under (cwd childPath parentPath : string) :
  Path.isAbsolute cwd = true →
  isPathInside cwd childPath parentPath = true
  ↔ under (resolved cwd [parentPath]) (resolved cwd [childPath]).
Proof.
  intros Hcwd. unfold isPathInside, Path.relative.
  rewrite !resolve_render by done.
  set (P := resolved cwd [parentPath]). set (C := resolved cwd [childPath]).
  assert (normal_list P) as HP by apply resolved_normal.
  assert (normal_list C) as HC by apply resolved_normal.
  assert (¬ under P P) as Hirr by (by intros [_ ?]).
  destruct (String.eqb_spec parentPath childPath) as [-> | Hstr].
  { cbn. split; [done |]. intros H. by apply Hirr in H. }
  destruct (String.eqb_spec (Fs.render P) (Fs.render C)) as [E | Hne].
  { apply render_inj in E; [| done | done]. cbn. split; [done |].
    rewrite <- E. intros H. by apply Hirr in H. }
  rewrite !segments_render by done.
  destruct (strip_common_spec P C) as (c & EP & EC & Hdiff).
  destruct (Path.strip_common P C) as [up down]. cbn [fst snd] in *.
  destruct up as [|x up].
  - rewrite app_nil_r in EP. subst c. cbn [fmap list_fmap app].
    assert (down ≠ []) as Hd.
    { intros ->. rewrite app_nil_r in EC. apply Hne. by rewrite EC. }
    assert (normal_list down) as Hnd.
    { rewrite EC in HC. by apply Forall_app in HC as [_ ?]. }
    destruct (join_names_shape down Hnd Hd) as (H1 & H2 & H3 & H4).
    apply is_empty_false in H1. rewrite H1, H3. cbn [negb andb].
    destruct (String.eqb_spec (Str.join down) "..") as [E |]; [done |].
    destruct (String.eqb_spec (Str.join down) (Fs.render C)) as [E |].
    { rewrite E, render_absolute in H4. done. }
    cbn. split; [| done]. intros _. split.
    + rewrite EC. by apply prefix_app_r.
    + intros E. apply Hne. by rewrite E.
  - split.
    + intros H. exfalso.
      destruct (join_ups_shape (x :: up) down) as [E | E]; [done | |];
        cbn zeta in E; rewrite E in H.
      * by rewrite !andb_false_r in H.
      * cbn [negb] in H. by rewrite !andb_false_r in H.
    + intros [Hpre _]. exfalso. rewrite EP, EC in Hpre.
      apply prefix_app_inv in Hpre. destruct down as [|y down].
      * apply prefix_nil_inv in Hpre. done.
      * apply prefix_cons_inv_1 in Hpre. by apply (Hdiff x up y down).
Qed.

End InsideFacts.

Module ErrorFacts.
Import StrFacts PathFacts JoinFacts WalkFacts TreeFacts InsideFacts.

Lemma system_errors_ret {A} (a : A) : system_errors (mret a).
Proof. intros w w' e. unfold mret, M_ret. congruence. Qed.

Lemma system_errors_bind {A B} (m : M A) (k : A → M B) :
  system_errors m → (∀ a, system_errors (k a)) → system_errors (m ≫= k).
Proof.
  intros Hm Hk w w' e. unfold mbind, M_bind.
  destruct (m w) as [w1 [a | e1]] eqn:E.
  - apply Hk.
  - intros [= <- <-]. by eapply Hm.
Qed.

Lemma failure_system {A} (l : Fs.located) (e : error) :
  @Fs.failure A l = Err e → ∃ code, e = SystemError code.
Proof. destruct l; cbn; intros [= <-]; eauto. Qed.

Lemma system_errors_fs_read {A} (f : Fs.tree → A) : system_errors (fs_read f).
Proof. intros w w' e. unfold fs_read. congruence. Qed.

Lemma system_errors_fs_try {A} (f : Fs.tree → res A) :
  (∀ t e, f t = Err e → ∃ code, e = SystemError code) → system_errors (fs_try f).
Proof. intros Hf w w' e. unfold fs_try. intros [= _ E]. by eapply Hf. Qed.

Lemma system_errors_fs_write {A} (f : Fs.tree → Fs.tree * res A) :
  (∀ t t' e, f t = (t', Err e) → ∃ code, e = SystemError code) →
  system_errors (fs_write f).
Proof.
  intros Hf w w' e. unfold fs_write. destruct (f (tree w)) as [t' r] eqn:E.
  intros [= _ ->]. by eapply Hf.
Qed.

Lemma system_errors_existsSync cwd path : system_errors (existsSync cwd path).
Proof. apply system_errors_fs_read. Qed.

Lemma system_errors_realpathSync cwd path : system_errors (realpathSync cwd path).
Proof.
  apply system_errors_fs_try. intros t e. unfold Fs.realpathSync.
  destruct (Fs.locate cwd t true path) as [p n | p | c]; cbn; intros [= <-]; eauto.
Qed.

Lemma system_errors_statSync cwd path : system_errors (statSync_isDirectory cwd path).
Proof.
  apply system_errors_fs_try. intros t e. unfold Fs.statSync_isDirectory.
  destruct (Fs.locate cwd t true path) as [p [] | p | c]; cbn; intros [= <-]; eauto.
Qed.

Lemma system_errors_readdirSync cwd path : system_errors (readdirSync cwd path).
Proof.
  apply system_errors_fs_try. intros t e. unfold Fs.readdirSync.
  destruct (Fs.locate cwd t true path) as [p [] | p | c]; cbn; intros [= <-]; eauto.
Qed.

Lemma system_errors_rmSync cwd path : system_errors (rmSync cwd path).
Proof.
  apply system_errors_fs_write. intros t t' e. unfold Fs.rmSync.
  destruct (Fs.locate cwd t false path) as [[|x p] [] | p | c]; cbn;
    try (intros [= _ <-]; eauto; fail); try discriminate.
  destruct (String.eqb c "ENOENT"); [discriminate |]. intros [= _ <-]; eauto.
Qed.

Lemma system_errors_rmdirSync cwd path : system_errors (rmdirSync cwd path).
Proof.
  apply system_errors_fs_write. intros t t' e. unfold Fs.rmdirSync.
  destruct (Fs.locate cwd t false path) as [[|x p] [] | p | c]; cbn;
    try (intros [= _ <-]; eauto; fail).
  destruct (Fs.children _ _); [discriminate |]. intros [= _ <-]; eauto.
Qed.

Lemma mkdirs_system (todo : list string) :
  ∀ t start done t' e,
    Fs.mkdirs t start done todo = (t', Err e) → ∃ code, e = SystemError code.
Proof.
  induction todo as [|c rest IH]; intros t start done t' e; cbn [Fs.mkdirs].
  - discriminate.
  - destruct (Fs.mkdir1 t start (done ++ [c]) (bool_decide (rest = [])))
      as [t1 [[] | e1]] eqn:E1.
    + apply IH.
    + intros [= _ <-]. unfold Fs.mkdir1 in E1.
      destruct (Fs.walk _ _ _ _ _) as [p [] | p | code]; try discriminate;
        injection E1 as _ <-; eauto.
Qed.

Lemma system_errors_mkdirSync cwd path : system_errors (mkdirSync cwd path).
Proof.
  apply system_errors_fs_write. intros t t' e. unfold Fs.mkdirSync. apply mkdirs_system.
Qed.

Lemma system_errors_symlinkSync cwd target path :
  system_errors (symlinkSync cwd target path).
Proof.
  apply system_errors_fs_write. intros t t' e. unfold Fs.symlinkSync.
  destruct (Fs.locate cwd t false path) as [p n | p | c]; intros [= _ <-]; eauto.
Qed.

Lemma system_errors_cpSync cwd src dest : system_errors (cpSync cwd src dest).
Proof.
  apply system_errors_fs_write. intros t t' e. unfold Fs.cpSync.
  destruct (Fs.locate cwd t false src) as [ps n | p | c].
  2,3: cbn; intros [= _ <-]; eauto.
  match goal with |- context [match ?refused with Some _ => _ | None => _ end = _] =>
    destruct refused as [code |] end.
  { intros [= _ <-]; eauto. }
  destruct (if Fs.existsSync cwd t (Path.dirname dest) then _ else _) as [t1 [[] | e1]] eqn:E1.
  - destruct (Fs.locate cwd t1 false dest) as [pd m | pd | c].
    3: intros [= _ <-]; eauto.
    all: destruct (list_find _ _) as [[i x] |]; [intros [= _ <-]; eauto | discriminate].
  - intros [= _ <-]. destruct (Fs.existsSync cwd t (Path.dirname dest)).
    + discriminate.
    + unfold Fs.mkdirSync in E1. by eapply mkdirs_system.
Qed.

Lemma system_errors_forEach {A} (l : list A) (f : A → M unit) :
  (∀ a, system_errors (f a)) → system_errors (forEach l f).
Proof.
  intros Hf. induction l as [|a l IH]; cbn [forEach].
  - apply system_errors_ret.
  - apply system_errors_bind; [apply Hf | intros _; apply IH].
Qed.

Lemma system_errors_symlinkFileOrDirTree_rec cwd depth :
  ∀ src dest, system_errors (symlinkFileOrDirTree_rec cwd depth src dest).
Proof.
  induction depth as [|depth IH]; intros src dest; cbn [symlinkFileOrDirTree_rec].
  - intros w w' e. unfold throw. intros [= _ <-]. eauto.
  - apply system_errors_bind; [apply system_errors_existsSync |]. intros ex.
    apply system_errors_bind.
    { destruct ex; [apply system_errors_rmSync | apply system_errors_ret]. }
    intros _. apply system_errors_bind; [apply system_errors_statSync |]. intros d.
    destruct d.
    + apply system_errors_bind; [apply system_errors_mkdirSync |]. intros _.
      apply system_errors_bind; [apply system_errors_readdirSync |]. intros entries.
      apply system_errors_forEach. intros entry. apply IH.
    + apply system_errors_bind; [apply system_errors_realpathSync |]. intros real.
      apply system_errors_symlinkSync.
Qed.

(** The part of [copyFile] that writes. *)
Lemma system_errors_copy cwd src dest (link : bool) :
  system_errors (mkdirSync cwd (Path.dirname dest);;
                 if link then symlinkFileOrDirTree cwd src dest else cpSync cwd src dest).
Proof.
  apply system_errors_bind; [apply system_errors_mkdirSync |]. intros _.
  destruct link; [| apply system_errors_cpSync].
  exact (system_errors_symlinkFileOrDirTree_rec cwd PATH_MAX src dest).
Qed.

(** An error of [copyFile] that is not an error of a system call comes
    before the first write. *)
Lemma copyFile_refusal (cwd plugin_dir : string) (src : option string)
    (project_dir dest : string) (link : bool) (w w' : world) (e : error) :
  copyFile cwd plugin_dir src project_dir dest link w = (w', Err e) →
  (∀ code, e ≠ SystemError code) → w' = w.
Proof.
  unfold copyFile. intros Hrun Hne.
  destruct src as [src |]; cbn [path_arg] in Hrun.
  2:{ unfold mbind, M_bind, lift in Hrun. by injection Hrun as <- _. }
  unfold mbind at 1, M_bind at 1, lift at 1 in Hrun.
  unfold mbind at 1, M_bind at 1, existsSync at 1, fs_read at 1 in Hrun.
  destruct (Fs.existsSync cwd (tree w) _); cbn [negb] in Hrun.
  2:{ unfold throw in Hrun. by injection Hrun as <- _. }
  unfold mbind at 1, M_bind at 1, realpathSync at 1, fs_try at 1 in Hrun.
  destruct (Fs.realpathSync cwd (tree w) _) as [real | e1]; [| by injection Hrun as <- _].
  unfold mbind at 1, M_bind at 1, realpathSync at 1, fs_try at 1 in Hrun.
  destruct (Fs.realpathSync cwd (tree w) _) as [real_plugin | e1];
    [| by injection Hrun as <- _].
  destruct (isPathInside cwd real real_plugin); cbn [negb] in Hrun.
  2:{ unfold throw in Hrun. by injection Hrun as <- _. }
  destruct (isPathInside cwd _ project_dir); cbn [negb] in Hrun.
  2:{ unfold throw in Hrun. by injection Hrun as <- _. }
  apply system_errors_copy in Hrun as [code ->]. by destruct (Hne code).
Qed.

Lemma copyNewFile_refusal (cwd plugin_dir : string) (src : option string)
    (project_dir dest : string) (link : bool) (w w' : world) (e : error) :
  copyNewFile cwd plugin_dir src project_dir dest link w = (w', Err e) →
  (∀ code, e ≠ SystemError code) → w' = w.
Proof.
  unfold copyNewFile. unfold mbind, M_bind, existsSync, fs_read.
  destruct (Fs.existsSync cwd (tree w) _).
  - unfold throw. by intros [= <- _].
  - apply copyFile_refusal.
Qed.

End ErrorFacts.

(** X2: an install of a source file, a library or a resource that fails with
    an error that is not an error of a system call -- a [CordovaError] or
    the [TypeError] of a missing attribute -- has written nothing: the
    world is the one it was called in. *)
Theorem install_refusal_unchanged (cwd kind : string) (h : handler_pair) (obj : Obj.t)
    (plugin : Plugin.t) (project : Project.t) (options : option Options.t)
    (w w' : world) (e : error) :
  kind = "source-file" ∨ kind = "lib-file" ∨ kind = "resource-file" →
  handlers cwd kind = Some h →
  install h obj plugin project options w = (w', Err e) →
  (∀ code, e ≠ SystemError code) →
  w' = w.
Proof.
  intros [-> | [-> | ->]] Hh.
  - change (Some (Handlers (source_file_install cwd) (source_file_uninstall cwd)) = Some h)
      in Hh.
    injection Hh as <-. cbn [install]. unfold source_file_install.
    destruct (truthy (Obj.src obj)); cbn [negb]; [| by intros [= <- _]].
    destruct (truthy (Obj.targetDir obj)); cbn [negb]; [| by intros [= <- _]].
    unfold mbind, M_bind, lift.
    destruct (getInstallDestination obj) as [dest | e1]; [| by intros [= <- _]].
    destruct (opt Options.force options);
      [apply ErrorFacts.copyFile_refusal | apply ErrorFacts.copyNewFile_refusal].
  - change (Some (Handlers (lib_file_install cwd) (lib_file_uninstall cwd)) = Some h) in Hh.
    injection Hh as <-. cbn [install]. unfold lib_file_install, mbind, M_bind, lift.
    destruct (path_arg (Obj.src obj)) as [src | e1]; [| by intros [= <- _]].
    apply ErrorFacts.copyFile_refusal.
  - change (Some (Handlers (resource_file_install cwd) (resource_file_uninstall cwd)) = Some h)
      in Hh.
    injection Hh as <-. cbn [install]. unfold resource_file_install, mbind, M_bind, lift.
    destruct (path_arg (Obj.target obj)) as [target | e1]; [| by intros [= <- _]].
    apply ErrorFacts.copyFile_refusal.
Qed.

Lemma install_refusal_unchanged_witness :
  (lib_file_install "/" (Example.attrs (Some "link/passwd") None None)
     Example.plugin Example.project None Example.world0).1
  = Example.world0.
Proof.
  refine (install_refusal_unchanged "/" "lib-file"
            (Handlers (lib_file_install "/") (lib_file_uninstall "/"))
            (Example.attrs (Some "link/passwd") None None)
            Example.plugin Example.project None Example.world0 _
            (CordovaError ("File " +:+ dq +:+ "/plug/link/passwd" +:+ dq
               +:+ " is located outside the plugin directory "
               +:+ dq +:+ "/plug" +:+ dq))
            (or_intror (or_introl eq_refl)) eq_refl _ _).
  - vm_compute. reflexivity.
  - intros code. discriminate.
Defined.

(** X1: [copyFile] writes nothing to a destination that is not strictly below
    the project directory: when the names of the resolved destination do
    not start with the names of the resolved project directory and go on,
    it fails and the world is the one it was called in; when its source is
    there and inside the plugin, the error is that of a destination
    outside the project. *)
Theorem copyFile_outside_project (cwd plugin_dir : string) (src : option string)
    (project_dir dest : string) (link : bool) (w : world) :
  Path.isAbsolute cwd = true →
  ¬ under (Fs.comps (Path.resolve cwd [project_dir]))
          (Fs.comps (Path.resolve cwd [project_dir; dest])) →
  ∃ e,
    copyFile cwd plugin_dir src project_dir dest link w = (w, Err e) ∧
    ∀ s real real_plugin,
      src = Some s →
      Fs.existsSync cwd (tree w) (Path.resolve cwd [plugin_dir; s]) = true →
      Fs.realpathSync cwd (tree w) (Path.resolve cwd [plugin_dir; s]) = Ok real →
      Fs.realpathSync cwd (tree w) plugin_dir = Ok real_plugin →
      isPathInside cwd real real_plugin = true →
      e = CordovaError ("Destination " +:+ dq +:+ Path.resolve cwd [project_dir; dest]
                          +:+ dq +:+ " for source file " +:+ dq
                          +:+ Path.resolve cwd [plugin_dir; s] +:+ dq
                          +:+ " is located outside the project").
Proof.
  intros Hcwd Hout.
  assert (isPathInside cwd (Path.resolve cwd [project_dir; dest]) project_dir = false)
    as Hguard.
  { destruct (isPathInside cwd _ project_dir) eqn:E; [| done]. exfalso. apply Hout.
    apply InsideFacts.isPathInside_under in E; [| done].
    rewrite !PathFacts.resolve_render by done.
    rewrite !PathFacts.comps_render by apply PathFacts.resolved_normal.
    rewrite PathFacts.resolve_render in E by done.
    by rewrite PathFacts.resolved_render in E by apply PathFacts.resolved_normal. }
  unfold copyFile. destruct src as [s |]; cbn [path_arg].
  2:{ eexists. split; [reflexivity |]. intros; discriminate. }
  run. destruct (Fs.existsSync cwd (tree w) _) eqn:Eex; cbn [negb].
  2:{ eexists. split; [reflexivity |]. intros s' r rp Hs He Hr Hp Hi. congruence. }
  destruct (Fs.realpathSync cwd (tree w) (Path.resolve _ _)) as [real | e1] eqn:Er.
  2:{ eexists. split; [reflexivity |]. intros s' r rp Hs He Hr Hp Hi. congruence. }
  destruct (Fs.realpathSync cwd (tree w) plugin_dir) as [real_plugin | e2] eqn:Ep.
  2:{ eexists. split; [reflexivity |]. intros s' r rp Hs He Hr Hp Hi. congruence. }
  destruct (isPathInside cwd real real_plugin) eqn:Ei; cbn [negb].
  2:{ eexists. split; [reflexivity |]. intros s' r rp Hs He Hr Hp Hi. congruence. }
  rewrite Hguard. cbn [negb]. eexists. split; [reflexivity |].
  intros s' r rp Hs He Hr Hp Hi. congruence.
Qed.

Lemma copyFile_outside_project_witness :
  ∃ e,
    copyFile "/" "/plug" (Some "a.jar") "/proj" "app/../../etc/a.jar" false Example.world0
    = (Example.world0, Err e) ∧
    ∀ s real real_plugin,
      Some "a.jar" = Some s →
      Fs.existsSync "/" Example.files (Path.resolve "/" ["/plug"; s]) = true →
      Fs.realpathSync "/" Example.files (Path.resolve "/" ["/plug"; s]) = Ok real →
      Fs.realpathSync "/" Example.files "/plug" = Ok real_plugin →
      isPathInside "/" real real_plugin = true →
      e = CordovaError ("Destination " +:+ dq
                          +:+ Path.resolve "/" ["/proj"; "app/../../etc/a.jar"]
                          +:+ dq +:+ " for source file " +:+ dq
                          +:+ Path.resolve "/" ["/plug"; s] +:+ dq
                          +:+ " is located outside the project").
Proof.
  apply (copyFile_outside_project "/" "/plug" (Some "a.jar") "/proj"
           "app/../../etc/a.jar" false Example.world0 eq_refl).
  intros [[k E] _]. vm_compute in E. discriminate E.
Defined.

Module LoopFacts.
Import StrFacts PathFacts JoinFacts WalkFacts TreeFacts PruneFacts.

(** [rmdirSync] refuses the root, whatever the tree. *)
Lemma rmdirSync_root (cwd : string) (t : Fs.tree) :
  ∃ e, Fs.rmdirSync cwd t (Fs.render []) = (t, Err e).
Proof.
  unfold Fs.rmdirSync, Fs.locate. rewrite render_absolute.
  rewrite comps_render by constructor. rewrite walk_nil. cbn. eauto.
Qed.

(** The walk up from a directory of fewer names than [rounds] never runs
    out of rounds, whatever the tree: a round that goes on leaves a
    directory a name shorter, and the root is not left. *)
Lemma prune_ends (cwd stop : string) (message : string) :
  Path.isAbsolute cwd = true →
  ∀ rounds A w,
    normal_list A → length A < rounds →
    (prune cwd rounds (Fs.render A) stop w).2 ≠ Err (RangeError message).
Proof.
  intros Hcwd rounds. induction rounds as [|rounds IH]; intros A w HA Hlen; [lia |].
  cbn [prune]. destruct (String.eqb (Fs.render A) stop); run; [discriminate |].
  destruct (Fs.existsSync cwd (tree w) (Fs.render A)); [| discriminate].
  destruct (Fs.readdirSync cwd (tree w) (Fs.render A)) as [entries | e] eqn:Erd.
  2:{ cbn. intros [= ->].
      destruct (ErrorFacts.system_errors_readdirSync cwd (Fs.render A) w w
                  (RangeError message)) as [code E]; [| done].
      unfold readdirSync, fs_try. by rewrite Erd. }
  destruct (Nat.eqb (length entries) 0); [| discriminate].
  destruct A as [|a A _] using rev_ind.
  - destruct (rmdirSync_root cwd (tree w)) as [e E]. rewrite E. cbn. intros [= ->].
    destruct (ErrorFacts.system_errors_rmdirSync cwd (Fs.render []) w w
                (RangeError message)) as [code E']; [| done].
    unfold rmdirSync, fs_write. rewrite E. by destruct w.
  - destruct (Fs.rmdirSync cwd (tree w) (Fs.render (A ++ [a]))) as [t' [[] | e]] eqn:Erm.
    2:{ cbn. intros [= ->].
        destruct (ErrorFacts.system_errors_rmdirSync cwd (Fs.render (A ++ [a])) w
                    (World t' (emitted w)) (RangeError message)) as [code E']; [| done].
        unfold rmdirSync, fs_write. by rewrite Erm. }
    cbn [tree emitted].
    rewrite resolve_render by done. rewrite resolved_up by done.
    rewrite parent_snoc. apply IH.
    + by apply Forall_app in HA as [? _].
    + rewrite length_app in Hlen. cbn in Hlen. lia.
Qed.

End LoopFacts.

(** X3: the loop of [removeFileAndParents] ends, whatever the tree and the
    stopper, links and a stopper that is not on the way included: the
    rounds the model allows are never used up. *)
Theorem removeFileAndParents_ends (cwd baseDir destFile : string)
    (stopper : option string) (w : world) (message : string) :
  Path.isAbsolute cwd = true →
  (removeFileAndParents cwd baseDir destFile stopper w).2 ≠ Err (RangeError message).
Proof.
  intros Hcwd. unfold removeFileAndParents. run.
  destruct (Fs.existsSync cwd (tree w) _); cbn [negb]; [| discriminate].
  destruct (Fs.rmSync cwd (tree w) _) as [t' [[] | e]] eqn:Erm; cbn [tree emitted].
  2:{ cbn. intros [= ->].
      destruct (ErrorFacts.system_errors_rmSync cwd (Path.resolve cwd [baseDir; destFile]) w
                  (World t' (emitted w)) (RangeError message)) as [code E]; [| done].
      unfold rmSync, fs_write. by rewrite Erm. }
  rewrite PathFacts.resolve_render by done.
  rewrite PathFacts.dirname_render by apply PathFacts.resolved_normal.
  apply LoopFacts.prune_ends; [done | |].
  - apply Forall_take. apply PathFacts.resolved_normal.
  - pose proof (PruneFacts.length_join (resolved cwd [baseDir; destFile])
                  (PathFacts.resolved_normal _ _)) as Hl.
    unfold Fs.parent, Fs.render. rewrite length_take, StrFacts.length_sapp. cbn. lia.
Qed.

Lemma removeFileAndParents_ends_witness :
  (removeFileAndParents "/" "/proj" "build.gradle" (Some "nowhere") Example.world0).2
  ≠ Err (RangeError "removeFileAndParents: the loop does not end").
Proof.
  apply (removeFileAndParents_ends "/" "/proj" "build.gradle" (Some "nowhere")
           Example.world0). reflexivity.
Defined.

Module PastFacts.
Import StrFacts PathFacts WalkFacts TreeFacts VacantFacts RestoreFacts InstallFacts.

(** The removal of what an install left below [W] when the stopper is not
    on the way to the target: the walk up ends at the first directory
    with other entries, which [W] is. *)
Lemma uninstall_restores_past (cwd baseDir destFile : string) (stopper : option string)
    (W D : list string) (t t' t'' : Fs.tree) (e : list (string * string)) :
  Path.isAbsolute cwd = true →
  W = resolved cwd [baseDir] → D = resolved cwd [baseDir; destFile] →
  (∀ j, take j D ≠ resolved cwd [baseDir; default "." (js_or stopper (Some "."))]) →
  (∃ x, is_Some (t !! (W ++ [x]))) →
  vacant W D t → installed W D t t' → wf t'' →
  (∀ q, W `prefix_of` q → t'' !! q = t' !! q) →
  ∃ t3,
    removeFileAndParents cwd baseDir destFile stopper (World t'' e) = (World t3 e, Ok tt) ∧
    wf t3 ∧
    (∀ q, under W q → t3 !! q = t !! q) ∧
    (∀ q, ¬ under W q → t3 !! q = t'' !! q).
Proof.
  intros Hcwd HW HD Hoff [x0 Hx0] Hfresh Hinst Hwf'' Hsame.
  pose proof (vacant_depth _ _ _ Hfresh) as (m & Hm & Hdirs & Habsent).
  destruct Hfresh as [Hwf Hunder Hroot Hdest Hbetween].
  destruct Hinst as [Hwf' Hmore (n & HnD & Hnl) Hbtw Hother].
  pose proof (under_length _ _ Hunder) as Hlen.
  pose proof Hunder as [HWD _].
  assert (normal_list D) as HnormD by (subst D; apply resolved_normal).
  assert (D ≠ []) as HD0 by (intros E; rewrite E in Hlen; cbn in Hlen; lia).
  assert (t'' !! D = Some n) as HnD'' by (by rewrite Hsame).
  pose proof (removeFileAndParents_entry cwd baseDir destFile stopper (World t'' e) Hcwd)
    as Hrm.
  cbn zeta in Hrm. cbn [tree emitted] in Hrm. rewrite <- HD in Hrm.
  set (S := resolved cwd [baseDir; default "." (js_or stopper (Some "."))]) in *.
  destruct Hrm as (k & r & [t3 e3] & Hrun & He & Hwf3 & Hk & Hgone & Hkept & Hwalk & Hstop).
  { unfold Fs.existsSync.
    rewrite (locate_entry cwd t'' true D n); try done.
    by rewrite node_at_lookup. }
  { done. }
  { by rewrite HnD''. }
  cbn [tree emitted] in *. subst e3.
  assert (∀ j, length W ≤ j → W `prefix_of` take j D) as HWj.
  { intros j Hj. rewrite <- (under_take W D HWD). by apply take_prefix_le. }
  assert (m ≤ k) as Hmk.
  { destruct (decide (m ≤ k)) as [|Hlt]; [done | exfalso].
    destruct (Hwalk m) as [Hne Hone]; [lia |].
    assert (∃ x, is_Some (t !! (take m D ++ [x]))) as [x Hx].
    { destruct (decide (m = length W)) as [-> | Hnm].
      - exists x0. by rewrite under_take.
      - apply Hbetween; [lia |].
        pose proof (Hdirs m ltac:(lia)) as Hd.
        rewrite node_at_lookup in Hd; [by rewrite Hd |]. apply take_ne_nil; lia. }
    assert (is_Some (t'' !! (take m D ++ [x]))) as Hx''.
    { rewrite Hsame.
      - destruct Hx as [y Hy]. exists y. by apply (lookup_weaken t t').
      - apply prefix_app_r. apply HWj. lia. }
    pose proof (Hone x Hx'') as E.
    rewrite E in Hx. rewrite (Habsent (Datatypes.S m) (take (Datatypes.S m) D)) in Hx;
      [| lia | done].
    by destruct Hx. }
  assert (k = m) as ->.
  { destruct (decide (k = m)) as [|Hne]; [done | exfalso].
    assert (m < k) as Hlt by lia.
    assert (∃ x, is_Some (t3 !! (take k D ++ [x]))) as [x Hx].
    { destruct Hstop as [[E _] | [(_ & Hx & _) | (_ & -> & _)]]; [| done | lia].
      by destruct (Hoff k). }
    assert (¬ D `prefix_of` take k D ++ [x]) as HnD1.
    { intros Hp. rewrite Hgone in Hx; [by destruct Hx | by left]. }
    assert (¬ pruned (Fs.parent D) k (take k D ++ [x])) as Hnp.
    { intros Hp. rewrite Hgone in Hx; [by destruct Hx | by right]. }
    rewrite Hkept in Hx by done.
    rewrite Hsame in Hx by (apply prefix_app_r; apply HWj; lia).
    rewrite Hother in Hx; [| done |].
    - rewrite (Habsent (Datatypes.S m) (take k D ++ [x])) in Hx; [by destruct Hx | lia |].
      etrans; [| by apply prefix_app_r]. apply take_prefix_le. lia.
    - intros (j & Hj & E).
      assert (j = Datatypes.S k) as ->.
      { apply (f_equal length) in E. rewrite length_app, !take_length_lt in E by lia.
        cbn in E. lia. }
      apply Hnp. exists (Datatypes.S k). unfold Fs.parent. rewrite length_take.
      split; [lia |]. rewrite E, take_take. f_equal. lia. }
  assert (r = Ok tt) as ->.
  { destruct Hstop as [[E _] | [(_ & _ & ->) | (_ & -> & Hroot0 & _)]]; try done.
    - by destruct (Hoff m).
    - exfalso. assert (W = []) as -> by (destruct W; [done | cbn in Hm; lia]).
      cbn [app] in Hx0. specialize (Hroot0 x0).
      rewrite Hkept in Hroot0.
      + rewrite Hsame in Hroot0 by apply prefix_nil.
        destruct Hx0 as [y Hy]. apply (lookup_weaken t t') in Hy; [| done]. congruence.
      + intros Hp. rewrite (wf_below_absent t D [x0]) in Hx0; [by destruct Hx0 | done..].
      + intros (j & Hj & E). rewrite E in Hx0. unfold Fs.parent in Hx0.
        rewrite take_take in Hx0.
        rewrite (Habsent (j `min` (length D - 1))
                   (take (j `min` (length D - 1)) D)) in Hx0;
          [by destruct Hx0 | | done].
        unfold Fs.parent in Hj. rewrite length_take in Hj. lia. }
  exists t3. split; [done |]. split; [done |]. split.
  - intros q Hq.
    destruct (decide (D `prefix_of` q)) as [HDq | HDq].
    { rewrite Hgone by (by left). symmetry. by apply (wf_below_absent t D). }
    destruct (decide (q = take (length q) D ∧ m < length q < length D)) as [[E Hl] | Hnb].
    { rewrite Hgone.
      - symmetry. apply (Habsent (length q)); [lia | by rewrite <- E].
      - right. exists (length q). unfold Fs.parent. rewrite length_take.
        split; [lia |]. rewrite take_take. rewrite E at 1. f_equal. lia. }
    rewrite Hkept; [| done |].
    2:{ intros (j & Hj & E). unfold Fs.parent in Hj, E. rewrite length_take in Hj.
        rewrite take_take in E. apply Hnb.
        assert (length q = j) as Hlq.
        { rewrite E, length_take. lia. }
        rewrite Hlq. split; [| lia]. rewrite E. f_equal. lia. }
    rewrite Hsame by apply Hq.
    destruct (midway_dec W D q) as [Hb | Hb].
    + rewrite Hbtw by done. destruct Hb as (j & Hj & ->).
      assert (j ≤ m) as Hjm.
      { destruct (decide (j ≤ m)); [done | exfalso]. apply Hnb.
        rewrite !take_length_lt by lia. split; [done | lia]. }
      pose proof (Hdirs j Hjm) as Hd. rewrite node_at_lookup in Hd; [done |].
      apply take_ne_nil; lia.
    + by apply Hother.
  - intros q Hq. apply Hkept.
    + intros Hp. apply Hq. by apply (under_trans W D).
    + intros (j & Hj & ->). apply Hq. unfold Fs.parent in *.
      rewrite length_take in Hj. rewrite take_take.
      apply under_take_gt; [done | lia].
Qed.

End PastFacts.

Module JavaFacts.
Import StrFacts PathFacts JoinFacts WalkFacts TreeFacts VacantFacts RestoreFacts
  InstallFacts CopyFacts RoundTripFacts HandlerFacts PastFacts.

(** The stopper of [deleteJava] is not on the way to a destination below
    [app]. *)
Lemma stopper_off_way (cwd project_dir dest : string) :
  plain dest → Str.startsWith "app/" dest = true →
  ∀ j, take j (resolved cwd [project_dir; dest]) ≠ resolved cwd [project_dir; "src"].
Proof.
  intros Hplain Hstart j.
  change [project_dir; dest] with ([project_dir] ++ [dest]).
  change [project_dir; "src"] with ([project_dir] ++ ["src"]).
  rewrite resolved_snoc_plain by done.
  rewrite resolved_snoc_plain by (by repeat constructor).
  apply startsWith_inv in Hstart.
  change ("app/" +:+ ?r) with ("app" +:+ "/" +:+ r) in Hstart.
  rewrite Hstart, split_app. change (Str.split "app") with ["app"].
  change (Str.split "src") with ["src"].
  set (W := resolved cwd [project_dir]). set (rest := Str.split _).
  intros E. apply (f_equal (λ l : list string, l !! length W)) in E.
  rewrite (list_lookup_middle W [] "src") in E by done.
  destruct (decide (length W < j)) as [Hj | Hj].
  - rewrite lookup_take_lt in E by done.
    rewrite (list_lookup_middle W rest "app") in E by done. discriminate E.
  - rewrite lookup_take_ge in E by lia. discriminate E.
Qed.

Lemma restore_past (cwd baseDir destFile : string) (stopper : option string)
    (W D : list string) (t t1 : Fs.tree) (e : list (string * string)) :
  Path.isAbsolute cwd = true →
  W = resolved cwd [baseDir] → D = resolved cwd [baseDir; destFile] →
  (∀ j, take j D ≠ resolved cwd [baseDir; default "." (js_or stopper (Some "."))]) →
  (∃ x, is_Some (t !! (W ++ [x]))) →
  vacant W D t → installed W D t t1 →
  removeFileAndParents cwd baseDir destFile stopper (World t1 e) = (World t e, Ok tt).
Proof.
  intros Hcwd HW HD Hoff Hx Hv Hi.
  destruct (uninstall_restores_past cwd baseDir destFile stopper W D t t1 t1 e)
    as (t3 & -> & _ & Hin & Hout); try done.
  { apply (installed_wf _ _ _ _ Hi). }
  replace t3 with t; [done |]. apply map_eq. intros q. symmetry.
  destruct (decide (W `prefix_of` q ∧ q ≠ W)) as [Hq | Hq]; [by apply Hin |].
  rewrite Hout by done. apply (installed_other _ _ _ _ Hi).
  - intros HD'. apply Hq. apply (under_trans W D); [apply Hv | done].
  - intros (j & Hj & ->). apply Hq. apply under_take_gt; [apply Hv | lia].
Qed.

End JavaFacts.

(** X4: the install of a Java source, copied and not linked, is undone by its
    uninstall when the destination is made of names and below [app], the
    project directory has an entry, nothing is at the destination and no
    directory of the way to it is there and empty: [deleteJava] removes
    the file and the directories the install made, the stopper [src] of
    the project directory, which is not on the way, stopping nothing. *)
Theorem source_file_java_round_trip (cwd : string) (obj : Obj.t) (plugin : Plugin.t)
    (project : Project.t) (options : option Options.t) (w w' : world)
    (src dest : string) (ps : list string) (n : Fs.node) :
  Path.isAbsolute cwd = true →
  Obj.src obj = Some src → Str.endsWith "java" src = true →
  getInstallDestination obj = Ok dest →
  plain dest → Str.startsWith "app/" dest = true →
  opt Options.link options = false →
  Fs.locate cwd (tree w) false (Path.resolve cwd [Plugin.dir plugin; src]) = Fs.Found ps n →
  (∀ link, n ≠ Fs.Symlink link) →
  vacant (Fs.comps (Path.resolve cwd [Project.projectDir project]))
         (Fs.comps (Path.resolve cwd [Project.projectDir project; dest])) (tree w) →
  (∃ x, is_Some (tree w !! (Fs.comps (Path.resolve cwd [Project.projectDir project]) ++ [x]))) →
  source_file_install cwd obj plugin project options w = (w', Ok tt) →
  source_file_uninstall cwd obj plugin project options w' = (w, Ok tt).
Proof.
  intros Hcwd Hs Hjava Hdest Hplain Hstart Hlink Hsrc Hn Hv Hx.
  rewrite (PathFacts.resolve_render cwd [Project.projectDir project]) in Hv, Hx by done.
  rewrite (PathFacts.resolve_render cwd [Project.projectDir project; dest]) in Hv by done.
  rewrite !PathFacts.comps_render in Hv by apply PathFacts.resolved_normal.
  rewrite PathFacts.comps_render in Hx by apply PathFacts.resolved_normal.
  destruct w as [t e]. cbn [tree] in *.
  unfold source_file_install, source_file_uninstall. rewrite Hs, Hdest, Hlink.
  cbn [truthy receiver]. run. rewrite Hjava.
  destruct (Str.is_empty src); cbn [negb]; [discriminate |].
  destruct (truthy (Obj.targetDir obj)); cbn [negb]; [| discriminate].
  assert (∀ w1,
            copyFile cwd (Plugin.dir plugin) (Some src) (Project.projectDir project)
              dest false (World t e) = (w1, Ok tt) →
            deleteJava cwd (Project.projectDir project) dest w1 = (World t e, Ok tt))
    as Hcopy.
  { intros w1 E1.
    apply (HandlerFacts.copyFile_installed _ _ _ _ _ _ _ ps n) in E1 as (t2 & -> & Hi);
      [| exact Hcwd | exact Hv | exact Hsrc | exact Hn].
    unfold deleteJava.
    apply (JavaFacts.restore_past cwd _ _ _ _ _ t t2 e Hcwd eq_refl eq_refl);
      [| exact Hx | exact Hv | exact Hi].
    by apply JavaFacts.stopper_off_way. }
  destruct (opt Options.force options); [apply Hcopy |].
  unfold copyNewFile. run.
  destruct (Fs.existsSync cwd t _); [discriminate |]. apply Hcopy.
Qed.

Lemma source_file_java_round_trip_witness :
  source_file_uninstall "/" Sources.directive Example.plugin Example.project None
    (source_file_install "/" Sources.directive Example.plugin Example.project None
       Sources.world0).1
  = (Sources.world0, Ok tt).
Proof.
  apply (source_file_java_round_trip "/" Sources.directive Example.plugin Example.project
           None Sources.world0 _ "src/android/Foo.java"
           "app/src/main/java/org/foo/Foo.java"
           ["plug"; "src"; "android"; "Foo.java"] (Fs.File "class Foo {}")
           eq_refl eq_refl eq_refl).
  - vm_compute. reflexivity.
  - unfold plain. vm_compute. repeat constructor.
  - reflexivity.
  - reflexivity.
  - vm_compute. reflexivity.
  - intros link. discriminate.
  - change (Fs.comps (Path.resolve "/" [Project.projectDir Example.project]))
      with ["proj"].
    change (Fs.comps (Path.resolve "/" [Project.projectDir Example.project;
                                        "app/src/main/java/org/foo/Foo.java"]))
      with ["proj"; "app"; "src"; "main"; "java"; "org"; "foo"; "Foo.java"].
    apply vacantb_vacant. vm_compute. reflexivity.
  - exists "build.gradle". vm_compute. eauto.
  - vm_compute. reflexivity.
Defined.

Module FidelityFacts.
Import StrFacts PathFacts JoinFacts WalkFacts TreeFacts VacantFacts RestoreFacts
  InstallFacts CopyFacts RoundTripFacts HandlerFacts.

(** What [cpSync] leaves below a vacant destination: the copies of the
    entries below the source, and nothing else. *)
Lemma cpSync_copies (cwd : string) (W D : list string) (t t1 t2 : Fs.tree)
    (src : string) (ps : list string) (n : Fs.node) :
  vacant W D t → normal_list D →
  wf t1 → t ⊆ t1 →
  (∀ q, midway W D q → t1 !! q = Some Fs.Dir) →
  (∀ q, ¬ midway W D q → t1 !! q = t !! q) →
  Fs.locate cwd t1 false src = Fs.Found ps n →
  Fs.cpSync cwd t1 src (Fs.render D) = (t2, Ok tt) →
  ¬ ps `prefix_of` D ∧
  ∀ rel, t2 !! (D ++ rel) = Fs.cp_node cwd (Path.join (src :: rel)) <$> t !! (ps ++ rel).
Proof.
  intros Hv HnD Hwf1 Hsub Hmade Hsame Hsrc Hcp.
  pose proof Hv as [Hwf Hunder Hroot Hdest Hmid].
  pose proof (under_length _ _ Hunder) as Hlen. pose proof Hunder as [HWD _].
  assert (D ≠ []) as HD0 by (intros E; rewrite E in Hlen; cbn in Hlen; lia).
  destruct (parent_last D HD0) as [x Ex].
  assert (¬ midway W D D) as HnmD.
  { intros (j & Hj & E). apply (f_equal length) in E. rewrite length_take in E. lia. }
  assert (t1 !! D = None) as HD1 by (by rewrite Hsame).
  assert (Fs.node_at t1 (Fs.parent D) = Some Fs.Dir) as Hpar.
  { destruct (decide (length D = Datatypes.S (length W))) as [El | El].
    - assert (Fs.parent D = W) as ->.
      { unfold Fs.parent. replace (length D - 1) with (length W) by lia.
        by apply under_take. }
      destruct W as [|a W]; [done |]. cbn [Fs.node_at] in *. rewrite Hsame; [done |].
      intros (j & Hj & E). apply (f_equal length) in E. rewrite length_take in E. lia.
    - rewrite node_at_lookup.
      + apply Hmade. exists (length D - 1). split; [lia | done].
      + unfold Fs.parent. apply take_ne_nil; lia. }
  assert (Fs.locate cwd t1 false (Fs.render D) = Fs.Missing D) as HlocD.
  { rewrite Ex at 1. rewrite (locate_missing cwd t1 false (Fs.parent D) x);
      rewrite <- ?Ex; done. }
  assert (∀ q, D `prefix_of` q → t1 !! q = None) as Hbelow.
  { intros q Hq. by apply (wf_below_absent t1 D). }
  unfold Fs.cpSync in Hcp. rewrite Hsrc, HlocD in Hcp.
  destruct (decide (ps `prefix_of` D)) as [Hps | Hps]; [done |].
  rewrite dirname_render in Hcp by done.
  unfold Fs.existsSync in Hcp.
  rewrite (locate_entry cwd t1 true (Fs.parent D) Fs.Dir) in Hcp;
    [| done | by apply normal_take | done | done].
  rewrite HlocD in Hcp.
  destruct (list_find _ _) as [[i e] |] in Hcp; [done |].
  injection Hcp as <-. split; [done |]. intros rel.
  assert (t1 !! (ps ++ rel) = t !! (ps ++ rel)) as <-.
  { apply Hsame. intros (j & Hj & E). apply Hps. rewrite <- (take_drop j D), <- E.
    apply prefix_app_r. by apply prefix_app_r. }
  destruct (cp_write_lookup cwd src D t1 (Fs.cp_entries t1 ps) (D ++ rel))
    as [([rel' m] & He & E & ->) | [Hno ->]].
  - cbn [fst snd] in *. apply app_inv_head in E as <-.
    apply elem_of_cp_entries in He. by rewrite He.
  - rewrite Hbelow by (by apply prefix_app_r).
    destruct (t1 !! (ps ++ rel)) as [m |] eqn:Em; [| done].
    exfalso. apply (Hno (rel, m)); [| done]. by apply elem_of_cp_entries.
Qed.

(** [copyFile], not linking, on a vacant destination. *)
Lemma copyFile_copies (cwd plugin_dir src base target : string) (t : Fs.tree)
    (e : list (string * string)) (ps : list string) (n : Fs.node) (w1 : world) :
  Path.isAbsolute cwd = true →
  vacant (resolved cwd [base]) (resolved cwd [base; target]) t →
  Fs.locate cwd t false (Path.resolve cwd [plugin_dir; src]) = Fs.Found ps n →
  copyFile cwd plugin_dir (Some src) base target false (World t e) = (w1, Ok tt) →
  ¬ ps `prefix_of` resolved cwd [base; target] ∧
  ∀ rel, tree w1 !! (resolved cwd [base; target] ++ rel)
         = Fs.cp_node cwd (Path.join (Path.resolve cwd [plugin_dir; src] :: rel))
             <$> t !! (ps ++ rel).
Proof.
  intros Hcwd Hv Hsrc. unfold copyFile. run.
  destruct (Fs.existsSync cwd _ _); cbn [negb]; [| discriminate].
  destruct (Fs.realpathSync cwd _ (Path.resolve _ _)) as [real |]; [| discriminate].
  destruct (Fs.realpathSync cwd _ plugin_dir) as [real_plugin |]; [| discriminate].
  destruct (isPathInside cwd real real_plugin); cbn [negb]; [| discriminate].
  destruct (isPathInside cwd _ base); cbn [negb]; [| discriminate].
  cbn [tree emitted].
  rewrite (resolve_render cwd [base; target]) by done.
  rewrite dirname_render by apply resolved_normal.
  destruct (mkdirSync_vacant cwd _ _ t Hv (resolved_normal _ _))
    as (t1 & -> & Hwf1 & Hsub & Hmade & Hsame).
  cbn [tree emitted].
  destruct (Fs.cpSync cwd t1 _ _) as [t2 [[] | err]] eqn:Ecp; [| discriminate].
  intros [= <-]. cbn [tree].
  eapply cpSync_copies; [exact Hv | apply resolved_normal | exact Hwf1 | exact Hsub
                        | exact Hmade | exact Hsame | | exact Ecp].
  by apply (locate_found_mono cwd t t1).
Qed.

End FidelityFacts.

(** X5: what the install of an asset leaves: below the destination in [www],
    and in [platformWww] when [usePlatformWww] is set, there are the
    copies of the entries below the source, each at the path it has below
    the source -- a file with its content, a directory, a link with its
    target resolved -- and nothing else. *)
Theorem asset_install_copies (cwd : string) (obj : Obj.t) (plugin : Plugin.t)
    (project : Project.t) (options : option Options.t) (w w' : world) (src : string)
    (ps : list string) (n : Fs.node) :
  Path.isAbsolute cwd = true →
  Obj.src obj = Some src →
  Fs.locate cwd (tree w) false (Path.resolve cwd [Plugin.dir plugin; src]) = Fs.Found ps n →
  (∀ link, n ≠ Fs.Symlink link) →
  ready cwd project options (ToString (Obj.target obj)) (tree w) →
  asset_install cwd obj plugin project options w = (w', Ok tt) →
  let copy rel :=
    Fs.cp_node cwd (Path.join (Path.resolve cwd [Plugin.dir plugin; src] :: rel))
      <$> tree w !! (ps ++ rel) in
  (∀ rel,
     tree w' !! (Fs.comps (Path.resolve cwd [Project.www project; ToString (Obj.target obj)])
                 ++ rel) = copy rel) ∧
  (opt Options.usePlatformWww options = true →
   ∀ rel,
     tree w' !! (Fs.comps (Path.resolve cwd [Project.platformWww project;
                                             ToString (Obj.target obj)])
                 ++ rel) = copy rel).
Proof.
  intros Hcwd Hs Hsrc Hn Hready. destruct w as [t e]. cbn [tree] in *.
  apply HandlerFacts.ready_resolved in Hready as [Hv1 Hv2]; [| done].
  rewrite (PathFacts.resolve_render cwd [Project.www project; _]) by done.
  rewrite (PathFacts.resolve_render cwd [Project.platformWww project; _]) by done.
  rewrite !PathFacts.comps_render by apply PathFacts.resolved_normal.
  unfold asset_install. rewrite Hs. run.
  destruct (truthy (Some src)); cbn [negb]; [| discriminate].
  destruct (truthy (Obj.target obj)) eqn:Et; cbn [negb]; [| discriminate].
  set (target := ToString (Obj.target obj)) in *.
  destruct (copyFile cwd _ _ (Project.www project) _ _ _) as [w1 [[] | err]] eqn:E1;
    [| discriminate].
  pose proof (FidelityFacts.copyFile_copies _ _ _ _ _ _ _ ps n _ Hcwd Hv1 Hsrc E1)
    as [Hps1 Hcopy1].
  apply (HandlerFacts.copyFile_installed _ _ _ _ _ _ _ ps n) in E1 as (t2 & -> & Hi1);
    [| exact Hcwd | exact Hv1 | exact Hsrc | exact Hn].
  cbn [tree] in Hcopy1.
  destruct (opt Options.usePlatformWww options) eqn:Eo.
  - destruct (Hv2 eq_refl) as (Hv2' & H12 & H21).
    pose proof (CopyFacts.vacant_frame _ _ _ _ _ _ Hi1 (proj1 (vacant_under _ _ _ Hv1))
                  H12 H21 Hv2') as Hv2''.
    intros E2.
    assert (Fs.locate cwd t2 false (Path.resolve cwd [Plugin.dir plugin; src])
            = Fs.Found ps n) as Hsrc2.
    { apply (CopyFacts.locate_found_mono cwd t t2); [| exact Hsrc].
      apply (installed_more _ _ _ _ Hi1). }
    pose proof (FidelityFacts.copyFile_copies _ _ _ _ _ _ _ ps n _ Hcwd Hv2'' Hsrc2 E2)
      as [Hps2 Hcopy2].
    apply (HandlerFacts.copyFile_installed _ _ _ _ _ _ _ ps n) in E2 as (t4 & -> & Hi2);
      [| exact Hcwd | exact Hv2'' | exact Hsrc2 | exact Hn].
    cbn [tree] in *.
    assert (∀ rel, t2 !! (ps ++ rel) = t !! (ps ++ rel)) as Hsame.
    { intros rel. apply (installed_other _ _ _ _ Hi1).
      - intros Hp.
        assert (ps ≠ []) as Hps0 by (intros ->; apply Hps1, prefix_nil).
        assert (t !! ps = Some n) as Hnode.
        { rewrite <- TreeFacts.node_at_lookup by done.
          apply (WalkFacts.walk_found_node _ _ _ _ _ _ _ Hsrc). }
        assert (resolved cwd [Project.www project; target] ≠ []) as HD0.
        { intros E. pose proof (VacantFacts.under_length _ _ (vacant_under _ _ _ Hv1)) as Hl.
          rewrite E in Hl. cbn in Hl. lia. }
        destruct (prefix_weak_total _ ps (ps ++ rel) Hp) as [H | H];
          [by apply prefix_app_r | | done].
        rewrite (VacantFacts.wf_below_absent t _ ps (vacant_wf _ _ _ Hv1) HD0
                   (vacant_dest _ _ _ Hv1) H) in Hnode.
        discriminate Hnode.
      - intros (j & Hj & E). apply Hps1. rewrite <- (take_drop j (resolved cwd _)), <- E.
        apply prefix_app_r. by apply prefix_app_r. }
    split.
    + intros rel.
      rewrite (CopyFacts.installed_frame _ _ _ _ _ Hi2 (proj1 (vacant_under _ _ _ Hv2'))
                 H21 H12).
      * apply Hcopy1.
      * apply prefix_app_r. apply Hv1.
    + intros _ rel. rewrite Hcopy2. by rewrite Hsame.
  - intros [= <-]. cbn [tree]. split; [exact Hcopy1 | discriminate].
Qed.

Lemma asset_install_copies_witness :
  let asset := Example.attrs (Some "www") (Some "js") None in
  let options := Some (Options.Make false false true) in
  let w' := (asset_install "/" asset Example.plugin Example.project options
               Example.world0).1 in
  let copy rel :=
    Fs.cp_node "/" (Path.join (Path.resolve "/" ["/plug"; "www"] :: rel))
      <$> Example.files !! (["plug"; "www"] ++ rel) in
  (∀ rel, tree w' !! (Fs.comps (Path.resolve "/" ["/proj/www"; "js"]) ++ rel) = copy rel) ∧
  (opt Options.usePlatformWww options = true →
   ∀ rel, tree w' !! (Fs.comps (Path.resolve "/" ["/proj/platform_www"; "js"]) ++ rel)
          = copy rel).
Proof.
  intros asset options w'.
  apply (asset_install_copies "/" asset Example.plugin Example.project options
           Example.world0 w' "www" ["plug"; "www"] Fs.Dir eq_refl eq_refl).
  - vm_compute. reflexivity.
  - intros link. discriminate.
  - refine (ready_example _ ["proj"; "www"; "js"] ["proj"; "platform_www"; "js"] _ _ _ _);
      vm_compute; reflexivity.
  - vm_compute. reflexivity.
Defined.


(** X6: what the install of a js-module writes, for any [src]: when it
    returns, the source had a content, and the file at
    [www/plugins/<id>/<src>] reads back as the [cordova.define] envelope of
    the module [<id>.<name>] around the body, the content without its byte
    order mark, after [module.exports = ] when the resolved path of the
    source ends with [.json] and as it is when it does not; with
    [usePlatformWww] the file at [platformWww/plugins/<id>/<src>] reads
    back as the same script. *)
Theorem js_module_install_writes (cwd : string) (obj : Obj.t) (plugin : Plugin.t)
    (project : Project.t) (options : option Options.t) (w w' : world) (src : string) :
  Obj.src obj = Some src →
  js_module_install cwd obj plugin project options w = (w', Ok tt) →
  let mark :=
    String (Ascii.ascii_of_nat 239) (String (Ascii.ascii_of_nat 187)
      (String (Ascii.ascii_of_nat 191) "")) in
  let name :=
    match Obj.name obj with
    | Some n => if Str.is_empty n then Path.basename_ext src (Path.extname src) else n
    | None => Path.basename_ext src (Path.extname src)
    end in
  let source := Path.resolve cwd [Plugin.dir plugin; src] in
  ∃ content body,
    Fs.readFileSync cwd (tree w) source = Ok content ∧
    (content = mark +:+ body ∨ Str.startsWith mark content = false ∧ body = content) ∧
    let script :=
      "cordova.define(" +:+ dq +:+ (Plugin.id plugin +:+ "." +:+ name)
        +:+ dq +:+ ", function(require, exports, module) {" +:+ nl
        +:+ (if Str.endsWith ".json" source then "module.exports = " +:+ body else body)
        +:+ nl +:+ "});" +:+ nl in
    Fs.readFileSync cwd (tree w')
      (Path.resolve cwd [Project.www project; "plugins"; Plugin.id plugin; src])
    = Ok script ∧
    (opt Options.usePlatformWww options = true →
     Fs.readFileSync cwd (tree w')
       (Path.resolve cwd [Project.platformWww project; "plugins"; Plugin.id plugin; src])
     = Ok script).
Proof.
  intros Hs Hrun mark name source.
  destruct (ScriptFacts.js_module_written _ _ _ _ _ _ _ _ Hs Hrun)
    as (content & Hread & Hwww & Hplatform).
  exists content, (stripBOM content). split; [exact Hread |].
  split; [apply ScriptFacts.stripBOM_cases |].
  assert (scriptContent source (Plugin.id plugin +:+ "." +:+ moduleName obj src) content
          = "cordova.define(" +:+ dq +:+ (Plugin.id plugin +:+ "." +:+ name)
              +:+ dq +:+ ", function(require, exports, module) {" +:+ nl
              +:+ (if Str.endsWith ".json" source
                   then "module.exports = " +:+ stripBOM content else stripBOM content)
              +:+ nl +:+ "});" +:+ nl) as <-.
  { unfold scriptContent, moduleName, name, truthy, ToString.
    by destruct (Obj.name obj) as [n |]; [destruct (Str.is_empty n) |]. }
  split; [exact Hwww | exact Hplatform].
Qed.

(** A script that starts with a byte order mark is written without it and
    without [module.exports = ], below both roots. *)
Lemma js_module_install_writes_witness :
  let w' :=
    (js_module_install "/" (Example.attrs (Some "www/y.js") None None)
       Example.plugin Example.project (Some (Options.Make false false true))
       Marked.world0).1 in
  let script :=
    "cordova.define(" +:+ dq +:+ "my.plugin.y" +:+ dq
      +:+ ", function(require, exports, module) {" +:+ nl
      +:+ "y()" +:+ nl +:+ "});" +:+ nl in
  Fs.readFileSync "/" (tree w') "/proj/www/plugins/my.plugin/www/y.js" = Ok script ∧
  Fs.readFileSync "/" (tree w') "/proj/platform_www/plugins/my.plugin/www/y.js" = Ok script.
Proof.
  destruct (js_module_install_writes "/" (Example.attrs (Some "www/y.js") None None)
              Example.plugin Example.project (Some (Options.Make false false true))
              Marked.world0 _ "www/y.js" eq_refl eq_refl)
    as (content & body & Hread & Hbody & Hwww & Hplatform).
  vm_compute in Hread. injection Hread as <-.
  destruct Hbody as [E | [E _]]; [| vm_compute in E; discriminate E].
  vm_compute in E. injection E as <-.
  specialize (Hplatform eq_refl).
  vm_compute in Hwww, Hplatform. vm_compute. split; [exact Hwww | exact Hplatform].
Defined.

(** X7: [getInstallDestination] gives a destination exactly when the
    directive has a [src] and a [targetDir]; without one of them it throws
    a [TypeError], never the error of a required attribute. *)
Theorem getInstallDestination_defined (obj : Obj.t) :
  (is_Some (Obj.src obj) ∧ is_Some (Obj.targetDir obj)
   ↔ ∃ dest, getInstallDestination obj = Ok dest) ∧
  (Obj.src obj = None ∨ Obj.targetDir obj = None →
   ∃ message, getInstallDestination obj = Err (TypeError message)).
Proof.
  unfold getInstallDestination. cbn zeta.
  destruct (Obj.src obj) as [src |], (Obj.targetDir obj) as [targetDir |];
    cbn [path_arg receiver mbind res_bind mret res_ret].
  - split.
    + split; [intros _ | by split; eexists].
      repeat match goal with |- context [if ?b then _ else _] => destruct b end; eauto.
    + intros [? | ?]; discriminate.
  - split.
    + split; [intros [_ [? ?]]; discriminate |].
      intros [dest H]. exfalso. revert H. unfold RegExp.test. cbn [ToString].
      change (RegExp.exec "app" "undefined") with (@None string).
      change (RegExp.exec "libs" "undefined") with (@None string).
      change (RegExp.exec "src/main" "undefined") with (@None string).
      cbn [is_Some_dec bool_decide]. cbn.
      repeat match goal with |- context [if ?b then _ else _] => destruct b end;
        discriminate.
    + intros _. unfold RegExp.test. cbn [ToString].
      change (RegExp.exec "app" "undefined") with (@None string).
      change (RegExp.exec "libs" "undefined") with (@None string).
      change (RegExp.exec "src/main" "undefined") with (@None string).
      cbn.
      repeat match goal with |- context [if ?b then _ else _] => destruct b end; eauto.
  - split.
    + split; [intros [[? ?] _]; discriminate |].
      intros [dest H]. exfalso. revert H.
      destruct (RegExp.test "app" (Some targetDir)); discriminate.
    + intros _. destruct (RegExp.test "app" (Some targetDir)); eauto.
  - split.
    + split; [intros [[? ?] _]; discriminate |].
      intros [dest H]. exfalso. revert H.
      destruct (RegExp.test "app" None); discriminate.
    + intros _. destruct (RegExp.test "app" None); eauto.
Qed.

Lemma getInstallDestination_defined_witness :
  ∃ message,
    getInstallDestination (Example.attrs (Some "Foo.java") None None)
    = Err (TypeError message).
Proof.
  apply (proj2 (getInstallDestination_defined (Example.attrs (Some "Foo.java") None None))).
  right. reflexivity.
Defined.


(** X8: [getInstaller] and [getUninstaller] return the functions of the
    entry of [handlers] for the six kinds, and emit nothing; for any other
    name they return [undefined] after one [verbose] message that names
    it.  The tree is not touched. *)
Theorem getInstaller_supported (cwd type : string) (w : world) :
  let unsupported :=
    (World (tree w)
       (emitted w ++ [("verbose", "<" +:+ type +:+ "> is not supported for android plugins")]),
     Ok None) in
  (type ∈ kinds →
   ∃ h, handlers cwd type = Some h ∧
        getInstaller cwd type w = (w, Ok (Some (install h))) ∧
        getUninstaller cwd type w = (w, Ok (Some (uninstall h)))) ∧
  (type ∉ kinds →
   handlers cwd type = None ∧
   getInstaller cwd type w = unsupported ∧ getUninstaller cwd type w = unsupported).
Proof.
  cbn zeta. unfold getInstaller, getUninstaller, handlers, kinds. split.
  - intros Hin. repeat (apply elem_of_cons in Hin as [-> | Hin]);
      [.. | by apply elem_of_nil in Hin]; eexists; (split; [reflexivity |]);
      split; reflexivity.
  - intros Hout.
    repeat match goal with
           | |- context [String.eqb type ?k] =>
               destruct (String.eqb_spec type k) as [-> | ?];
               [exfalso; apply Hout; set_solver |]
           end.
    split; [reflexivity |]. split; reflexivity.
Qed.

Lemma getInstaller_supported_witness :
  handlers "/" "header-file" = None ∧
  getInstaller "/" "header-file" Example.world0
  = (World Example.files
       [("verbose", "<" +:+ "header-file" +:+ "> is not supported for android plugins")],
     Ok None) ∧
  getUninstaller "/" "header-file" Example.world0
  = (World Example.files
       [("verbose", "<" +:+ "header-file" +:+ "> is not supported for android plugins")],
     Ok None).
Proof.
  apply (proj2 (getInstaller_supported "/" "header-file" Example.world0)).
  unfold kinds. intros Hin.
  repeat (apply elem_of_cons in Hin as [E | Hin]; [discriminate E |]).
  by apply elem_of_nil in Hin.
Defined.

Module ForceFacts.
Import StrFacts PathFacts JoinFacts WalkFacts TreeFacts VacantFacts RestoreFacts
  InstallFacts CopyFacts.

(** [mkdirSync] of the directory of an entry changes nothing. *)
Lemma mkdirSync_parent (cwd : string) (t : Fs.tree) (D : list string) :
  wf t → normal_list D → is_Some (t !! D) →
  Fs.mkdirSync cwd t (Fs.render (Fs.parent D)) = (t, Ok tt).
Proof.
  intros Hwf HnD HD. unfold Fs.mkdirSync. rewrite render_absolute.
  rewrite comps_render by (by apply normal_take).
  assert (D ≠ []) as HD0 by (by apply (wf_root t)).
  assert (0 < length D) as Hlen by (destruct D; [done | cbn; lia]).
  pose proof (parent_length D) as HlP.
  assert (∀ j, 0 < j ≤ length (Fs.parent D) → t !! take j D = Some Fs.Dir) as Hdirs.
  { intros j Hj. rewrite <- node_at_lookup by (apply take_ne_nil; lia).
    apply (wf_ancestors t D); [done | done | apply prefix_take |].
    intros E. apply (f_equal length) in E. rewrite length_take in E. lia. }
  destruct (mkdirs_dirs (Fs.parent D) [] t) as (t1 & -> & _ & Hmade & Helse).
  - done.
  - by apply normal_take.
  - done.
  - intros j Hj. right. cbn [app]. rewrite take_parent by lia. by apply Hdirs.
  - f_equal. apply map_eq. intros q. cbn [app] in *.
    destruct (decide (q = take (length q) D ∧ 0 < length q ≤ length (Fs.parent D)))
      as [[E Hl] | Hn].
    + rewrite E. rewrite <- (take_parent D (length q)) at 1 by lia.
      rewrite Hmade by lia. symmetry. apply Hdirs. lia.
    + apply Helse. intros j Hj E. apply Hn. rewrite take_parent in E by lia.
      rewrite E, length_take. replace (j `min` length D) with j by lia. split; [done | lia].
Qed.

(** [cpSync] of a file over a file. *)
Lemma cpSync_over_file (cwd src : string) (t t2 : Fs.tree) (ps D : list string)
    (c old : string) :
  wf t → normal_list D → t !! D = Some (Fs.File old) →
  Fs.locate cwd t false src = Fs.Found ps (Fs.File c) →
  Fs.cpSync cwd t src (Fs.render D) = (t2, Ok tt) →
  t2 = <[D := Fs.File c]> t.
Proof.
  intros Hwf HnD HD Hsrc. unfold Fs.cpSync. rewrite Hsrc.
  assert (D ≠ []) as HD0 by (apply (wf_root t); [done | by rewrite HD]).
  rewrite (locate_entry cwd t false D (Fs.File old));
    [| done | done | by rewrite node_at_lookup | done].
  cbn [Fs.cp_clash].
  destruct (decide (ps `prefix_of` D)) as [Hps | Hps]; [discriminate |].
  rewrite dirname_render by done.
  rewrite (mkdirSync_parent cwd t D) by (done || by rewrite HD).
  destruct (Fs.existsSync cwd t _).
  all: rewrite (locate_entry cwd t false D (Fs.File old));
    [| done | done | by rewrite node_at_lookup | done].
  all: destruct (list_find _ _) as [[i e] |]; [discriminate |]; intros [= <-].
  all: assert (ps ≠ []) as Hps0 by (intros ->; apply Hps, prefix_nil).
  all: assert (t !! ps = Some (Fs.File c)) as Hpsn
         by (apply walk_found_node in Hsrc; by rewrite node_at_lookup in Hsrc).
  all: apply map_eq; intros q.
  all: destruct (cp_write_lookup cwd src D t (Fs.cp_entries t ps) q)
         as [([rel m] & He & E & ->) | [Hno ->]]; cbn [fst snd] in *.
  1,3: apply elem_of_cp_entries in He;
       assert (ps ++ rel = ps) as Erel
         by (apply (wf_leaf t ps (ps ++ rel) (Fs.File c));
             [done | done | done | by apply prefix_app_r | by rewrite He]);
       rewrite Erel, Hpsn in He; injection He as <-;
       rewrite <- (app_nil_r ps) in Erel at 2; apply app_inv_head in Erel as ->;
       rewrite app_nil_r in E; subst q; by rewrite lookup_insert_eq.
  all: rewrite lookup_insert_ne; [done |]; intros <-;
       apply (Hno ([], Fs.File c)); [| by rewrite app_nil_r];
       apply elem_of_cp_entries; by rewrite app_nil_r.
Qed.

End ForceFacts.

(** X9: with [force], the install of a source file over a file that is
    there, copied and not linked from a file of the plugin, replaces the
    content of the destination by that of the source and changes nothing
    else. *)
Theorem source_file_force_overwrites (cwd : string) (obj : Obj.t) (plugin : Plugin.t)
    (project : Project.t) (options : option Options.t) (w w' : world)
    (src dest : string) (ps : list string) (c old : string) :
  Path.isAbsolute cwd = true →
  Obj.src obj = Some src → getInstallDestination obj = Ok dest →
  opt Options.force options = true → opt Options.link options = false →
  wf (tree w) →
  tree w !! Fs.comps (Path.resolve cwd [Project.projectDir project; dest])
  = Some (Fs.File old) →
  Fs.locate cwd (tree w) false (Path.resolve cwd [Plugin.dir plugin; src])
  = Fs.Found ps (Fs.File c) →
  source_file_install cwd obj plugin project options w = (w', Ok tt) →
  w' = World (<[Fs.comps (Path.resolve cwd [Project.projectDir project; dest])
                := Fs.File c]> (tree w)) (emitted w).
Proof.
  intros Hcwd Hs Hdest Hforce Hlink Hwf HD Hsrc.
  rewrite PathFacts.resolve_render in HD |- * by done.
  rewrite PathFacts.comps_render in HD |- * by apply PathFacts.resolved_normal.
  unfold source_file_install. rewrite Hs, Hdest, Hforce, Hlink. cbn [truthy].
  destruct (Str.is_empty src); cbn [negb]; [discriminate |].
  destruct (truthy (Obj.targetDir obj)); cbn [negb]; [| discriminate].
  unfold mbind at 1, M_bind at 1, lift at 1.
  unfold copyFile. run.
  destruct (Fs.existsSync cwd _ _); cbn [negb]; [| discriminate].
  destruct (Fs.realpathSync cwd _ (Path.resolve _ _)) as [real |]; [| discriminate].
  destruct (Fs.realpathSync cwd _ (Plugin.dir plugin)) as [real_plugin |]; [| discriminate].
  destruct (isPathInside cwd real real_plugin); cbn [negb]; [| discriminate].
  destruct (isPathInside cwd _ (Project.projectDir project)); cbn [negb]; [| discriminate].
  cbn [tree emitted].
  rewrite (PathFacts.resolve_render cwd [Project.projectDir project; dest]) by done.
  rewrite PathFacts.dirname_render by apply PathFacts.resolved_normal.
  rewrite ForceFacts.mkdirSync_parent;
    [| done | apply PathFacts.resolved_normal | by rewrite HD].
  cbn [tree emitted].
  destruct (Fs.cpSync cwd (tree w) _ _) as [t2 [[] | err]] eqn:Ecp; [| discriminate].
  intros [= <-]. f_equal.
  eapply ForceFacts.cpSync_over_file;
    [exact Hwf | apply PathFacts.resolved_normal | exact HD | exact Hsrc | exact Ecp].
Qed.


Lemma source_file_force_overwrites_witness :
  (source_file_install "/" Sources.directive Example.plugin Example.project
     (Some (Options.Make true false false)) (World Installed.files [])).1
  = World (<[Fs.comps (Path.resolve "/" [Project.projectDir Example.project;
                                         "app/src/main/java/org/foo/Foo.java"])
             := Fs.File "class Foo {}"]> Installed.files) [].
Proof.
  apply (source_file_force_overwrites "/" Sources.directive Example.plugin Example.project
           (Some (Options.Make true false false)) (World Installed.files []) _
           "src/android/Foo.java" "app/src/main/java/org/foo/Foo.java"
           ["plug"; "src"; "android"; "Foo.java"] "class Foo {}" "old"
           eq_refl eq_refl).
  - vm_compute. reflexivity.
  - reflexivity.
  - reflexivity.
  - apply wfb_wf. vm_compute. reflexivity.
  - vm_compute. reflexivity.
  - vm_compute. reflexivity.
  - vm_compute. reflexivity.
Defined.

Module RemoveFacts.
Import StrFacts PathFacts JoinFacts WalkFacts TreeFacts.

(** [removeFileF] of an entry, and of what is not in a directory that is
    there. *)
Lemma removeFileF_entry (cwd base dest : string) (w : world) :
  Path.isAbsolute cwd = true → wf (tree w) →
  let D := Fs.comps (Path.resolve cwd [base; dest]) in
  is_Some (tree w !! D) ∨ D ≠ [] ∧ Fs.node_at (tree w) (Fs.parent D) = Some Fs.Dir →
  ∃ w',
    removeFileF cwd (Path.resolve cwd [base; dest]) w = (w', Ok tt) ∧
    emitted w' = emitted w ∧
    ∀ q, tree w' !! q = if decide (D `prefix_of` q) then None else tree w !! q.
Proof.
  intros Hcwd Hwf D. subst D. rewrite resolve_render by done.
  rewrite comps_render by apply resolved_normal.
  set (D := resolved cwd [base; dest]).
  assert (normal_list D) as HnD by apply resolved_normal.
  intros [HD | [HD0 Hpar]].
  - exists (World (Fs.remove_subtree (tree w) D) (emitted w)). run.
    rewrite (rmSync_entry cwd (tree w) D) by done.
    split; [done |]. split; [done |]. intros q. apply lookup_remove_subtree.
  - destruct (tree w !! D) as [n |] eqn:E.
    { exists (World (Fs.remove_subtree (tree w) D) (emitted w)). run.
      rewrite (rmSync_entry cwd (tree w) D) by (done || by rewrite E).
      split; [done |]. split; [done |]. intros q. apply lookup_remove_subtree. }
    exists w. run. unfold Fs.rmSync.
    destruct (exists_last HD0) as (P & x & EP).
    rewrite EP in Hpar, E, HnD. rewrite parent_snoc in Hpar.
    rewrite EP. rewrite (locate_missing cwd (tree w) false P x) by done.
    split; [by destruct w |]. split; [done |]. intros q.
    destruct (decide ((P ++ [x]) `prefix_of` q)) as [Hq |]; [| done].
    apply (VacantFacts.wf_below_absent (tree w) (P ++ [x])); try done. by destruct P.
Qed.

End RemoveFacts.

(** X10: the uninstall of a library, of a resource and of a source file that
    is not Java removes what is at the destination, with what is below
    it, and nothing else: the directories above the destination stay,
    empty or not.  With nothing at the destination, in a directory that is
    there, it changes nothing and is no error. *)
Theorem file_uninstall_removes (cwd : string) (obj : Obj.t) (plugin : Plugin.t)
    (project : Project.t) (options : option Options.t) (w : world) :
  Path.isAbsolute cwd = true → wf (tree w) →
  let removes (uninstall : handler) (dest : string) :=
    let D := Fs.comps (Path.resolve cwd [Project.projectDir project; dest]) in
    is_Some (tree w !! D) ∨ D ≠ [] ∧ Fs.node_at (tree w) (Fs.parent D) = Some Fs.Dir →
    ∃ w',
      uninstall obj plugin project options w = (w', Ok tt) ∧
      emitted w' = emitted w ∧
      ∀ q, tree w' !! q = if decide (D `prefix_of` q) then None else tree w !! q in
  (∀ src, Obj.src obj = Some src →
          removes (lib_file_uninstall cwd) (Path.join ["app/libs"; Path.basename src])) ∧
  (∀ target, Obj.target obj = Some target →
             removes (resource_file_uninstall cwd)
               (Path.join ["app"; "src"; "main"; target])) ∧
  (∀ src dest, Obj.src obj = Some src → Str.endsWith "java" src = false →
               getInstallDestination obj = Ok dest →
               removes (source_file_uninstall cwd) dest).
Proof.
  intros Hcwd Hwf. cbn zeta. split; [| split].
  - intros src Hs HD. unfold lib_file_uninstall. rewrite Hs.
    cbn [path_arg]. unfold mbind, M_bind, lift.
    by apply RemoveFacts.removeFileF_entry.
  - intros target Ht HD. unfold resource_file_uninstall. rewrite Ht.
    cbn [path_arg]. unfold mbind, M_bind, lift.
    by apply RemoveFacts.removeFileF_entry.
  - intros src dest Hs Hjava Hdest HD. unfold source_file_uninstall.
    rewrite Hs, Hdest. cbn [receiver]. unfold mbind, M_bind, lift. rewrite Hjava.
    by apply RemoveFacts.removeFileF_entry.
Qed.

Lemma file_uninstall_removes_witness :
  let obj := Example.attrs None (Some "java/org/foo/Foo.java") None in
  let D := Fs.comps (Path.resolve "/" ["/proj";
                                       Path.join ["app"; "src"; "main";
                                                  "java/org/foo/Foo.java"]]) in
  ∃ w',
    resource_file_uninstall "/" obj Example.plugin Example.project None
      (World Installed.files []) = (w', Ok tt) ∧
    emitted w' = [] ∧
    ∀ q, tree w' !! q = if decide (D `prefix_of` q) then None else Installed.files !! q.
Proof.
  intros obj D.
  refine (proj1 (proj2 (file_uninstall_removes "/" obj Example.plugin Example.project None
                          (World Installed.files []) eq_refl _))
            "java/org/foo/Foo.java" eq_refl _).
  - apply wfb_wf. vm_compute. reflexivity.
  - left. vm_compute. eauto.
Defined.

Module FrameworkFacts.
Import StrFacts PathFacts JoinFacts WalkFacts TreeFacts PruneFacts VacantFacts
  RestoreFacts InstallFacts CopyFacts.

Lemma bind_assoc {A B C} (m : M A) (f : A → M B) (g : B → M C) (w : world) :
  (m ≫= λ x, f x ≫= g) w = ((m ≫= f) ≫= g) w.
Proof.
  unfold mbind, M_bind. destruct (m w) as [w1 [a | e]]; [| done].
  by destruct (f a w1) as [w2 [b | e]].
Qed.

(** The removal of a subproject directory and of its directory when that
    is left empty, after an install one or two names below [W]. *)
Lemma subproject_removed (cwd : string) (W D : list string) (t t2 : Fs.tree)
    (e : list (string * string)) :
  normal_list D → vacant W D t → installed W D t t2 →
  length D ≤ length W + 2 →
  (length D = Datatypes.S (length W) → ∃ x, is_Some (t !! (W ++ [x]))) →
  ∃ t3,
    removeFileF cwd (Fs.render D) (World t2 e) = (World t3 e, Ok tt) ∧
    (ex ← existsSync cwd (Path.dirname (Fs.render D));
     if (ex : bool) then
       entries ← readdirSync cwd (Path.dirname (Fs.render D));
       if Nat.eqb (length entries) 0 then rmdirSync cwd (Path.dirname (Fs.render D))
       else mret tt
     else mret tt) (World t3 e)
    = (World t e, Ok tt).
Proof.
  intros HnD Hv Hi Hlen2 Hne.
  pose proof Hv as [Hwf Hunder Hroot Hdest Hmid].
  pose proof Hi as [Hwf2 Hmore (n & HnD2 & Hnl) Hbtw Hother].
  pose proof (under_length _ _ Hunder) as Hlen. pose proof Hunder as [HWD _].
  assert (D ≠ []) as HD0 by (intros E; rewrite E in Hlen; cbn in Hlen; lia).
  rewrite dirname_render by done.
  exists (Fs.remove_subtree t2 D). split.
  { run. by rewrite (rmSync_entry cwd t2 D) by (done || by rewrite HnD2). }
  run.
  set (t3 := Fs.remove_subtree t2 D). set (P := Fs.parent D).
  assert (wf t3) as Hwf3 by (by apply wf_remove_subtree).
  assert (∀ q, t3 !! q = if decide (D `prefix_of` q) then None else t2 !! q) as Ht3
    by apply lookup_remove_subtree.
  assert (length P = length D - 1) as HlP by apply parent_length.
  assert (∀ q, D `prefix_of` q → t !! q = None) as Hbelow.
  { intros q Hq. by apply (wf_below_absent t D). }
  assert (∀ q, length q ≠ length P → ¬ D `prefix_of` q → t2 !! q = t !! q) as Hsame.
  { intros q Hq HDq. apply Hother; [done |]. intros (j & Hj & E).
    apply (f_equal length) in E. rewrite length_take in E. lia. }
  assert (¬ D `prefix_of` P) as HDP.
  { intros Hp. apply prefix_length in Hp. lia. }
  assert (normal_list P) as HnP by (by apply normal_take).
  assert (Fs.node_at t3 P = Some Fs.Dir) as HP3.
  { destruct (decide (P = [])) as [-> | HP0]; [done |].
    rewrite node_at_lookup by done. rewrite Ht3, decide_False by done.
    destruct (decide (length D = Datatypes.S (length W))) as [El | El].
    - assert (P = W) as EPW.
      { unfold P, Fs.parent. replace (length D - 1) with (length W) by lia.
        by apply under_take. }
      rewrite Hother.
      + rewrite <- node_at_lookup by done. by rewrite EPW.
      + done.
      + intros (j & Hj & E). lia.
    - apply Hbtw. exists (length D - 1). split; [lia | done]. }
  destruct (readdir_dir cwd t3 P Hwf3 HnP HP3) as [Hex Hrd].
  rewrite Hex. cbn [tree emitted]. rewrite Hrd. cbn [tree emitted].
  assert (∀ x, ¬ D `prefix_of` P ++ [x] → t3 !! (P ++ [x]) = t !! (P ++ [x])) as Hchild.
  { intros x Hx. rewrite Ht3, decide_False by done. apply Hsame; [| done].
    rewrite length_app. cbn. lia. }
  destruct (decide (length D = Datatypes.S (length W))) as [El | El].
  - (* the subproject directory is in [W] *)
    assert (P = W) as EPW.
    { unfold P, Fs.parent. replace (length D - 1) with (length W) by lia.
      by apply under_take. }
    destruct (Hne El) as [x Hx].
    assert (t3 = t) as ->.
    { apply map_eq. intros q. rewrite Ht3.
      destruct (decide (D `prefix_of` q)) as [Hq |]; [symmetry; by apply Hbelow |].
      apply Hother; [done |]. intros (j & Hj & E). lia. }
    destruct (Fs.children t P) as [|y l] eqn:Ec; cbn [length Nat.eqb]; [| done].
    exfalso. rewrite EPW in Ec. rewrite (proj1 (children_nil t W) Ec x) in Hx.
    by destruct Hx.
  - (* the subproject directory is in a directory of [W] *)
    assert (midway W D P) as HmP by (exists (length D - 1); split; [lia | done]).
    assert (P ≠ []) as HP0.
    { intros E. rewrite E in HlP. cbn in HlP. lia. }
    assert (∀ q, q ≠ P → ¬ D `prefix_of` q → t2 !! q = t !! q) as Hsame'.
    { intros q Hq HDq. apply Hother; [done |]. intros (j & Hj & E).
      apply Hq. rewrite E. unfold P, Fs.parent. f_equal. lia. }
    destruct (t !! P) as [m |] eqn:EP.
    + assert (m = Fs.Dir) as ->.
      { apply (lookup_weaken t t2) in EP; [| done]. rewrite (Hbtw P HmP) in EP.
        by injection EP as <-. }
      assert (t3 = t) as ->.
      { apply map_eq. intros q. rewrite Ht3.
        destruct (decide (D `prefix_of` q)) as [Hq |]; [symmetry; by apply Hbelow |].
        destruct (decide (q = P)) as [-> | HqP]; [by rewrite (Hbtw P HmP) |].
        by apply Hsame'. }
      destruct (Hmid (length D - 1)) as [x Hx];
        [lia | change (take (length D - 1) D) with P; by rewrite EP |].
      change (take (length D - 1) D) with P in Hx.
      destruct (Fs.children t P) as [|y l] eqn:Ec; cbn [length Nat.eqb]; [| done].
      exfalso. rewrite (proj1 (children_nil t P) Ec x) in Hx. by destruct Hx.
    + assert (Fs.children t3 P = []) as Ec.
      { apply children_nil. intros x. rewrite Ht3.
        destruct (decide (D `prefix_of` P ++ [x])) as [Hq |]; [done |].
        rewrite Hsame'; [| (intros E; symmetry in E; by apply snoc_ne_self in E) | done].
        apply (wf_below_absent t P); [done | done | done | by apply prefix_app_r]. }
      rewrite Ec. cbn [length Nat.eqb tree emitted].
      rewrite (rmdir_empty cwd t3 P) by done. rewrite decide_False by done.
      cbn [tree emitted]. f_equal. f_equal. apply map_eq. intros q.
      destruct (decide (q = P)) as [-> | HqP]; [by rewrite lookup_delete_eq, EP |].
      rewrite lookup_delete_ne by done. rewrite Ht3.
      destruct (decide (D `prefix_of` q)) as [Hq |]; [symmetry; by apply Hbelow |].
      by apply Hsame'.
Qed.

End FrameworkFacts.

(** X11: a framework that is not custom is a system library, whatever its
    [type]: the install emits its message and adds [src] to the system
    libraries of the project, the uninstall emits its message and removes
    it; the handler itself reads and writes no file. *)
Theorem framework_system (cwd : string) (obj : Obj.t) (plugin : Plugin.t)
    (project : Project.t) (options : option Options.t) (w : world) (src : string) :
  Obj.src obj = Some src → src ≠ "" → Obj.custom obj = false →
  framework_install cwd obj plugin project options w
  = Project.addSystemLibrary project (framework_parentDir cwd obj project) src
      (World (tree w) (emitted w ++ [("verbose", "Installing Android library: " +:+ src)])) ∧
  framework_uninstall cwd obj plugin project options w
  = Project.removeSystemLibrary project (framework_parentDir cwd obj project) src
      (World (tree w) (emitted w ++ [("verbose", "Uninstalling Android library: " +:+ src)])).
Proof.
  intros Hs Hne Hc. unfold framework_install, framework_uninstall, framework_type.
  rewrite Hs, Hc. cbn [truthy ToString].
  apply StrFacts.is_empty_false in Hne. rewrite Hne. cbn [negb].
  rewrite (bool_decide_eq_false_2 (Some "sys" = Some "gradleReference")) by discriminate.
  rewrite (bool_decide_eq_true_2 (Some "sys" = Some "sys")) by done.
  unfold mbind, M_bind, mret, M_ret, events_emit. split.
  - by destruct (Project.addSystemLibrary project _ src _) as [w1 [[] | e]].
  - by destruct (Project.removeSystemLibrary project _ src _) as [w1 [[] | e]].
Qed.

Lemma framework_system_witness :
  let obj := Obj.Make (Some "androidx.core") None None None None false
               (Some "gradleReference") in
  framework_install "/" obj Example.plugin Example.project None Example.world0
  = Project.addSystemLibrary Example.project (framework_parentDir "/" obj Example.project)
      "androidx.core"
      (World (tree Example.world0)
         (emitted Example.world0
            ++ [("verbose", "Installing Android library: " +:+ "androidx.core")])) ∧
  framework_uninstall "/" obj Example.plugin Example.project None Example.world0
  = Project.removeSystemLibrary Example.project (framework_parentDir "/" obj Example.project)
      "androidx.core"
      (World (tree Example.world0)
         (emitted Example.world0
            ++ [("verbose", "Uninstalling Android library: " +:+ "androidx.core")])).
Proof.
  intros obj.
  apply (framework_system "/" obj Example.plugin Example.project None Example.world0
           "androidx.core" eq_refl); [discriminate | reflexivity].
Defined.

(** X12: the install of a custom framework, copied and not linked, into a
    subproject directory one or two names below the project directory is
    undone on the tree by its uninstall, for a project whose operations on
    the build configuration leave the tree as it is: the subproject
    directory is removed, and the directory it was in when the install had
    made it.  Before the install the project directory is a directory,
    nothing is at the subproject directory, the directory it goes in is
    not there or not empty, and the project directory has an entry when
    the subproject directory goes straight in it. *)
Theorem framework_custom_round_trip (cwd : string) (obj : Obj.t) (plugin : Plugin.t)
    (project : Project.t) (options : option Options.t) (w w1 : world)
    (src : string) (ps : list string) (n : Fs.node) :
  Path.isAbsolute cwd = true →
  Obj.src obj = Some src → src ≠ "" → Obj.custom obj = true →
  opt Options.link options = false →
  registers_only project →
  let W := Fs.comps (Path.resolve cwd [Project.projectDir project]) in
  let D := Fs.comps (Path.resolve cwd
                       [Project.projectDir project;
                        Project.getCustomSubprojectRelativeDir project
                          (Plugin.id plugin) src]) in
  vacant W D (tree w) → length D ≤ length W + 2 →
  (length D = S (length W) → ∃ x, is_Some (tree w !! (W ++ [x]))) →
  Fs.locate cwd (tree w) false (Path.resolve cwd [Plugin.dir plugin; src]) = Fs.Found ps n →
  (∀ link, n ≠ Fs.Symlink link) →
  framework_install cwd obj plugin project options w = (w1, Ok tt) →
  ∃ w2, framework_uninstall cwd obj plugin project options w1 = (w2, Ok tt) ∧
        tree w2 = tree w.
Proof.
  intros Hcwd Hs Hne Hc Hlink Hreg W D. subst W D.
  set (sub := Project.getCustomSubprojectRelativeDir project (Plugin.id plugin) src).
  rewrite !PathFacts.resolve_render by done.
  rewrite !PathFacts.comps_render by apply PathFacts.resolved_normal.
  rewrite <- (PathFacts.resolve_render cwd [Plugin.dir plugin; src]) by done.
  intros Hv Hlen Hx Hsrc Hn.
  destruct w as [t e]. cbn [tree] in *.
  unfold framework_install, framework_uninstall. rewrite Hs, Hc, Hlink.
  cbn [truthy ToString]. apply StrFacts.is_empty_false in Hne. rewrite Hne. cbn [negb].
  fold sub.
  unfold mbind at 1, M_bind at 1, events_emit at 1. cbn [tree emitted].
  unfold mbind at 1, M_bind at 1. unfold mbind at 1, M_bind at 1.
  destruct (copyNewFile cwd (Plugin.dir plugin) (Some src) (Project.projectDir project)
              sub false _) as [wc [[] | err]] eqn:Ecopy; [| discriminate].
  unfold mret at 1, M_ret at 1.
  assert (∃ t2, wc = World t2 (e ++ [("verbose", "Installing Android library: " +:+ src)])
                ∧ installed (resolved cwd [Project.projectDir project])
                    (resolved cwd [Project.projectDir project; sub]) t t2)
    as (t2 & -> & Hi).
  { revert Ecopy. unfold copyNewFile. run.
    destruct (Fs.existsSync cwd t _); [discriminate |].
    apply (HandlerFacts.copyFile_installed _ _ _ _ _ _ _ ps n);
      [exact Hcwd | exact Hv | exact Hsrc | exact Hn]. }
  intros Hadd.
  assert (∃ e1, w1 = World t2 e1) as [e1 ->].
  { destruct (Hreg (framework_parentDir cwd obj project)
                (Path.resolve cwd [Project.projectDir project; sub]))
      as (H1 & H2 & H3 & _).
    repeat match type of Hadd with
           | context [if ?b then _ else _] => destruct b
           end;
      [destruct (H1 (World t2 (e ++ [("verbose", "Installing Android library: " +:+ src)])))
         as [e1 E]
      | destruct (H2 (World t2 (e ++ [("verbose", "Installing Android library: " +:+ src)])))
         as [e1 E]
      | destruct (H3 (World t2 (e ++ [("verbose", "Installing Android library: " +:+ src)])))
         as [e1 E]];
      rewrite E in Hadd; injection Hadd as <-; by exists e1. }
  unfold mbind at 1, M_bind at 1, events_emit at 1. cbn [tree emitted].
  unfold mbind at 1, M_bind at 1. unfold mbind at 1, M_bind at 1.
  rewrite (PathFacts.resolve_render cwd [Project.projectDir project; sub]) by done.
  destruct (FrameworkFacts.subproject_removed cwd _ _ t t2
              (e1 ++ [("verbose", "Uninstalling Android library: " +:+ src)])
              (PathFacts.resolved_normal _ _) Hv Hi Hlen Hx) as (t3 & -> & Hcheck).
  rewrite FrameworkFacts.bind_assoc.
  unfold mbind at 1, M_bind at 1. rewrite Hcheck.
  unfold mret at 1, M_ret at 1.
  destruct (Hreg (framework_parentDir cwd obj project)
              (Fs.render (resolved cwd [Project.projectDir project; sub])))
    as (_ & _ & _ & H4 & H5 & H6).
  repeat match goal with
         | |- context [if ?b then _ else _] => destruct b
         end;
    [destruct (H4 (World t (e1 ++ [("verbose", "Uninstalling Android library: " +:+ src)])))
       as [e2 ->]
    | destruct (H5 (World t (e1 ++ [("verbose", "Uninstalling Android library: " +:+ src)])))
       as [e2 ->]
    | destruct (H6 (World t (e1 ++ [("verbose", "Uninstalling Android library: " +:+ src)])))
       as [e2 ->]];
    by eexists.
Qed.

Lemma registers_only_example : registers_only Example.project.
Proof.
  intros a b. repeat split; intros w; exists (emitted w); by destruct w.
Defined.

Lemma framework_custom_round_trip_witness :
  ∃ w2,
    framework_uninstall "/" framework_custom Example.plugin Example.project None
      (framework_install "/" framework_custom Example.plugin Example.project None
         (World Sources.with_lib [])).1 = (w2, Ok tt) ∧
    tree w2 = Sources.with_lib.
Proof.
  apply (framework_custom_round_trip "/" framework_custom Example.plugin Example.project
           None (World Sources.with_lib []) _ "lib" ["plug"; "lib"] Fs.Dir eq_refl eq_refl).
  - discriminate.
  - reflexivity.
  - reflexivity.
  - apply registers_only_example.
  - apply vacantb_vacant. vm_compute. reflexivity.
  - vm_compute. lia.
  - intros E. vm_compute in E. discriminate E.
  - vm_compute. reflexivity.
  - intros link. discriminate.
  - vm_compute. reflexivity.
Defined.

Module LinkFacts.
Import StrFacts PathFacts JoinFacts WalkFacts TreeFacts VacantFacts RestoreFacts
  InstallFacts CopyFacts InsideFacts.

(** A walk along directories. *)
Lemma walk_dirs_app (links : nat) (t : Fs.tree) (follow : bool)
    (names cur rest : list string) :
  normal_list names →
  (∀ k, 0 < k ≤ length names → t !! (cur ++ take k names) = Some Fs.Dir) →
  Fs.walk links t follow cur (names ++ rest) = Fs.walk links t follow (cur ++ names) rest.
Proof.
  revert cur. induction names as [|x names IH]; intros cur Hn Hd.
  - by rewrite app_nil_r.
  - apply Forall_cons in Hn as [Hx Hn]. cbn [app]. rewrite walk_cons.
    apply normal_seg_inv in Hx as (_ & _ & Hx & _).
    apply String.eqb_neq in Hx. rewrite Hx.
    pose proof (Hd 1 ltac:(cbn; lia)) as H1. cbn [take] in H1. rewrite take_0 in H1.
    rewrite H1. rewrite IH; [by rewrite <- (assoc_L (++)) | done |].
    intros k Hk. rewrite <- (assoc_L (++)). apply (Hd (Datatypes.S k)). cbn. lia.
Qed.

(** A walk up. *)
Lemma walk_ups (links : nat) (t : Fs.tree) (follow : bool)
    (up cur rest : list string) :
  Fs.walk links t follow cur (((λ _ : string, "..") <$> up) ++ rest)
  = Fs.walk links t follow (take (length cur - length up) cur) rest.
Proof.
  revert cur. induction up as [|u up IH]; intros cur.
  - cbn. by rewrite Nat.sub_0_r, firstn_all.
  - cbn [fmap list_fmap app]. rewrite walk_cons. cbn [String.eqb Ascii.eqb Bool.eqb].
    change (String.eqb ".." "..") with true. cbn match.
    rewrite IH. unfold Fs.parent. rewrite take_take, length_take. cbn [length].
    do 2 f_equal. lia.
Qed.

Lemma comps_join (l : list string) :
  l ≠ [] → Forall (λ s, Str.no_slash s = true ∧ s ≠ "" ∧ s ≠ ".") l →
  Fs.comps (Str.join l) = l.
Proof.
  intros Hl Hall. unfold Fs.comps. rewrite split_join.
  - induction Hall as [|s l [_ [H1 H2]] Hall IH]; [done |].
    rewrite filter_cons, decide_True by done.
    destruct l as [|y l]; [done |]. by rewrite IH.
  - done.
  - eapply Forall_impl; [exact Hall |]. by intros s [? _].
Qed.

(** [path.relative] of two rendered lists of names. *)
Lemma relative_render (cwd : string) (P S : list string) :
  normal_list P → normal_list S → P ≠ S →
  Path.relative cwd (Fs.render P) (Fs.render S)
  = Str.join (((λ _ : string, "..") <$> (Path.strip_common P S).1)
              ++ (Path.strip_common P S).2).
Proof.
  intros HP HS Hne. unfold Path.relative.
  assert (Fs.render P ≠ Fs.render S) as Hr.
  { intros E. apply Hne. by apply render_inj. }
  apply String.eqb_neq in Hr. rewrite Hr.
  unfold Path.resolve.
  assert (∀ l, normal_list l →
            (let '(resolvedPath, resolvedAbsolute) :=
               Path.resolve_loop cwd (rev [Fs.render l]) "" in
             let p := Path.normalizeString resolvedPath (negb resolvedAbsolute) in
             if resolvedAbsolute then "/" +:+ p
             else if Str.is_empty p then "." else p) = Fs.render l) as Hres.
  { intros l Hl. cbn [rev app Path.resolve_loop].
    assert (Str.is_empty (Fs.render l) = false) as -> by done.
    rewrite render_absolute. cbn [negb].
    unfold Path.normalizeString. fold (Fs.render (Path.norm_segs false
      (Str.split (Fs.render l +:+ "/" +:+ "")))).
    f_equal. pose proof (resolved_render "/" l Hl) as E. unfold resolved in E.
    cbn [rev app Path.resolve_loop] in E.
    assert (Str.is_empty (Fs.render l) = false) as Hne' by done.
    rewrite Hne', render_absolute in E. exact E. }
  rewrite !Hres by done. rewrite Hr. rewrite !segments_render by done.
  by destruct (Path.strip_common P S).
Qed.

(** The link [symlinkSync] makes at [D], to the path from the directory of
    [D] to the file at [S], leads to that file. *)
Lemma link_resolves (cwd : string) (t : Fs.tree) (P S : list string) (x c : string) :
  wf t → normal_list (P ++ [x]) → normal_list S →
  Fs.node_at t P = Some Fs.Dir → t !! (P ++ [x]) = None → t !! S = Some (Fs.File c) →
  Fs.locate cwd
    (<[P ++ [x] := Fs.Symlink (Path.relative cwd (Fs.render P) (Fs.render S))]> t)
    true (Fs.render (P ++ [x]))
  = Fs.Found S (Fs.File c).
Proof.
  intros Hwf HnD HnS HP HD HS.
  assert (normal_list P) as HnP by (by apply Forall_app in HnD as [? _]).
  assert (S ≠ []) as HS0 by (apply (wf_root t); [done | by rewrite HS]).
  assert (P ≠ S) as HPS.
  { intros ->. rewrite node_at_lookup in HP by done. congruence. }
  set (target := Path.relative cwd (Fs.render P) (Fs.render S)).
  set (t2 := <[P ++ [x] := Fs.Symlink target]> t).
  assert (∀ q, is_Some (t !! q) → t2 !! q = t !! q) as Hold.
  { intros q Hq. unfold t2. rewrite lookup_insert_ne; [done |]. intros <-.
    rewrite HD in Hq. by destruct Hq. }
  assert (∀ q, q `prefix_of` S → q ≠ S → q ≠ [] → t2 !! q = Some Fs.Dir) as Hanc.
  { intros q Hq Hne H0.
    pose proof (wf_ancestors t S q Hwf ltac:(by rewrite HS) Hq Hne) as Hd.
    rewrite node_at_lookup in Hd by done. rewrite Hold; [done | by rewrite Hd]. }
  unfold Fs.locate. rewrite render_absolute, comps_render by done.
  rewrite walk_dirs_app; [| done |].
  2:{ intros k Hk. cbn [app].
      assert (Fs.node_at t (take k P) = Some Fs.Dir) as Hd.
      { destruct (decide (k = length P)) as [-> | Hne]; [by rewrite firstn_all |].
        destruct (decide (P = [])) as [-> | HP0]; [cbn in Hk; lia |].
        rewrite node_at_lookup in HP by done.
        apply (wf_ancestors t P); [done | by rewrite HP | apply prefix_take |].
        intros E. apply (f_equal length) in E. rewrite length_take in E. lia. }
      rewrite node_at_lookup in Hd by (apply take_ne_nil; lia).
      rewrite Hold; [done | by rewrite Hd]. }
  cbn [app]. rewrite walk_cons.
  apply Forall_app in HnD as [_ Hx]. apply Forall_cons in Hx as [Hx _].
  apply normal_seg_inv in Hx as (_ & _ & Hx & _).
  apply String.eqb_neq in Hx. rewrite Hx.
  unfold t2 at 1. rewrite lookup_insert_eq. cbn [bool_decide negb andb].
  rewrite andb_false_r.
  destruct (strip_common_spec P S) as (cm & EP & ES & Hdiff).
  unfold target. rewrite relative_render by done.
  destruct (Path.strip_common P S) as [up down]. cbn [fst snd] in *.
  assert (down ≠ []) as Hdown.
  { intros ->. rewrite app_nil_r in ES. subst cm.
    destruct (decide (P = [])) as [E0 | HP0].
    - rewrite E0 in EP. symmetry in EP. by apply app_nil in EP as [? _].
    - rewrite node_at_lookup in HP by done.
      pose proof (wf_ancestors t P S Hwf ltac:(by rewrite HP)) as Hd.
      rewrite node_at_lookup in Hd by done. rewrite HS in Hd.
      assert (Some (Fs.File c) = Some Fs.Dir) as Habs; [| discriminate Habs].
      apply Hd; [rewrite EP; by apply prefix_app_r | done]. }
  assert (normal_list down) as Hnd.
  { rewrite ES in HnS. by apply Forall_app in HnS as [_ ?]. }
  set (names := ((λ _ : string, "..") <$> up) ++ down).
  assert (names ≠ []) as Hnames by (unfold names; by destruct up, down).
  assert (Forall (λ s, Str.no_slash s = true ∧ s ≠ "" ∧ s ≠ ".") names) as Hall.
  { apply Forall_app. split.
    - apply Forall_fmap. apply Forall_forall. by intros.
    - eapply Forall_impl; [exact Hnd |]. intros s Hs.
      apply normal_seg_inv in Hs. tauto. }
  assert (Str.is_empty (Str.join names) = false) as ->.
  { apply is_empty_false. intros E.
    pose proof (comps_join names Hnames Hall) as Ec. rewrite E in Ec.
    change (Fs.comps "") with (@nil string) in Ec. by rewrite <- Ec in Hnames. }
  assert (Path.isAbsolute (Str.join names) = false) as ->.
  { destruct (Path.isAbsolute _) eqn:E; [| done].
    apply isAbsolute_split in E as [l E].
    rewrite split_join in E; [| done | eapply Forall_impl; [exact Hall |]; by intros s [? _]].
    rewrite E in Hall. apply Forall_cons in Hall as [[_ [? _]] _]. done. }
  change Fs.MAXSYMLINKS with (Datatypes.S 39). cbn match.
  rewrite comps_join by done. rewrite app_nil_r. unfold names.
  rewrite walk_ups.
  assert (take (length P - length up) P = cm) as ->.
  { rewrite EP, length_app. replace (length cm + length up - length up) with (length cm) by lia.
    by rewrite take_app_length. }
  rewrite walk_through_dirs; [| done | done | |].
  - rewrite <- ES. rewrite Hold by (by rewrite HS). by rewrite HS.
  - intros k Hk. apply Hanc.
    + rewrite ES. apply prefix_app, prefix_take.
    + intros E. apply (f_equal length) in E. rewrite ES, !length_app, length_take in E. lia.
    + intros E. apply (f_equal length) in E. rewrite length_app, length_take in E.
      cbn in E. lia.
  - intros _ tg. rewrite <- ES. rewrite Hold by (by rewrite HS). by rewrite HS.
Qed.

Lemma symlinkFileOrDirTree_rec_S (cwd : string) (depth : nat) (src dest : string) :
  symlinkFileOrDirTree_rec cwd (Datatypes.S depth) src dest
  = (e ← existsSync cwd dest;
     (if (e : bool) then rmSync cwd dest else mret tt);;
     d ← statSync_isDirectory cwd src;
     if (d : bool) then
       mkdirSync cwd (Path.dirname dest);;
       entries ← readdirSync cwd src;
       forEach entries (λ entry,
         symlinkFileOrDirTree_rec cwd depth (Path.join [src; entry])
                                  (Path.join [dest; entry]))
     else
       real ← realpathSync cwd (Path.dirname dest);
       symlinkSync cwd (Path.relative cwd real src) dest).
Proof. reflexivity. Qed.

(** [symlinkFileOrDirTree] of a file that is an entry of the tree, to a
    destination that is not there in a directory that is. *)
Lemma symlink_file (cwd : string) (t : Fs.tree) (e : list (string * string))
    (P S : list string) (x c : string) :
  wf t → normal_list (P ++ [x]) → normal_list S →
  Fs.node_at t P = Some Fs.Dir → t !! (P ++ [x]) = None → t !! S = Some (Fs.File c) →
  symlinkFileOrDirTree cwd (Fs.render S) (Fs.render (P ++ [x])) (World t e)
  = (World (<[P ++ [x] := Fs.Symlink (Path.relative cwd (Fs.render P) (Fs.render S))]> t) e,
     Ok tt).
Proof.
  intros Hwf HnD HnS HP HD HS.
  assert (normal_list P) as HnP by (by apply Forall_app in HnD as [? _]).
  assert (S ≠ []) as HS0 by (apply (wf_root t); [done | by rewrite HS]).
  unfold symlinkFileOrDirTree. change PATH_MAX with (Datatypes.S (Nat.pred PATH_MAX)).
  rewrite symlinkFileOrDirTree_rec_S. run.
  unfold Fs.existsSync. rewrite (locate_missing cwd t true P x) by done.
  cbn [tree emitted]. unfold Fs.statSync_isDirectory.
  rewrite (locate_entry cwd t true S (Fs.File c));
    [| done | done | by rewrite node_at_lookup | done].
  cbn [tree emitted]. rewrite dirname_render by done. rewrite parent_snoc.
  unfold Fs.realpathSync. rewrite (locate_entry cwd t true P Fs.Dir) by done.
  cbn [tree emitted]. unfold Fs.symlinkSync.
  by rewrite (locate_missing cwd t false P x) by done.
Qed.

End LinkFacts.

(** X13: [copyFile] with [link], of a file that is an entry of the tree at its
    resolved path, to a vacant destination: the destination becomes a link
    to the path from its directory to the source, no entry of the tree is
    changed or removed, and the link leads to the source -- its real path
    is the source and it reads as the source. *)
Theorem copyFile_link_resolves (cwd plugin_dir src project_dir dest : string)
    (w w' : world) (c : string) :
  Path.isAbsolute cwd = true →
  let source := Path.resolve cwd [plugin_dir; src] in
  let target := Path.resolve cwd [project_dir; dest] in
  vacant (Fs.comps (Path.resolve cwd [project_dir])) (Fs.comps target) (tree w) →
  tree w !! Fs.comps source = Some (Fs.File c) →
  copyFile cwd plugin_dir (Some src) project_dir dest true w = (w', Ok tt) →
  tree w' !! Fs.comps target
  = Some (Fs.Symlink (Path.relative cwd (Path.dirname target) source)) ∧
  Fs.realpathSync cwd (tree w') target = Ok source ∧
  Fs.readFileSync cwd (tree w') target = Ok c ∧
  tree w ⊆ tree w'.
Proof.
  intros Hcwd source target. subst source target.
  rewrite !PathFacts.resolve_render by done.
  rewrite !PathFacts.comps_render by apply PathFacts.resolved_normal.
  set (W := resolved cwd [project_dir]). set (D := resolved cwd [project_dir; dest]).
  set (S := resolved cwd [plugin_dir; src]).
  intros Hv HS. destruct w as [t e]. cbn [tree] in *.
  unfold copyFile. run. rewrite !PathFacts.resolve_render by done. fold D S.
  destruct (Fs.existsSync cwd _ _); cbn [negb]; [| discriminate].
  destruct (Fs.realpathSync cwd _ (Fs.render S)) as [real |]; [| discriminate].
  destruct (Fs.realpathSync cwd _ plugin_dir) as [real_plugin |]; [| discriminate].
  destruct (isPathInside cwd real real_plugin); cbn [negb]; [| discriminate].
  destruct (isPathInside cwd _ project_dir); cbn [negb]; [| discriminate].
  cbn [tree emitted].
  assert (normal_list D) as HnD by apply PathFacts.resolved_normal.
  assert (normal_list S) as HnS by apply PathFacts.resolved_normal.
  rewrite PathFacts.dirname_render by done.
  destruct (InstallFacts.mkdirSync_vacant cwd W D t Hv HnD)
    as (t1 & -> & Hwf1 & Hsub & Hmade & Hsame).
  cbn [tree emitted].
  pose proof Hv as [Hwf Hunder Hroot Hdest Hmid].
  pose proof (VacantFacts.under_length _ _ Hunder) as Hlen. pose proof Hunder as [HWD _].
  assert (D ≠ []) as HD0 by (intros E; rewrite E in Hlen; cbn in Hlen; lia).
  destruct (InstallFacts.parent_last D HD0) as [x Ex].
  assert (¬ midway W D D) as HnmD.
  { intros (j & Hj & E). apply (f_equal length) in E. rewrite length_take in E. lia. }
  assert (t1 !! D = None) as HD1 by (by rewrite Hsame).
  assert (Fs.node_at t1 (Fs.parent D) = Some Fs.Dir) as Hpar.
  { destruct (decide (length D = Datatypes.S (length W))) as [El | El].
    - assert (Fs.parent D = W) as ->.
      { unfold Fs.parent. replace (length D - 1) with (length W) by lia.
        by apply VacantFacts.under_take. }
      destruct W as [|a W']; [done |]. cbn [Fs.node_at] in *. rewrite Hsame; [done |].
      intros (j & Hj & E). apply (f_equal length) in E. rewrite length_take in E. lia.
    - rewrite TreeFacts.node_at_lookup.
      + apply Hmade. exists (length D - 1). split; [lia | done].
      + unfold Fs.parent. apply InstallFacts.take_ne_nil; lia. }
  assert (t1 !! S = Some (Fs.File c)) as HS1 by (by apply (lookup_weaken t t1)).
  set (P := Fs.parent D) in *. clearbody P. rewrite Ex in *.
  rewrite (LinkFacts.symlink_file cwd t1 e P S x c) by done.
  intros [= <-]. cbn [tree].
  pose proof (LinkFacts.link_resolves cwd t1 P S x c Hwf1 HnD HnS Hpar HD1 HS1) as Hloc.
  split; [by rewrite lookup_insert_eq |].
  unfold Fs.realpathSync, Fs.readFileSync. rewrite Hloc.
  split; [done |]. split; [done |].
  etrans; [exact Hsub |]. by apply insert_subseteq.
Qed.

Lemma copyFile_link_resolves_witness :
  let w' := (copyFile "/" "/plug" (Some "a.jar") "/proj" "app/libs/a.jar" true
               Example.world0).1 in
  let source := Path.resolve "/" ["/plug"; "a.jar"] in
  let target := Path.resolve "/" ["/proj"; "app/libs/a.jar"] in
  tree w' !! Fs.comps target
  = Some (Fs.Symlink (Path.relative "/" (Path.dirname target) source)) ∧
  Fs.realpathSync "/" (tree w') target = Ok source ∧
  Fs.readFileSync "/" (tree w') target = Ok "JAR" ∧
  tree Example.world0 ⊆ tree w'.
Proof.
  intros w'.
  apply (copyFile_link_resolves "/" "/plug" "a.jar" "/proj" "app/libs/a.jar"
           Example.world0 w' "JAR" eq_refl).
  - change (Fs.comps (Path.resolve "/" ["/proj"])) with ["proj"].
    change (Fs.comps (Path.resolve "/" ["/proj"; "app/libs/a.jar"]))
      with ["proj"; "app"; "libs"; "a.jar"].
    apply vacantb_vacant. vm_compute. reflexivity.
  - vm_compute. reflexivity.
  - vm_compute. reflexivity.
Defined.

(** ** Directories that links lead to *)

Module MountFacts.
Import StrFacts PathFacts WalkFacts TreeFacts VacantFacts RestoreFacts InstallFacts
  CopyFacts.

Lemma lookup_outside (Ws : list (list string)) (t : Fs.tree) (q : list string) :
  outside Ws t !! q = if decide (Forall (λ W, ¬ under W q) Ws) then t !! q else None.
Proof.
  unfold outside. destruct (decide _) as [H | H].
  - destruct (t !! q) as [n |] eqn:E.
    + by apply map_lookup_filter_Some.
    + apply map_lookup_filter_None. by left.
  - apply map_lookup_filter_None. right. intros n _. done.
Qed.



(** *** Walks through a directory that links lead to *)





(** A tree without links on the way to [W] is mounted at [W] by the names
    of [W]. *)
Lemma mount_entry (Ws : list (list string)) (t : Fs.tree) (W : list string) :
  wf t → normal_list W → Fs.node_at t W = Some Fs.Dir → W ∈ Ws →
  (∀ V, V ∈ Ws → ¬ under V W) →
  mount (outside Ws t) W W.
Proof.
  intros Hwf HnW Hd Hin Hsep.
  assert (Fs.walk Fs.MAXSYMLINKS (outside Ws t) true [] W = Fs.Found W Fs.Dir) as Hw.
  { rewrite (walk_locate "/") by done. apply locate_entry; try done.
    - split.
      + rewrite lookup_outside. destruct (decide _); [apply Hwf | done].
      + intros q x [n Hn]. rewrite lookup_outside in Hn.
        destruct (decide _) as [Hq |]; [| done].
        pose proof (proj2 Hwf q x ltac:(by rewrite Hn)) as Hdq.
        destruct q as [|y q]; [done |]. cbn [Fs.node_at] in *.
        rewrite lookup_outside. rewrite decide_True; [done |].
        apply Forall_forall. intros V HV [Hpre Hne].
        rewrite Forall_forall in Hq. apply (Hq V HV). split.
        * by apply prefix_app_r.
        * intros E. rewrite <- E in Hpre. apply prefix_length in Hpre.
          rewrite length_app in Hpre. cbn in Hpre. lia.
    - destruct W as [|x W]; [done |]. cbn [Fs.node_at] in *.
      rewrite lookup_outside. rewrite decide_True; [done |].
      apply Forall_forall. intros V HV. by apply Hsep. }
  by split.
Qed.

End MountFacts.

(** *** The walk up below such a directory *)

Module BelowFacts.
Import StrFacts PathFacts WalkFacts TreeFacts PruneFacts VacantFacts RestoreFacts
  InstallFacts CopyFacts MountFacts.










End BelowFacts.

Module LeadFacts.
Import StrFacts PathFacts WalkFacts TreeFacts PruneFacts VacantFacts RestoreFacts
  InstallFacts CopyFacts MountFacts BelowFacts.









End LeadFacts.

(** ** The removal of a file and of the directories it leaves empty *)



(** Below the link [/tmp] the file and the directories [b] and [a] go,
    and what the link leads to stays with what is beside them. *)
Example removeFileAndParents_below_link :
  removeFileAndParents "/" "/tmp" "a/b/file.txt" None (World Linked.files [])
  = (World Linked.after [], Ok tt).
Proof. vm_compute. reflexivity. Qed.


(** ** The uninstall of an asset *)

Module RootFacts.
Import StrFacts PathFacts WalkFacts TreeFacts PruneFacts VacantFacts RestoreFacts
  InstallFacts CopyFacts MountFacts BelowFacts LeadFacts.


End RootFacts.



(** With [usePlatformWww] the copy below [platform_www] goes too. *)
Example asset_uninstall_both_roots :
  asset_uninstall "/" (Example.attrs (Some "www") None None) Example.plugin
    Example.project (Some (Options.Make false false true)) (World Assets.files [])
  = (Example.world0, Ok tt).
Proof. vm_compute. reflexivity. Qed.

(** ** Install, then uninstall, for every kind *)

(** *** What an install leaves, and its removal *)

Module PlacedFacts.
Import StrFacts PathFacts WalkFacts TreeFacts PruneFacts VacantFacts RestoreFacts
  InstallFacts CopyFacts MountFacts BelowFacts LeadFacts.

Lemma installed_placed (A D : list string) (t t' : Fs.tree) :
  installed A D t t' → placed A D t t'.
Proof.
  intros [? ? (n & Hn & _) ? ?]. split; try done.
Qed.






End PlacedFacts.

(** *** The install below a directory that links lead to *)

Module MakeFacts.
Import StrFacts PathFacts WalkFacts TreeFacts PruneFacts VacantFacts RestoreFacts
  InstallFacts CopyFacts MountFacts BelowFacts LeadFacts PlacedFacts.









End MakeFacts.

Module SiteFacts.
Import StrFacts PathFacts WalkFacts TreeFacts PruneFacts VacantFacts RestoreFacts
  InstallFacts CopyFacts MountFacts BelowFacts LeadFacts PlacedFacts MakeFacts.











End SiteFacts.

Module SitesFacts.
Import StrFacts PathFacts JoinFacts WalkFacts TreeFacts PruneFacts VacantFacts RestoreFacts
  InstallFacts CopyFacts MountFacts BelowFacts LeadFacts PlacedFacts MakeFacts SiteFacts.







End SitesFacts.

(** *** [path.resolve] of a path joined *)

Module ComposeFacts.
Import StrFacts PathFacts JoinFacts LegacyFacts.















End ComposeFacts.

(** *** The handlers *)

Module KindFacts.
Import StrFacts PathFacts JoinFacts WalkFacts TreeFacts PruneFacts VacantFacts RestoreFacts
  InstallFacts CopyFacts MountFacts BelowFacts LeadFacts PlacedFacts MakeFacts SiteFacts
  SitesFacts ComposeFacts.




End KindFacts.

Module RoundFacts.
Import StrFacts PathFacts JoinFacts WalkFacts TreeFacts PruneFacts VacantFacts RestoreFacts
  InstallFacts CopyFacts MountFacts BelowFacts LeadFacts PlacedFacts MakeFacts SiteFacts
  SitesFacts ComposeFacts KindFacts.













End RoundFacts.

(** *** The round trip *)




(** The asset of the example above is a link, and is installed as a link
    to the directory it leads to. *)
Example asset_link_installed :
  tree (asset_install "/" (Example.attrs (Some "alias") (Some "js") None) Example.plugin
          Built.project None Built.world0).1 !! ["real"; "proj"; "www"; "js"]
  = Some (Fs.Symlink "/plug/www").
Proof. vm_compute. reflexivity. Qed.
